(** * Copilot Studio cost projection calculator: the calculation engine

    A shallow embedding of the calculator's pure functions
    ([src/utils/calculations.ts] and the [useMemo] bodies of the
    [CopilotCostCalculator.tsx] snapshots) together with the properties the
    specification states about them.

    JavaScript numbers are IEEE 754 binary64 values.  They are modelled by
    the standard library's [spec_float] with the binary64 parameters
    ([prec = 53], [emax = 1024]), so that rounding, NaN, signed zeros and
    division by zero behave as they do in the engine. *)

From Stdlib Require Import ZArith List Bool String Ascii Lia.
From Stdlib Require Import DecimalString.
From Stdlib Require Import Floats.SpecFloat Floats.PrimFloat Floats.FloatOps.
Import ListNotations.

Set Warnings "-inexact-float".

Local Open Scope string_scope.
Local Open Scope list_scope.
Local Open Scope Z_scope.

(** [length] is the length of a list throughout. *)
Abbreviation length := List.length (only parsing).

(** ** JavaScript numbers *)

Module JS.

Definition number : Type := spec_float.

Definition NaN : number := S754_nan.
Definition pzero : number := S754_zero false.
Definition nzero : number := S754_zero true.

(** Arithmetic operators [+ - * /] on numbers: the correctly rounded
    binary64 operations. *)
Definition add : number -> number -> number := SFadd prec emax.
Definition sub : number -> number -> number := SFsub prec emax.
Definition mul : number -> number -> number := SFmul prec emax.
Definition div : number -> number -> number := SFdiv prec emax.

(** Relational operators; every comparison with NaN is false. *)
Definition ltb (a b : number) : bool := SFltb a b.
Definition leb (a b : number) : bool := SFleb a b.
Definition gtb (a b : number) : bool := SFltb b a.
Definition geb (a b : number) : bool := SFleb b a.
(** [a === b] on numbers. *)
Definition seq (a b : number) : bool := SFeqb a b.

(** The number denoted by an integer literal or an integer-valued loop
    counter (exact below 2^53, correctly rounded above). *)
Definition of_Z (z : Z) : number := binary_normalize prec emax z 0 false.

(** The integer that a finite number stands for, truncated towards zero
    (ids are integer-valued numbers); 0 for NaN and the infinities. *)
Definition to_Z (x : number) : Z :=
  match x with
  | S754_finite s m e => cond_Zopp s (Z.shiftl (Zpos m) e)
  | _ => 0
  end.

(** The number denoted by a decimal literal of the source: the binary64
    value nearest to it, as the parser of float literals computes it. *)
Definition lit (f : float) : number := Prim2SF f.

Definition isNaN (x : number) : bool :=
  match x with S754_nan => true | _ => false end.

(** ToBoolean on a number: [0], [-0] and [NaN] are falsy. *)
Definition truthy (x : number) : bool :=
  match x with
  | S754_zero _ | S754_nan => false
  | _ => true
  end.

(** Classification of numbers: zeros of either sign, finite numbers
    (anything but NaN and the infinities), and the values a vanished
    quantity can take once NaN may have been mixed in. *)
Definition is_zero (x : number) : bool :=
  match x with S754_zero _ => true | _ => false end.

Definition is_finite (x : number) : bool :=
  match x with S754_zero _ | S754_finite _ _ _ => true | _ => false end.

Definition is_infinity (x : number) : bool :=
  match x with S754_infinity _ => true | _ => false end.

Definition zero_or_nan (x : number) : bool :=
  match x with S754_zero _ | S754_nan => true | _ => false end.

(** [x] is a binary64 value: its mantissa and exponent are in canonical
    form. *)
Definition valid (x : number) : bool := valid_binary prec emax x.

(** The exponent of a finite number is not below the least exponent of the
    format. *)
Definition exponent_bounded (x : number) : bool :=
  match x with S754_finite _ _ e => emin <=? e | _ => true end.

(** A finite number is at least 1 in magnitude. *)
Definition at_least_one (x : number) : bool :=
  match x with
  | S754_finite _ m e => 1 <=? Zpos (digits2_pos m) + e
  | _ => true
  end.

(** [x || y] on numbers. *)
Definition or_else (x y : number) : number := if truthy x then x else y.

(** The signed integer mantissa of a finite number. *)
Definition signed (s : bool) (m : positive) : Z := cond_Zopp s (Zpos m).

(** [Math.round]: the integer nearest to [x], ties towards +Infinity, that
    is [floor (x + 1/2)] computed exactly; NaN, infinities and zeros are
    returned unchanged and a result of zero keeps the sign of [x]. *)
Definition Math_round (x : number) : number :=
  match x with
  | S754_finite s m (Zneg p) =>
      let q := Z.shiftr (2 * signed s m + Z.shiftl 1 (Zpos p)) (Zpos p + 1) in
      if q =? 0 then S754_zero s else of_Z q
  | _ => x
  end.

(** [Math.ceil]: the least integer not below [x]. *)
Definition Math_ceil (x : number) : number :=
  match x with
  | S754_finite s m (Zneg p) =>
      let q := - Z.shiftr (- signed s m) (Zpos p) in
      if q =? 0 then S754_zero s else of_Z q
  | _ => x
  end.

(** [Math.min] of two numbers: NaN if either is NaN, and [-0] is below
    [+0]. *)
Definition Math_min (a b : number) : number :=
  match a, b with
  | S754_nan, _ | _, S754_nan => S754_nan
  | S754_zero sa, S754_zero sb => S754_zero (sa || sb)
  | _, _ => if SFltb b a then b else a
  end.

(** [Math.max] of two numbers. *)
Definition Math_max (a b : number) : number :=
  match a, b with
  | S754_nan, _ | _, S754_nan => S754_nan
  | S754_zero sa, S754_zero sb => S754_zero (sa && sb)
  | _, _ => if SFltb a b then b else a
  end.

(** *** Strings: [split] and [parseInt] *)

(** [s.split(sep)] for a one-character separator. *)
Fixpoint split_aux (sep : ascii) (cur : string) (s : string) : list string :=
  match s with
  | EmptyString => [cur]
  | String c rest =>
      if Ascii.eqb c sep then cur :: split_aux sep EmptyString rest
      else split_aux sep (cur ++ String c EmptyString)%string rest
  end.

Definition split (sep : ascii) (s : string) : list string :=
  split_aux sep EmptyString s.

Definition isWhiteSpace (c : ascii) : bool :=
  let n := nat_of_ascii c in
  (Nat.eqb n 32 || Nat.eqb n 9 || Nat.eqb n 10 || Nat.eqb n 11
   || Nat.eqb n 12 || Nat.eqb n 13 || Nat.eqb n 160)%bool.

Fixpoint trimStart (s : string) : string :=
  match s with
  | String c rest => if isWhiteSpace c then trimStart rest else s
  | EmptyString => s
  end.

Definition digit_value (c : ascii) : option Z :=
  let n := Z.of_nat (nat_of_ascii c) in
  if (48 <=? n) && (n <=? 57) then Some (n - 48)
  else if (97 <=? n) && (n <=? 122) then Some (n - 87)
  else if (65 <=? n) && (n <=? 90) then Some (n - 55)
  else None.

(** The longest prefix of radix-[r] digits, as [Some value], or [None] when
    the first character is not a digit. *)
Fixpoint parse_digits (r : Z) (acc : option Z) (s : string) : option Z :=
  match s with
  | EmptyString => acc
  | String c rest =>
      match digit_value c with
      | Some d =>
          if d <? r
          then
            let value := match acc with Some a => a | None => 0 end in
            parse_digits r (Some (r * value + d)) rest
          else acc
      | None => acc
      end
  end.

(** [parseInt(s)] with the radix left undefined. *)
Definition parseInt (s : string) : number :=
  let s := trimStart s in
  let '(neg, s) :=
    match s with
    | String "-" rest => (true, rest)
    | String "+" rest => (false, rest)
    | _ => (false, s)
    end in
  let '(r, s) :=
    match s with
    | String "0" (String "x" rest) => (16, rest)
    | String "0" (String "X" rest) => (16, rest)
    | _ => (10, s)
    end in
  match parse_digits r None s with
  | None => NaN
  | Some v => if neg then binary_normalize prec emax (- v) 0 true else of_Z v
  end.

(** The decimal rendering of an integer-valued number inside a template
    string. *)
Definition string_of_Z (z : Z) : string := NilZero.string_of_int (Z.to_int z).

End JS.

Declare Scope js_scope.
Delimit Scope js_scope with js.
Bind Scope js_scope with JS.number.
Notation "x + y" := (JS.add x y) : js_scope.
Notation "x - y" := (JS.sub x y) : js_scope.
Notation "x * y" := (JS.mul x y) : js_scope.
Notation "x / y" := (JS.div x y) : js_scope.
Notation "'#' z" := (JS.of_Z z) (at level 1, format "'#' z") : js_scope.

Import JS.

(** ** Control structures shared by the engine's functions *)

(** [for (let month = lo; ...; month++) body], run for [n] iterations on an
    explicit loop state. *)
Fixpoint for_loop {S : Type} (n : nat) (month : Z) (body : Z -> S -> S) (s : S) : S :=
  match n with
  | O => s
  | S n' => for_loop n' (month + 1) body (body month s)
  end.

(** [for (let month = 1; month <= last; month++) body]. *)
Definition for_months {S : Type} (last : Z) (body : Z -> S -> S) (s : S) : S :=
  for_loop (Z.to_nat last) 1 body s.

(** [xs[i]] for a 0-based integer index; [None] is [undefined]. *)
Definition at_index {A : Type} (xs : list A) (i : Z) : option A :=
  if i <? 0 then None else nth_error xs (Z.to_nat i).

(** ** [src/utils/calculations.ts] *)

Module Calculations.

Module MonthlyData.
Record t := {
  month : Z;
  year : string;
  adoption : number;
  activeUsers : number;
  totalCredits : number;
  paygCost : number;
  packCost : number;
  m365Cost : number;
  savings : number
}.
End MonthlyData.

Module ScenarioData.
Record t := {
  users : number;
  agents : number;
  ratio : string;
  activeUsers : number;
  creditsPerUserMonth : number;
  monthlyPayg : number;
  yearlyPayg : number;
  yearlyM365 : number;
  savings : number;
  savingsPercent : number
}.
End ScenarioData.

Module CalculationParams.
Record t := {
  userCount : number;
  complexityRatio : string;
  simpleCreditsPerUser : number;
  complexCreditsPerUser : number;
  year1GrowthRate : number;
  adoptionCeiling : number;
  steadyStateAdoption : number
}.
End CalculationParams.

(** Constants *)
Definition PAYG_RATE : number := lit 0.01.
Definition PACK_COST : number := #200.
Definition PACK_CREDITS : number := #25000.
Definition M365_COPILOT_COST : number := #30.
Definition BREAKEVEN_CREDITS : number := M365_COPILOT_COST / PAYG_RATE.

(** [validateNumber] *)
Definition validateNumber (value min max : number) : number :=
  let num := if isNaN value then min else value in
  Math_min (Math_max num min) max.

(** [const [simplePercent, complexPercent] =
       ratio.split('/').map(n => parseInt(n) / 100)].
    A missing component is [undefined]; it is only ever multiplied by a
    number, which gives NaN, so it is represented by NaN. *)
Definition parsePercents (ratio : string) : number * number :=
  let parts := map (fun n => parseInt n / #100)%js (split "/" ratio) in
  (nth 0 parts NaN, nth 1 parts NaN).

(** The body of the loop of [calculateMonthlyData]: the loop state is the
    variable [currentAdoption] and the array [data]. *)
Definition monthlyStep (params : CalculationParams.t) (month : Z)
    (st : number * list MonthlyData.t) : number * list MonthlyData.t :=
  let '(currentAdoption, data) := st in
  let '(simplePercent, complexPercent) :=
    parsePercents (CalculationParams.complexityRatio params) in
  let currentAdoption :=
    if month <=? 12
    then Math_min (CalculationParams.adoptionCeiling params)
           (#10 + #(month - 1) * CalculationParams.year1GrowthRate params)%js
    else currentAdoption in
  let activeUsers :=
    Math_round (CalculationParams.userCount params * (currentAdoption / #100))%js in
  let creditsPerUserMonth :=
    ((CalculationParams.simpleCreditsPerUser params * simplePercent)
     + (CalculationParams.complexCreditsPerUser params * complexPercent))%js in
  let totalCredits := (activeUsers * creditsPerUserMonth)%js in
  let paygCost := (totalCredits * PAYG_RATE)%js in
  let packsNeeded := Math_ceil (totalCredits / PACK_CREDITS)%js in
  let packCost := (packsNeeded * PACK_COST)%js in
  let m365Cost := (CalculationParams.userCount params * M365_COPILOT_COST)%js in
  (currentAdoption,
   data ++ [ {| MonthlyData.month := month;
                MonthlyData.year := if month <=? 12 then "Year 1" else "Year 2";
                MonthlyData.adoption := currentAdoption;
                MonthlyData.activeUsers := activeUsers;
                MonthlyData.totalCredits := totalCredits;
                MonthlyData.paygCost := Math_round paygCost;
                MonthlyData.packCost := packCost;
                MonthlyData.m365Cost := m365Cost;
                MonthlyData.savings := Math_round (m365Cost - paygCost)%js |} ]).

Definition calculateMonthlyData (params : CalculationParams.t) : list MonthlyData.t :=
  snd (for_months 24 (monthlyStep params) (#10%js, [])).

(** One record of [calculateScenarioComparison]. *)
Definition scenario (users agents : number) (ratio : string)
    (simpleCreditsPerUser complexCreditsPerUser steadyStateAdoption : number)
    : ScenarioData.t :=
  let '(simplePercent, complexPercent) := parsePercents ratio in
  let activeUsers := Math_round (users * (steadyStateAdoption / #100))%js in
  let creditsPerUserMonth :=
    ((simpleCreditsPerUser * simplePercent)
     + (complexCreditsPerUser * complexPercent))%js in
  let totalCreditsMonth := (activeUsers * creditsPerUserMonth)%js in
  let totalCreditsYear := (totalCreditsMonth * #12)%js in
  let paygYearlyCost := (totalCreditsYear * PAYG_RATE)%js in
  let m365YearlyCost := (users * M365_COPILOT_COST * #12)%js in
  {| ScenarioData.users := users;
     ScenarioData.agents := agents;
     ScenarioData.ratio := ratio;
     ScenarioData.activeUsers := activeUsers;
     ScenarioData.creditsPerUserMonth := Math_round creditsPerUserMonth;
     ScenarioData.monthlyPayg := Math_round (totalCreditsMonth * PAYG_RATE)%js;
     ScenarioData.yearlyPayg := Math_round paygYearlyCost;
     ScenarioData.yearlyM365 := m365YearlyCost;
     ScenarioData.savings := Math_round (m365YearlyCost - paygYearlyCost)%js;
     ScenarioData.savingsPercent :=
       Math_round (((m365YearlyCost - paygYearlyCost) / m365YearlyCost) * #100)%js |}.

(** The three nested [for ... of] loops pushing onto [results]. *)
Definition calculateScenarioComparison
    (userScenarios agentScenarios : list number) (complexityScenarios : list string)
    (simpleCreditsPerUser complexCreditsPerUser steadyStateAdoption : number)
    : list ScenarioData.t :=
  fold_left (fun results users =>
    fold_left (fun results agents =>
      fold_left (fun results ratio =>
        results ++ [scenario users agents ratio
                      simpleCreditsPerUser complexCreditsPerUser steadyStateAdoption])
        complexityScenarios results)
      agentScenarios results)
    userScenarios [].

Definition baseParams : CalculationParams.t :=
  {| CalculationParams.userCount := #1300;
     CalculationParams.complexityRatio := "80/20";
     CalculationParams.simpleCreditsPerUser := #75;
     CalculationParams.complexCreditsPerUser := #600;
     CalculationParams.year1GrowthRate := #15;
     CalculationParams.adoptionCeiling := #80;
     CalculationParams.steadyStateAdoption := #60 |}.

End Calculations.

(** ** The deployment-stage rollout projector: shared data and helpers

    The records and helper functions below are textually the same in every
    snapshot of [CopilotCostCalculator.tsx] that has them.  Stage anchor
    months are integer month indices that the stage editor never changes and
    loop counters are integers, so both are [Z]; they are converted to
    numbers where the source does arithmetic on them. *)

(** A thrown [TypeError] (reading a property of [undefined]) is [None]. *)
Notation "x <- e ;; k" := (match e with Some x => k | None => None end)
  (at level 61, e at next level, right associativity).
Notation "' pat <- e ;; k" := (match e with Some pat => k | None => None end)
  (at level 61, pat pattern, e at next level, right associativity).

Module Stage.
Record t := {
  name : string;
  users : number;
  month : Z;
  dau : number;
  phase : string
}.
End Stage.

Module Agent.
Record t := {
  id : Z;
  name : string;
  purpose : string;
  conversationsPerDay : number;
  turns : number;
  generativeRatio : number;
  actions : number;
  tenantGraph : bool;
  deployMonth : number;
  segments : list string;
  color : string;
  enabled : bool
}.
End Agent.

Module MonthlyData.
Record t := {
  month : Z;
  year : string;
  users : number;
  dau : number;
  dauPercent : number;
  activeUsers : number;
  conversations : number;
  credits : number;
  paygCost : number;
  p3Cost : number;
  paygM365Cost : number;
  p3M365Cost : number;
  m365AllCost : number
}.
End MonthlyData.

Module PricingSummary.
Record t := {
  model : string;
  year1 : number;
  year2 : number;
  year3 : number;
  total : number;
  color : string
}.
End PricingSummary.

Module AgentCost.
Record t := {
  agentId : Z;
  agentName : string;
  cost : number;
  color : string
}.
End AgentCost.

Module AgentMonthlyCost.
Record t := {
  month : Z;
  agentCosts : list AgentCost.t;
  totalCost : number
}.
End AgentMonthlyCost.

Module Rollout.

(** [xs[xs.length - 1]] *)
Fixpoint last_item {A : Type} (xs : list A) : option A :=
  match xs with
  | [] => None
  | [x] => Some x
  | _ :: rest => last_item rest
  end.

(** [arr.includes(seg)] on an array of strings. *)
Definition includes (arr : list string) (seg : string) : bool :=
  existsb (String.eqb seg) arr.

Definition calculateAgentCredits (agent : Agent.t) : number :=
  let classicCredits :=
    (Agent.turns agent * (#1 - Agent.generativeRatio agent) * #1)%js in
  let generativeCredits := (Agent.turns agent * Agent.generativeRatio agent * #2)%js in
  let actionCredits := (Agent.actions agent * #5)%js in
  let graphCredits := if Agent.tenantGraph agent then #10%js else #0%js in
  (classicCredits + generativeCredits + actionCredits + graphCredits)%js.

(** Linear interpolation between stages.  [getValue(undefined)] throws. *)
Definition interpolateValue (month : Z) (stagesBefore stagesAfter : list Stage.t)
    (getValue : Stage.t -> number) : option number :=
  let beforeStage := last_item stagesBefore in
  let afterStage := hd_error stagesAfter in
  match beforeStage, afterStage with
  | None, None => None
  | None, Some afterStage => Some (getValue afterStage)
  | Some beforeStage, None => Some (getValue beforeStage)
  | Some beforeStage, Some afterStage =>
      let monthRange := (#(Stage.month afterStage) - #(Stage.month beforeStage))%js in
      let monthProgress := (#month - #(Stage.month beforeStage))%js in
      let ratio := (monthProgress / monthRange)%js in
      let beforeValue := getValue beforeStage in
      let afterValue := getValue afterStage in
      Some (beforeValue + (afterValue - beforeValue) * ratio)%js
  end.

(** [stages.filter(s => s.month <= month)] and
    [stages.filter(s => s.month > month)] *)
Definition stagesBefore (stages : list Stage.t) (month : Z) : list Stage.t :=
  filter (fun s => Stage.month s <=? month) stages.

Definition stagesAfter (stages : list Stage.t) (month : Z) : list Stage.t :=
  filter (fun s => month <? Stage.month s) stages.

(** [a || b] where [a] is an object or [undefined]. *)
Definition or_undefined {A : Type} (a b : option A) : option A :=
  match a with
  | Some _ => a
  | None => b
  end.

(** The segment rules, as written for an agent's [segments] array.  The
    phase of [currentStage] is read only in the Management and HQ branches;
    reading it from [undefined] throws. *)
Definition eligibleUsers (segments : list string) (currentStage : option Stage.t)
    (users : number) : option number :=
  if includes segments "All" then Some users
  else if includes segments "Stores" then Some users
  else if includes segments "Management" then
    currentStage <- currentStage ;;
    if (Stage.phase currentStage =? "Management")%string
       || (Stage.phase currentStage =? "Stores")%string
       || (Stage.phase currentStage =? "Enterprise")%string
    then Some users
    else if (Stage.phase currentStage =? "Expansion")%string
    then Some (Math_round (users * lit 0.4)%js)
    else Some #0%js
  else if includes segments "HQ" then
    currentStage <- currentStage ;;
    if (Stage.phase currentStage =? "Pilot")%string
       || (Stage.phase currentStage =? "Expansion")%string
    then Some users
    else Some (Math_round (users * lit 0.15)%js)
  else Some #0%js.

(** [data.reduce((acc, m) => acc + m[key], 0)] *)
Definition sum (data : list MonthlyData.t) (key : MonthlyData.t -> number) : number :=
  fold_left (fun acc m => (acc + key m)%js) data #0%js.

(** [xs.slice(from, to)] for constant bounds. *)
Definition slice {A : Type} (xs : list A) (from to : nat) : list A :=
  firstn (to - from) (skipn from xs).

Definition pricingSummary (monthlyData : list MonthlyData.t) : list PricingSummary.t :=
  let year1Data := slice monthlyData 0 12 in
  let year2Data := slice monthlyData 12 24 in
  let year3Data := slice monthlyData 24 36 in
  let model (name : string) (key : MonthlyData.t -> number) (color : string) :=
    let year1 := sum year1Data key in
    let year2 := sum year2Data key in
    let year3 := sum year3Data key in
    {| PricingSummary.model := name;
       PricingSummary.year1 := year1;
       PricingSummary.year2 := year2;
       PricingSummary.year3 := year3;
       PricingSummary.total := (year1 + year2 + year3)%js;
       PricingSummary.color := color |} in
  [ model "PAYG Alone" MonthlyData.paygCost "#3b82f6";
    model "P3 Pre-Purchase (15% discount)" MonthlyData.p3Cost "#8b5cf6";
    model "PAYG + M365 Licenses" MonthlyData.paygM365Cost "#10b981";
    model "P3 + M365 Licenses" MonthlyData.p3M365Cost "#f59e0b";
    model "M365 Copilot for All" MonthlyData.m365AllCost "#ef4444" ].

(** [pricingSummary.find(p => p.model === name)?.total || 0] *)
Definition totalOf (summary : list PricingSummary.t) (name : string) : number :=
  match find (fun p => (PricingSummary.model p =? name)%string) summary with
  | Some p => or_else (PricingSummary.total p) #0%js
  | None => #0%js
  end.

Definition yearLabel (month : Z) : string :=
  if month <=? 12 then "Year 1" else if month <=? 24 then "Year 2" else "Year 3".

(** The initial state of the component. *)
Definition pilotHQ : Stage.t :=
  {| Stage.name := "Pilot (HQ)"; Stage.users := #130; Stage.month := 1;
     Stage.dau := lit 0.45; Stage.phase := "Pilot" |}.
Definition hqExpansion : Stage.t :=
  {| Stage.name := "HQ Expansion"; Stage.users := #500; Stage.month := 4;
     Stage.dau := lit 0.40; Stage.phase := "Expansion" |}.
Definition fullHQ : Stage.t :=
  {| Stage.name := "Full HQ"; Stage.users := #1000; Stage.month := 7;
     Stage.dau := lit 0.38; Stage.phase := "Expansion" |}.
Definition hqMgmt : Stage.t :=
  {| Stage.name := "HQ + Mgmt"; Stage.users := #2500; Stage.month := 10;
     Stage.dau := lit 0.35; Stage.phase := "Management" |}.
Definition allMgmt : Stage.t :=
  {| Stage.name := "All Mgmt"; Stage.users := #6000; Stage.month := 13;
     Stage.dau := lit 0.33; Stage.phase := "Management" |}.
Definition mgmtStores : Stage.t :=
  {| Stage.name := "Mgmt + Stores"; Stage.users := #12000; Stage.month := 19;
     Stage.dau := lit 0.30; Stage.phase := "Stores" |}.
Definition nearComplete : Stage.t :=
  {| Stage.name := "Near-Complete"; Stage.users := #30000; Stage.month := 31;
     Stage.dau := lit 0.28; Stage.phase := "Enterprise" |}.

Definition defaultStages : list Stage.t :=
  [pilotHQ; hqExpansion; fullHQ; hqMgmt; allMgmt; mgmtStores; nearComplete].

Definition allSegments : list string := ["HQ"; "Management"; "Stores"; "All"].

Definition hrHelper : Agent.t :=
  {| Agent.id := 1; Agent.name := "HR Helper";
     Agent.purpose := "Benefits, PTO, policies";
     Agent.conversationsPerDay := lit 1.5; Agent.turns := #4;
     Agent.generativeRatio := lit 0.50; Agent.actions := lit 0.5;
     Agent.tenantGraph := false; Agent.deployMonth := #1;
     Agent.segments := allSegments; Agent.color := "#8b5cf6";
     Agent.enabled := true |}.
Definition itHelpdesk : Agent.t :=
  {| Agent.id := 2; Agent.name := "IT Helpdesk";
     Agent.purpose := "Password reset, access requests";
     Agent.conversationsPerDay := lit 1.0; Agent.turns := #5;
     Agent.generativeRatio := lit 0.60; Agent.actions := #2;
     Agent.tenantGraph := false; Agent.deployMonth := #1;
     Agent.segments := allSegments; Agent.color := "#3b82f6";
     Agent.enabled := true |}.
Definition documentSearch : Agent.t :=
  {| Agent.id := 3; Agent.name := "Document Search";
     Agent.purpose := "Policy docs, manuals";
     Agent.conversationsPerDay := lit 1.0; Agent.turns := #6;
     Agent.generativeRatio := lit 0.80; Agent.actions := #1;
     Agent.tenantGraph := true; Agent.deployMonth := #4;
     Agent.segments := ["HQ"; "Management"]; Agent.color := "#f59e0b";
     Agent.enabled := true |}.
Definition documentTranslation : Agent.t :=
  {| Agent.id := 4; Agent.name := "Document Translation";
     Agent.purpose := "Translate PPT, Word, Excel documents";
     Agent.conversationsPerDay := lit 0.75; Agent.turns := #4;
     Agent.generativeRatio := lit 0.95; Agent.actions := lit 2.5;
     Agent.tenantGraph := false; Agent.deployMonth := #5;
     Agent.segments := ["HQ"; "Management"]; Agent.color := "#22c55e";
     Agent.enabled := true |}.
Definition documentSummarization : Agent.t :=
  {| Agent.id := 5; Agent.name := "Document Summarization";
     Agent.purpose := "Summarize PPT, Word, Excel documents";
     Agent.conversationsPerDay := lit 1.5; Agent.turns := #5;
     Agent.generativeRatio := lit 0.85; Agent.actions := lit 1.5;
     Agent.tenantGraph := false; Agent.deployMonth := #2;
     Agent.segments := allSegments; Agent.color := "#ef4444";
     Agent.enabled := true |}.

Definition defaultAgents : list Agent.t :=
  [hrHelper; itHelpdesk; documentSearch; documentTranslation; documentSummarization].

End Rollout.

(** ** The agent-portfolio snapshot of the rollout projector

    The snapshot of [CopilotCostCalculator.tsx] whose [Config] holds only
    the three licensing settings, whose monthly projection aggregates the
    enabled agents, and which has the licensing breakpoint search. *)

Module Portfolio.
Import Rollout.

Module Config.
Record t := {
  m365CopilotPrice : number;
  autonomousActionRatio : number;
  hybridM365Users : number
}.
End Config.

Definition defaultConfig : Config.t :=
  {| Config.m365CopilotPrice := #30;
     Config.autonomousActionRatio := lit 0.15;
     Config.hybridM365Users := #200 |}.

Definition DAYS_PER_MONTH : number := #30.
Definition paygRate : number := lit 0.01.
Definition p3Discount : number := lit 0.15.

(** [[...stages].reverse().find(s => s.month <= month) || stages[0]] *)
Definition currentStage (stages : list Stage.t) (month : Z) : option Stage.t :=
  or_undefined (find (fun s => Stage.month s <=? month) (rev stages))
               (hd_error stages).

(** The running totals [totalConversations], [totalCredits] and
    [totalActionsForM365] of one month. *)
Definition totals : Type := (number * number * number)%type.

(** The callback of [agents.forEach] in [monthlyData]. *)
Definition aggregateAgent (month : Z) (users dau : number)
    (currentStage : option Stage.t) (acc : option totals) (agent : Agent.t)
    : option totals :=
  '(totalConversations, totalCredits, totalActionsForM365) <- acc ;;
  if negb (Agent.enabled agent) || ltb #month (Agent.deployMonth agent)
  then acc
  else
    eligibleUsers <- eligibleUsers (Agent.segments agent) currentStage users ;;
    let agentActiveUsers := Math_round (eligibleUsers * dau)%js in
    let agentConversations :=
      (agentActiveUsers * Agent.conversationsPerDay agent * DAYS_PER_MONTH)%js in
    let agentCreditsPerConv := calculateAgentCredits agent in
    let agentCredits := (agentConversations * agentCreditsPerConv)%js in
    Some ((totalConversations + agentConversations)%js,
          (totalCredits + agentCredits)%js,
          (totalActionsForM365 + agentConversations * Agent.actions agent)%js).

(** The five pricing models of one month, from the month's user count and
    the aggregated totals. *)
Definition monthCosts (config : Config.t) (month : Z) (users dau : number)
    (t : totals) : MonthlyData.t :=
  let '(totalConversations, totalCredits, totalActionsForM365) := t in
  let activeUsers := Math_round (users * dau)%js in
  let paygCost := (totalCredits * paygRate)%js in
  let p3Cost := (totalCredits * paygRate * (#1 - p3Discount))%js in
  let m365Users := Math_min (Config.hybridM365Users config) users in
  let paygUsers := (users - m365Users)%js in
  let userRatio := if gtb users #0 then (paygUsers / users)%js else #0%js in
  let paygCredits := (totalCredits * userRatio)%js in
  let m365AutonomousCredits :=
    (totalActionsForM365 * (#1 - userRatio)
     * Config.autonomousActionRatio config * #5)%js in
  let paygM365Cost :=
    ((m365Users * Config.m365CopilotPrice config)
     + ((m365AutonomousCredits + paygCredits) * paygRate))%js in
  let p3M365Cost :=
    ((m365Users * Config.m365CopilotPrice config)
     + ((m365AutonomousCredits + paygCredits) * paygRate * (#1 - p3Discount)))%js in
  let m365AllCost := (users * Config.m365CopilotPrice config)%js in
  {| MonthlyData.month := month;
     MonthlyData.year := yearLabel month;
     MonthlyData.users := users;
     MonthlyData.dau := dau;
     MonthlyData.dauPercent := (dau * #100)%js;
     MonthlyData.activeUsers := activeUsers;
     MonthlyData.conversations := Math_round totalConversations;
     MonthlyData.credits := Math_round totalCredits;
     MonthlyData.paygCost := Math_round paygCost;
     MonthlyData.p3Cost := Math_round p3Cost;
     MonthlyData.paygM365Cost := Math_round paygM365Cost;
     MonthlyData.p3M365Cost := Math_round p3M365Cost;
     MonthlyData.m365AllCost := Math_round m365AllCost |}.

(** One iteration of the loop of [monthlyData]. *)
Definition monthRecord (stages : list Stage.t) (agents : list Agent.t)
    (config : Config.t) (month : Z) : option MonthlyData.t :=
  let stagesBefore := stagesBefore stages month in
  let stagesAfter := stagesAfter stages month in
  u <- interpolateValue month stagesBefore stagesAfter Stage.users ;;
  let users := Math_round u in
  dau <- interpolateValue month stagesBefore stagesAfter Stage.dau ;;
  let currentStage := currentStage stages month in
  t <- fold_left (aggregateAgent month users dau currentStage) agents
         (Some (#0, #0, #0)%js) ;;
  Some (monthCosts config month users dau t).

Definition monthlyData (stages : list Stage.t) (agents : list Agent.t)
    (config : Config.t) : option (list MonthlyData.t) :=
  for_months 36
    (fun month acc =>
       data <- acc ;;
       r <- monthRecord stages agents config month ;;
       Some (data ++ [r]))
    (Some []).

(** The callback of [agents.forEach] in [agentMonthlyCosts]; the state is
    the array [agentCosts] and the variable [totalCost]. *)
Definition agentCostStep (stages : list Stage.t) (month : Z)
    (monthData : MonthlyData.t) (acc : option (list AgentCost.t * number))
    (agent : Agent.t) : option (list AgentCost.t * number) :=
  '(agentCosts, totalCost) <- acc ;;
  if negb (Agent.enabled agent) then acc
  else if ltb #month (Agent.deployMonth agent) then acc
  else
    let currentStage := currentStage stages month in
    eligibleUsers <-
      eligibleUsers (Agent.segments agent) currentStage (MonthlyData.users monthData) ;;
    let activeUsers := Math_round (eligibleUsers * MonthlyData.dau monthData)%js in
    let creditsPerConv := calculateAgentCredits agent in
    let monthlyConversations :=
      (activeUsers * Agent.conversationsPerDay agent * DAYS_PER_MONTH)%js in
    let monthlyCredits := (monthlyConversations * creditsPerConv)%js in
    let monthlyCost := (monthlyCredits * paygRate)%js in
    Some (agentCosts ++
            [ {| AgentCost.agentId := Agent.id agent;
                 AgentCost.agentName := Agent.name agent;
                 AgentCost.cost := Math_round monthlyCost;
                 AgentCost.color := Agent.color agent |} ],
          (totalCost + monthlyCost)%js).

Definition agentMonthlyCosts (stages : list Stage.t) (agents : list Agent.t)
    (monthlyData : list MonthlyData.t) : option (list AgentMonthlyCost.t) :=
  for_months 36
    (fun month acc =>
       costs <- acc ;;
       match at_index monthlyData (month - 1) with
       | None => Some costs
       | Some monthData =>
           '(agentCosts, totalCost) <-
             fold_left (agentCostStep stages month monthData) agents
               (Some ([], #0%js)) ;;
           Some (costs ++
                   [ {| AgentMonthlyCost.month := month;
                        AgentMonthlyCost.agentCosts := agentCosts;
                        AgentMonthlyCost.totalCost := Math_round totalCost |} ])
       end)
    (Some []).

(** *** The licensing breakpoint search *)

Module Breakpoint.
Record t := {
  currentAgentCount : Z;
  currentPaygTotal : number;
  currentM365Total : number;
  breakpointAgentCount : Z;
  breakpointPaygTotal : number;
  additionalAgents : Z;
  hasBreakpoint : bool;
  avgCreditsPerConv : option number;
  message : string
}.
End Breakpoint.

Definition MAX_AGENTS_TO_SIMULATE : Z := 200.

(** [segmentCounts.set(seg, (segmentCounts.get(seg) || 0) + 1)] on a [Map],
    which keeps its keys in insertion order. *)
Fixpoint countSegment (seg : string) (segmentCounts : list (string * Z))
    : list (string * Z) :=
  match segmentCounts with
  | [] => [(seg, 0 + 1)]
  | (k, n) :: rest =>
      if (k =? seg)%string then (k, n + 1) :: rest
      else (k, n) :: countSegment seg rest
  end.

Definition segmentCounts (enabledAgents : list Agent.t) : list (string * Z) :=
  fold_left (fun counts a => fold_left (fun counts seg => countSegment seg counts)
                               (Agent.segments a) counts)
            enabledAgents [].

(** [entries.sort((a, b) => b[1] - a[1])]: a stable sort by decreasing
    count. *)
Fixpoint insertByCount (a : string * Z) (sorted : list (string * Z))
    : list (string * Z) :=
  match sorted with
  | [] => [a]
  | b :: rest =>
      if snd b - snd a <=? 0 then a :: b :: rest
      else b :: insertByCount a rest
  end.

Definition sortByCount (entries : list (string * Z)) : list (string * Z) :=
  fold_right insertByCount [] entries.

(** [Array.from(segmentCounts.entries()).sort(...)[0][0]]; indexing
    [undefined] throws. *)
Definition mostCommonSegment (enabledAgents : list Agent.t) : option string :=
  option_map fst (hd_error (sortByCount (segmentCounts enabledAgents))).

Definition avgCreditsPerConv (enabledAgents : list Agent.t) : number :=
  (fold_left (fun sum a => sum + calculateAgentCredits a) enabledAgents #0
   / #(Z.of_nat (length enabledAgents)))%js.

Definition avgConversationsPerDay (enabledAgents : list Agent.t) : number :=
  (fold_left (fun sum a => sum + Agent.conversationsPerDay a) enabledAgents #0
   / #(Z.of_nat (length enabledAgents)))%js.

Definition avgDeployMonth (enabledAgents : list Agent.t) : number :=
  Math_round (fold_left (fun sum a => sum + Agent.deployMonth a) enabledAgents #0
              / #(Z.of_nat (length enabledAgents)))%js.

(** The segment rules as written inside the simulation, on the single
    segment [mostCommonSegment]. *)
Definition simulatedEligibleUsers (mostCommonSegment : string)
    (currentStage : option Stage.t) (users : number) : option number :=
  if (mostCommonSegment =? "All")%string then Some users
  else if (mostCommonSegment =? "Stores")%string then Some users
  else if (mostCommonSegment =? "Management")%string then
    currentStage <- currentStage ;;
    if (Stage.phase currentStage =? "Management")%string
       || (Stage.phase currentStage =? "Stores")%string
       || (Stage.phase currentStage =? "Enterprise")%string
    then Some users
    else if (Stage.phase currentStage =? "Expansion")%string
    then Some (Math_round (users * lit 0.4)%js)
    else Some #0%js
  else if (mostCommonSegment =? "HQ")%string then
    currentStage <- currentStage ;;
    if (Stage.phase currentStage =? "Pilot")%string
       || (Stage.phase currentStage =? "Expansion")%string
    then Some users
    else Some (Math_round (users * lit 0.15)%js)
  else Some #0%js.

(** The inner loop over the 36 months: the cost that [additionalAgents]
    simulated average agents add. *)
Definition additionalCost (stages : list Stage.t) (enabledAgents : list Agent.t)
    (monthlyData : list MonthlyData.t) (mostCommonSegment : string)
    (additionalAgents : Z) : option number :=
  for_months 36
    (fun month acc =>
       additionalCost <- acc ;;
       match at_index monthlyData (month - 1) with
       | None => Some additionalCost
       | Some monthData =>
           if ltb #month (avgDeployMonth enabledAgents) then Some additionalCost
           else
             let currentStage := currentStage stages month in
             eligibleUsers <-
               simulatedEligibleUsers mostCommonSegment currentStage
                 (MonthlyData.users monthData) ;;
             let activeUsers :=
               Math_round (eligibleUsers * MonthlyData.dau monthData)%js in
             let monthlyConversations :=
               (activeUsers * avgConversationsPerDay enabledAgents
                * DAYS_PER_MONTH)%js in
             let monthlyCredits :=
               (monthlyConversations * avgCreditsPerConv enabledAgents)%js in
             let monthlyCost := (monthlyCredits * paygRate)%js in
             Some (additionalCost + monthlyCost * #additionalAgents)%js
       end)
    (Some #0%js).

(** [currentPaygTotal + additionalCost] for a given number of simulated
    agents. *)
Definition projectedPaygTotal (stages : list Stage.t) (enabledAgents : list Agent.t)
    (monthlyData : list MonthlyData.t) (mostCommonSegment : string)
    (currentPaygTotal : number) (additionalAgents : Z) : option number :=
  additionalCost <-
    additionalCost stages enabledAgents monthlyData mostCommonSegment
      additionalAgents ;;
  Some (currentPaygTotal + additionalCost)%js.

Definition headroomMessage (additionalAgents : Z) : string :=
  ("With your current onboarding plan, you have headroom for "
   ++ string_of_Z additionalAgents ++ " more agent"
   ++ (if (1 <? additionalAgents)%Z then "s" else "")
   ++ " before M365 Copilot for All becomes more economical")%string.

Definition noBreakpointMessage : string :=
  ("PAYG remains more economical even with "
   ++ string_of_Z MAX_AGENTS_TO_SIMULATE
   ++ "+ additional agents given your onboarding plan")%string.

(** [for (let additionalAgents = ...; additionalAgents <= 200;
    additionalAgents++)], with [n] iterations left; the loop returns from
    the function at the first crossing. *)
Fixpoint simulate (n : nat) (additionalAgents : Z)
    (stages : list Stage.t) (enabledAgents : list Agent.t)
    (monthlyData : list MonthlyData.t) (mostCommonSegment : string)
    (currentPaygTotal currentM365Total : number) : option Breakpoint.t :=
  match n with
  | O =>
      Some {| Breakpoint.currentAgentCount := Z.of_nat (length enabledAgents);
              Breakpoint.currentPaygTotal := currentPaygTotal;
              Breakpoint.currentM365Total := currentM365Total;
              Breakpoint.breakpointAgentCount :=
                Z.of_nat (length enabledAgents) + MAX_AGENTS_TO_SIMULATE;
              Breakpoint.breakpointPaygTotal := #0%js;
              Breakpoint.additionalAgents := MAX_AGENTS_TO_SIMULATE;
              Breakpoint.hasBreakpoint := false;
              Breakpoint.avgCreditsPerConv :=
                Some (Math_round (avgCreditsPerConv enabledAgents * #10) / #10)%js;
              Breakpoint.message := noBreakpointMessage |}
  | S n' =>
      projectedPaygTotal <-
        projectedPaygTotal stages enabledAgents monthlyData mostCommonSegment
          currentPaygTotal additionalAgents ;;
      if geb projectedPaygTotal currentM365Total then
        Some {| Breakpoint.currentAgentCount := Z.of_nat (length enabledAgents);
                Breakpoint.currentPaygTotal := currentPaygTotal;
                Breakpoint.currentM365Total := currentM365Total;
                Breakpoint.breakpointAgentCount :=
                  Z.of_nat (length enabledAgents) + additionalAgents;
                Breakpoint.breakpointPaygTotal := Math_round projectedPaygTotal;
                Breakpoint.additionalAgents := additionalAgents;
                Breakpoint.hasBreakpoint := true;
                Breakpoint.avgCreditsPerConv :=
                  Some (Math_round (avgCreditsPerConv enabledAgents * #10) / #10)%js;
                Breakpoint.message := headroomMessage additionalAgents |}
      else
        simulate n' (additionalAgents + 1) stages enabledAgents monthlyData
          mostCommonSegment currentPaygTotal currentM365Total
  end.

Definition licensingBreakpoint (stages : list Stage.t) (agents : list Agent.t)
    (pricingSummary : list PricingSummary.t) (monthlyData : list MonthlyData.t)
    : option Breakpoint.t :=
  let enabledAgents := filter Agent.enabled agents in
  if (length enabledAgents =? 0)%nat then
    Some {| Breakpoint.currentAgentCount := 0;
            Breakpoint.currentPaygTotal := #0%js;
            Breakpoint.currentM365Total := #0%js;
            Breakpoint.breakpointAgentCount := 0;
            Breakpoint.breakpointPaygTotal := #0%js;
            Breakpoint.additionalAgents := 0;
            Breakpoint.hasBreakpoint := false;
            Breakpoint.avgCreditsPerConv := None;
            Breakpoint.message := "No agents enabled" |}
  else
    let currentPaygTotal := totalOf pricingSummary "PAYG Alone" in
    let currentM365Total := totalOf pricingSummary "M365 Copilot for All" in
    if geb currentPaygTotal currentM365Total then
      Some {| Breakpoint.currentAgentCount := Z.of_nat (length enabledAgents);
              Breakpoint.currentPaygTotal := currentPaygTotal;
              Breakpoint.currentM365Total := currentM365Total;
              Breakpoint.breakpointAgentCount := Z.of_nat (length enabledAgents);
              Breakpoint.breakpointPaygTotal := currentPaygTotal;
              Breakpoint.additionalAgents := 0;
              Breakpoint.hasBreakpoint := true;
              Breakpoint.avgCreditsPerConv := None;
              Breakpoint.message :=
                "M365 Copilot for All is already more economical at current scale" |}
    else
      mostCommonSegment <- mostCommonSegment enabledAgents ;;
      simulate (Z.to_nat MAX_AGENTS_TO_SIMULATE) 1 stages enabledAgents monthlyData
        mostCommonSegment currentPaygTotal currentM365Total.

(** The component: [monthlyData], [pricingSummary] and
    [licensingBreakpoint] chained as their [useMemo] dependencies say. *)
Definition projectBreakpoint (stages : list Stage.t) (agents : list Agent.t)
    (config : Config.t) : option Breakpoint.t :=
  monthlyData <- monthlyData stages agents config ;;
  licensingBreakpoint stages agents (pricingSummary monthlyData) monthlyData.

End Portfolio.

(** ** The usage-parameter snapshot of the rollout projector

    The snapshot of [CopilotCostCalculator.tsx] whose [Config] carries the
    usage parameters and the peak multiplier.  Its monthly projection is
    driven by [config] alone (the same text as in
    [src/components/CopilotCostCalculator.tsx]); the agent portfolio only
    feeds [agentMonthlyCosts] and [licensingImpact]. *)

Module Usage.
Import Rollout.

Module Config.
Record t := {
  conversationsPerDay : number;
  turnsPerConversation : number;
  generativeRatio : number;
  actionsPerConversation : number;
  peakMultiplier : number;
  m365CopilotPrice : number;
  autonomousActionRatio : number;
  hybridM365Users : number
}.
End Config.

Definition defaultConfig : Config.t :=
  {| Config.conversationsPerDay := #4;
     Config.turnsPerConversation := #5;
     Config.generativeRatio := lit 0.70;
     Config.actionsPerConversation := lit 1.5;
     Config.peakMultiplier := lit 1.4;
     Config.m365CopilotPrice := #30;
     Config.autonomousActionRatio := lit 0.15;
     Config.hybridM365Users := #200 |}.

Definition creditsPerConversation (config : Config.t) : number :=
  let classicTurns :=
    (Config.turnsPerConversation config * (#1 - Config.generativeRatio config))%js in
  let generativeTurns :=
    (Config.turnsPerConversation config * Config.generativeRatio config)%js in
  let classicCredits := (classicTurns * #1)%js in
  let generativeCredits := (generativeTurns * #2)%js in
  let actionCredits := (Config.actionsPerConversation config * #5)%js in
  (classicCredits + generativeCredits + actionCredits)%js.

Definition workingDaysPerMonth : number := #22.
Definition paygRate : number := lit 0.01.
Definition p3Discount : number := lit 0.15.

(** [const multiplier = month % 6 === 0 ? config.peakMultiplier : 1.0] *)
Definition multiplier (config : Config.t) (month : Z) : number :=
  let isPeakMonth := Z.rem month 6 =? 0 in
  if isPeakMonth then Config.peakMultiplier config else lit 1.0.

(** The unrounded [conversations] of a month. *)
Definition conversationVolume (config : Config.t) (month : Z) (activeUsers : number)
    : number :=
  (activeUsers * Config.conversationsPerDay config * workingDaysPerMonth
   * multiplier config month)%js.

(** The body of the loop of [monthlyData], after the interpolation. *)
Definition monthCosts (config : Config.t) (month : Z) (users dau : number)
    : MonthlyData.t :=
  let activeUsers := Math_round (users * dau)%js in
  let multiplier := multiplier config month in
  let conversations := conversationVolume config month activeUsers in
  let totalCredits := (conversations * creditsPerConversation config)%js in
  let paygCost := (totalCredits * paygRate)%js in
  let p3Cost := (totalCredits * paygRate * (#1 - p3Discount))%js in
  let m365Users := Math_min (Config.hybridM365Users config) users in
  let paygUsers := (users - m365Users)%js in
  let m365ActiveUsers := Math_round (m365Users * dau)%js in
  let paygActiveUsers := Math_round (paygUsers * dau)%js in
  let m365Conversations :=
    (m365ActiveUsers * Config.conversationsPerDay config * workingDaysPerMonth
     * multiplier)%js in
  let paygConversations :=
    (paygActiveUsers * Config.conversationsPerDay config * workingDaysPerMonth
     * multiplier)%js in
  let m365AutonomousCredits :=
    (m365Conversations * Config.actionsPerConversation config
     * Config.autonomousActionRatio config * #5)%js in
  let paygCredits := (paygConversations * creditsPerConversation config)%js in
  let paygM365Cost :=
    ((m365Users * Config.m365CopilotPrice config)
     + ((m365AutonomousCredits + paygCredits) * paygRate))%js in
  let p3M365Cost :=
    ((m365Users * Config.m365CopilotPrice config)
     + ((m365AutonomousCredits + paygCredits) * paygRate * (#1 - p3Discount)))%js in
  let m365AllCost := (users * Config.m365CopilotPrice config)%js in
  {| MonthlyData.month := month;
     MonthlyData.year := yearLabel month;
     MonthlyData.users := users;
     MonthlyData.dau := dau;
     MonthlyData.dauPercent := (dau * #100)%js;
     MonthlyData.activeUsers := activeUsers;
     MonthlyData.conversations := Math_round conversations;
     MonthlyData.credits := Math_round totalCredits;
     MonthlyData.paygCost := Math_round paygCost;
     MonthlyData.p3Cost := Math_round p3Cost;
     MonthlyData.paygM365Cost := Math_round paygM365Cost;
     MonthlyData.p3M365Cost := Math_round p3M365Cost;
     MonthlyData.m365AllCost := Math_round m365AllCost |}.

Definition monthRecord (stages : list Stage.t) (config : Config.t) (month : Z)
    : option MonthlyData.t :=
  let stagesBefore := stagesBefore stages month in
  let stagesAfter := stagesAfter stages month in
  u <- interpolateValue month stagesBefore stagesAfter Stage.users ;;
  let users := Math_round u in
  dau <- interpolateValue month stagesBefore stagesAfter Stage.dau ;;
  Some (monthCosts config month users dau).

Definition monthlyData (stages : list Stage.t) (config : Config.t)
    : option (list MonthlyData.t) :=
  for_months 36
    (fun month acc =>
       data <- acc ;;
       r <- monthRecord stages config month ;;
       Some (data ++ [r]))
    (Some []).

Definition PAYG_RATE : number := lit 0.01.
Definition DAYS_PER_MONTH : number := #30.

(** [stages.find(s => s.month <= month) || stages[0]] *)
Definition currentStage (stages : list Stage.t) (month : Z) : option Stage.t :=
  or_undefined (find (fun s => Stage.month s <=? month) stages)
               (hd_error stages).

(** The callback of [agents.forEach] in [agentMonthlyCosts]. *)
Definition agentCostStep (stages : list Stage.t) (month : Z)
    (monthData : MonthlyData.t) (acc : option (list AgentCost.t * number))
    (agent : Agent.t) : option (list AgentCost.t * number) :=
  '(agentCosts, totalCost) <- acc ;;
  if negb (Agent.enabled agent) then acc
  else if ltb #month (Agent.deployMonth agent) then acc
  else
    let currentStage := currentStage stages month in
    eligibleUsers <-
      eligibleUsers (Agent.segments agent) currentStage (MonthlyData.users monthData) ;;
    let activeUsers := Math_round (eligibleUsers * MonthlyData.dau monthData)%js in
    let creditsPerConv := calculateAgentCredits agent in
    let monthlyConversations :=
      (activeUsers * Agent.conversationsPerDay agent * DAYS_PER_MONTH)%js in
    let monthlyCredits := (monthlyConversations * creditsPerConv)%js in
    let monthlyCost := (monthlyCredits * PAYG_RATE)%js in
    Some (agentCosts ++
            [ {| AgentCost.agentId := Agent.id agent;
                 AgentCost.agentName := Agent.name agent;
                 AgentCost.cost := Math_round monthlyCost;
                 AgentCost.color := Agent.color agent |} ],
          (totalCost + monthlyCost)%js).

Definition agentMonthlyCosts (stages : list Stage.t) (agents : list Agent.t)
    (monthlyData : list MonthlyData.t) : option (list AgentMonthlyCost.t) :=
  for_months 36
    (fun month acc =>
       costs <- acc ;;
       match at_index monthlyData (month - 1) with
       | None => Some costs
       | Some monthData =>
           '(agentCosts, totalCost) <-
             fold_left (agentCostStep stages month monthData) agents
               (Some ([], #0%js)) ;;
           Some (costs ++
                   [ {| AgentMonthlyCost.month := month;
                        AgentMonthlyCost.agentCosts := agentCosts;
                        AgentMonthlyCost.totalCost := Math_round totalCost |} ])
       end)
    (Some []).

(** *** Licensing impact *)

Module MonthMetrics.
Record t := {
  creditsPerUser : number;
  costPerUser : number
}.
End MonthMetrics.

Module LicensingImpact.
Record t := {
  avgCreditsPerUserMonth : number;
  monthlyCostPerUser : number;
  recommendM365 : bool;
  month12 : MonthMetrics.t;
  month24 : MonthMetrics.t;
  month36 : MonthMetrics.t
}.
End LicensingImpact.

(** [const BREAKEVEN_CREDITS = 3000;] inside [licensingImpact] *)
Definition BREAKEVEN_CREDITS : number := #3000.

Definition calculateMonthMetrics (agentMonthlyCosts : list AgentMonthlyCost.t)
    (monthlyData : list MonthlyData.t) (month : Z) : MonthMetrics.t :=
  match at_index agentMonthlyCosts (month - 1), at_index monthlyData (month - 1) with
  | Some monthCostData, Some monthUserData =>
      if seq (MonthlyData.activeUsers monthUserData) #0 then
        {| MonthMetrics.creditsPerUser := #0; MonthMetrics.costPerUser := #0 |}
      else
        let totalCredits := (AgentMonthlyCost.totalCost monthCostData / lit 0.01)%js in
        let creditsPerUser :=
          (totalCredits / MonthlyData.activeUsers monthUserData)%js in
        let costPerUser :=
          (AgentMonthlyCost.totalCost monthCostData
           / MonthlyData.activeUsers monthUserData)%js in
        {| MonthMetrics.creditsPerUser := Math_round creditsPerUser;
           MonthMetrics.costPerUser := (Math_round (costPerUser * #100) / #100)%js |}
  | _, _ => {| MonthMetrics.creditsPerUser := #0; MonthMetrics.costPerUser := #0 |}
  end.

Definition licensingImpact (agentMonthlyCosts : list AgentMonthlyCost.t)
    (monthlyData : list MonthlyData.t) : LicensingImpact.t :=
  let month12 := calculateMonthMetrics agentMonthlyCosts monthlyData 12 in
  let month24 := calculateMonthMetrics agentMonthlyCosts monthlyData 24 in
  let month36 := calculateMonthMetrics agentMonthlyCosts monthlyData 36 in
  let avgCreditsPerUserMonth := MonthMetrics.creditsPerUser month24 in
  let monthlyCostPerUser := MonthMetrics.costPerUser month24 in
  {| LicensingImpact.avgCreditsPerUserMonth := avgCreditsPerUserMonth;
     LicensingImpact.monthlyCostPerUser := monthlyCostPerUser;
     LicensingImpact.recommendM365 := gtb avgCreditsPerUserMonth BREAKEVEN_CREDITS;
     LicensingImpact.month12 := month12;
     LicensingImpact.month24 := month24;
     LicensingImpact.month36 := month36 |}.

(** The component: the memoised values chained as their dependencies say. *)
Definition projectLicensingImpact (stages : list Stage.t) (agents : list Agent.t)
    (config : Config.t) : option LicensingImpact.t :=
  monthlyData <- monthlyData stages config ;;
  agentMonthlyCosts <- agentMonthlyCosts stages agents monthlyData ;;
  Some (licensingImpact agentMonthlyCosts monthlyData).

End Usage.

(** ** The calculator form over [calculations.ts]

    The component that imports [calculateMonthlyData],
    [calculateScenarioComparison] and [validateNumber] from
    [utils/calculations]: its validated inputs and the scenario it
    highlights. *)

Module CalculatorForm.
Import Calculations.

Module Range.
Record t := {
  min : number;
  max : number
}.
End Range.

(** [VALIDATION.credits] and [VALIDATION.percentage] *)
Definition VALIDATION_credits : Range.t :=
  {| Range.min := #0; Range.max := #10000 |}.
Definition VALIDATION_percentage : Range.t :=
  {| Range.min := #0; Range.max := #100 |}.

Definition userScenarios : list number := [#1300; #5000; #30000]%js.
Definition agentScenarios : list number := [#10; #30; #100]%js.
Definition complexityScenarios : list string := ["80/20"; "70/30"; "50/50"].

(** The [onChange] handler of an advanced setting, on the text of the
    input: the value it hands to the setter.
    [const val = parseInt(e.target.value) || 0;
     set...(validateNumber(val, range.min, range.max))] *)
Definition onChange (range : Range.t) (value : string) : number :=
  let val := or_else (parseInt value) #0%js in
  validateNumber val (Range.min range) (Range.max range).

(** [scenarioData.find(s => s.users === userCount
       && s.agents === agentCount && s.ratio === complexityRatio)] *)
Definition currentScenario (scenarioData : list ScenarioData.t)
    (userCount agentCount : number) (complexityRatio : string)
    : option ScenarioData.t :=
  find (fun s => seq (ScenarioData.users s) userCount
                 && seq (ScenarioData.agents s) agentCount
                 && (ScenarioData.ratio s =? complexityRatio)%string)
       scenarioData.

End CalculatorForm.

(** ** The rollout component: state handlers and derived summaries

    The handlers that edit the [stages] and [agents] state and the two
    summaries derived from the projections.  Their text is the same in the
    usage-parameter and the agent-portfolio snapshot. *)

Module AgentSummary.
Record t := {
  agent : Agent.t;
  year1 : number;
  year2 : number;
  year3 : number;
  total : number
}.
End AgentSummary.

(** [Partial<Agent>]: every field may be absent. *)
Module PartialAgent.
Record t := {
  id : option Z;
  name : option string;
  purpose : option string;
  conversationsPerDay : option number;
  turns : option number;
  generativeRatio : option number;
  actions : option number;
  tenantGraph : option bool;
  deployMonth : option number;
  segments : option (list string);
  color : option string;
  enabled : option bool
}.
End PartialAgent.

Module Component.
Import Rollout.

Definition agentColors : list string :=
  ["#8b5cf6"; "#3b82f6"; "#f59e0b"; "#22c55e"; "#ef4444"; "#ec4899"; "#06b6d4";
   "#84cc16"].

(** The [field] argument of [updateStage]: ['users' | 'dau']. *)
Inductive StageField : Type := users | dau.

(** [xs[i] = x] on a copy of the array, for an index inside it. *)
Fixpoint set_at {A : Type} (xs : list A) (i : nat) (x : A) : list A :=
  match xs, i with
  | [], _ => []
  | _ :: rest, O => x :: rest
  | y :: rest, S i' => y :: set_at rest i' x
  end.

(** [updateStage]: the array handed to [setStages].  With a negative index
    [newStages[index] = ...] sets a property of the array object and leaves
    its elements as they are.  With an index at or beyond the end it stores
    an object that holds the assigned field alone, after holes: the result
    is not an array of stages any more, which is [None]. *)
Definition updateStage (stages : list Stage.t) (index : Z) (field : StageField)
    (value : number) : option (list Stage.t) :=
  if index <? 0 then Some stages else
  stage <- at_index stages index ;;
  let newStage :=
    match field with
    | dau =>
        {| Stage.name := Stage.name stage; Stage.users := Stage.users stage;
           Stage.month := Stage.month stage; Stage.dau := (value / #100)%js;
           Stage.phase := Stage.phase stage |}
    | users =>
        {| Stage.name := Stage.name stage; Stage.users := value;
           Stage.month := Stage.month stage; Stage.dau := Stage.dau stage;
           Stage.phase := Stage.phase stage |}
    end in
  Some (set_at stages (Z.to_nat index) newStage).

(** [Math.max(...agents.map(a => a.id), 0) + 1]: the sum is the binary64
    sum, which is rounded once the largest id has reached 2^53. *)
Definition nextId (agents : list Agent.t) : Z :=
  to_Z (#(fold_right Z.max 0 (map Agent.id agents)) + #1)%js.

(** [agentColors[agents.length % agentColors.length]]; the index is always
    inside the palette. *)
Definition nextColor (agents : list Agent.t) : string :=
  nth (length agents mod length agentColors)%nat agentColors "".

(** [{ ...newAgent, id, color } as Agent].  The cast adds no field: a
    missing [enabled] reads as [false] wherever the field is read
    ([!agent.enabled], [agents.filter(a => a.enabled)], the checkbox); an
    object that lacks one of the other fields is not an [Agent], which is
    [None]. *)
Definition newAgentObject (newAgent : PartialAgent.t) (id : Z) (color : string)
    : option Agent.t :=
  name <- PartialAgent.name newAgent ;;
  purpose <- PartialAgent.purpose newAgent ;;
  conversationsPerDay <- PartialAgent.conversationsPerDay newAgent ;;
  turns <- PartialAgent.turns newAgent ;;
  generativeRatio <- PartialAgent.generativeRatio newAgent ;;
  actions <- PartialAgent.actions newAgent ;;
  tenantGraph <- PartialAgent.tenantGraph newAgent ;;
  deployMonth <- PartialAgent.deployMonth newAgent ;;
  segments <- PartialAgent.segments newAgent ;;
  Some {| Agent.id := id;
          Agent.name := name;
          Agent.purpose := purpose;
          Agent.conversationsPerDay := conversationsPerDay;
          Agent.turns := turns;
          Agent.generativeRatio := generativeRatio;
          Agent.actions := actions;
          Agent.tenantGraph := tenantGraph;
          Agent.deployMonth := deployMonth;
          Agent.segments := segments;
          Agent.color := color;
          Agent.enabled :=
            match PartialAgent.enabled newAgent with
            | Some enabled => enabled
            | None => false
            end |}.

(** [addAgent]: the array handed to [setAgents]. *)
Definition addAgent (newAgent : PartialAgent.t) (agents : list Agent.t)
    : option (list Agent.t) :=
  let id := nextId agents in
  let color := nextColor agents in
  a <- newAgentObject newAgent id color ;;
  Some (agents ++ [a]).

(** The value of a field of [{ ...a, ...updatedAgent }]. *)
Definition spread {A : Type} (a : A) (updated : option A) : A :=
  match updated with
  | Some v => v
  | None => a
  end.

(** [{ ...a, ...updatedAgent }] *)
Definition merge (a : Agent.t) (updatedAgent : PartialAgent.t) : Agent.t :=
  {| Agent.id := spread (Agent.id a) (PartialAgent.id updatedAgent);
     Agent.name := spread (Agent.name a) (PartialAgent.name updatedAgent);
     Agent.purpose := spread (Agent.purpose a) (PartialAgent.purpose updatedAgent);
     Agent.conversationsPerDay :=
       spread (Agent.conversationsPerDay a)
         (PartialAgent.conversationsPerDay updatedAgent);
     Agent.turns := spread (Agent.turns a) (PartialAgent.turns updatedAgent);
     Agent.generativeRatio :=
       spread (Agent.generativeRatio a) (PartialAgent.generativeRatio updatedAgent);
     Agent.actions := spread (Agent.actions a) (PartialAgent.actions updatedAgent);
     Agent.tenantGraph :=
       spread (Agent.tenantGraph a) (PartialAgent.tenantGraph updatedAgent);
     Agent.deployMonth :=
       spread (Agent.deployMonth a) (PartialAgent.deployMonth updatedAgent);
     Agent.segments := spread (Agent.segments a) (PartialAgent.segments updatedAgent);
     Agent.color := spread (Agent.color a) (PartialAgent.color updatedAgent);
     Agent.enabled := spread (Agent.enabled a) (PartialAgent.enabled updatedAgent) |}.

Definition updateAgent (id : Z) (updatedAgent : PartialAgent.t)
    (agents : list Agent.t) : list Agent.t :=
  map (fun a => if Agent.id a =? id then merge a updatedAgent else a) agents.

Definition deleteAgent (id : Z) (agents : list Agent.t) : list Agent.t :=
  filter (fun a => negb (Agent.id a =? id)) agents.

Definition toggleAgent (id : Z) (agents : list Agent.t) : list Agent.t :=
  map (fun a =>
         if Agent.id a =? id
         then {| Agent.id := Agent.id a; Agent.name := Agent.name a;
                 Agent.purpose := Agent.purpose a;
                 Agent.conversationsPerDay := Agent.conversationsPerDay a;
                 Agent.turns := Agent.turns a;
                 Agent.generativeRatio := Agent.generativeRatio a;
                 Agent.actions := Agent.actions a;
                 Agent.tenantGraph := Agent.tenantGraph a;
                 Agent.deployMonth := Agent.deployMonth a;
                 Agent.segments := Agent.segments a;
                 Agent.color := Agent.color a;
                 Agent.enabled := negb (Agent.enabled a) |}
         else a)
      agents.

(** [pricingSummary.reduce((min, curr) => curr.total < min.total ? curr : min)];
    [reduce] without an initial value throws on an empty array. *)
Definition cheapestModel (pricingSummary : list PricingSummary.t)
    : option PricingSummary.t :=
  match pricingSummary with
  | [] => None
  | first :: rest =>
      Some (fold_left
              (fun min curr =>
                 if ltb (PricingSummary.total curr) (PricingSummary.total min)
                 then curr else min)
              rest first)
  end.

(** The callback of [agentMonthlyCosts.forEach] in [agent3YearSummary];
    the state is the variables [year1], [year2] and [year3]. *)
Definition yearlyStep (agent : Agent.t) (acc : number * number * number)
    (monthCost : AgentMonthlyCost.t) : number * number * number :=
  let '(year1, year2, year3) := acc in
  let month := AgentMonthlyCost.month monthCost in
  match find (fun ac => AgentCost.agentId ac =? Agent.id agent)
             (AgentMonthlyCost.agentCosts monthCost) with
  | None => acc
  | Some agentCost =>
      if month <=? 12 then ((year1 + AgentCost.cost agentCost)%js, year2, year3)
      else if month <=? 24 then (year1, (year2 + AgentCost.cost agentCost)%js, year3)
      else (year1, year2, (year3 + AgentCost.cost agentCost)%js)
  end.

Definition agent3YearSummary (agents : list Agent.t)
    (agentMonthlyCosts : list AgentMonthlyCost.t) : list AgentSummary.t :=
  map (fun agent =>
         let '(year1, year2, year3) :=
           fold_left (yearlyStep agent) agentMonthlyCosts (#0, #0, #0)%js in
         {| AgentSummary.agent := agent;
            AgentSummary.year1 := year1;
            AgentSummary.year2 := year2;
            AgentSummary.year3 := year3;
            AgentSummary.total := (year1 + year2 + year3)%js |})
      (filter Agent.enabled agents).

End Component.

(** ** The agent form *)

Module AgentForm.

(** The initial [formData]: the agent being edited, or the defaults of a
    new agent, which have no [id], [color] or [enabled]. *)
Definition initialFormData (agent : option Agent.t) : PartialAgent.t :=
  match agent with
  | Some agent =>
      {| PartialAgent.id := Some (Agent.id agent);
         PartialAgent.name := Some (Agent.name agent);
         PartialAgent.purpose := Some (Agent.purpose agent);
         PartialAgent.conversationsPerDay := Some (Agent.conversationsPerDay agent);
         PartialAgent.turns := Some (Agent.turns agent);
         PartialAgent.generativeRatio := Some (Agent.generativeRatio agent);
         PartialAgent.actions := Some (Agent.actions agent);
         PartialAgent.tenantGraph := Some (Agent.tenantGraph agent);
         PartialAgent.deployMonth := Some (Agent.deployMonth agent);
         PartialAgent.segments := Some (Agent.segments agent);
         PartialAgent.color := Some (Agent.color agent);
         PartialAgent.enabled := Some (Agent.enabled agent) |}
  | None =>
      {| PartialAgent.id := None;
         PartialAgent.name := Some "";
         PartialAgent.purpose := Some "";
         PartialAgent.conversationsPerDay := Some (lit 1.0);
         PartialAgent.turns := Some #4%js;
         PartialAgent.generativeRatio := Some (lit 0.50);
         PartialAgent.actions := Some #1%js;
         PartialAgent.tenantGraph := Some false;
         PartialAgent.deployMonth := Some #1%js;
         PartialAgent.segments := Some ["HQ"];
         PartialAgent.color := None;
         PartialAgent.enabled := None |}
  end.

End AgentForm.

(** * Vocabulary of the properties *)

Module CalculationsSpec.
Import Calculations.

(** The adoption percentage that the Year 1 formula gives for a month. *)
Definition year1Adoption (params : CalculationParams.t) (m : Z) : number :=
  Math_min (CalculationParams.adoptionCeiling params)
    (#10 + #(m - 1) * CalculationParams.year1GrowthRate params)%js.

(** The unrounded credits per user and month of a complexity ratio. *)
Definition creditsPerUser (simpleCreditsPerUser complexCreditsPerUser : number)
    (ratio : string) : number :=
  (simpleCreditsPerUser * fst (parsePercents ratio)
   + complexCreditsPerUser * snd (parsePercents ratio))%js.

(** Every field of a scenario record except the agent-count label. *)
Definition costFields (r : ScenarioData.t) :=
  (ScenarioData.users r, ScenarioData.ratio r, ScenarioData.activeUsers r,
   ScenarioData.creditsPerUserMonth r, ScenarioData.monthlyPayg r,
   ScenarioData.yearlyPayg r, ScenarioData.yearlyM365 r,
   ScenarioData.savings r, ScenarioData.savingsPercent r).

(** The scenario matrix as a cross product, outer to inner: user counts,
    agent-count labels, complexity ratios. *)
Definition scenarioMatrix (userScenarios agentScenarios : list number)
    (complexityScenarios : list string)
    (simpleCreditsPerUser complexCreditsPerUser steadyStateAdoption : number)
    : list ScenarioData.t :=
  flat_map (fun users =>
    flat_map (fun agents =>
      map (fun ratio =>
             scenario users agents ratio
               simpleCreditsPerUser complexCreditsPerUser steadyStateAdoption)
          complexityScenarios)
      agentScenarios)
    userScenarios.

End CalculationsSpec.

Module RolloutSpec.

(** The anchor months of a stage list are strictly increasing. *)
Fixpoint increasing (stages : list Stage.t) : bool :=
  match stages with
  | a :: (b :: _) as rest => (Stage.month a <? Stage.month b) && increasing rest
  | _ => true
  end.

(** [b] is the stage with the largest anchor month not after [M]. *)
Definition latestBefore (stages : list Stage.t) (M : Z) (b : Stage.t) : Prop :=
  In b stages /\ Stage.month b <= M /\
  forall s, In s stages -> Stage.month s <= M -> Stage.month s <= Stage.month b.

(** [a] is the stage with the smallest anchor month after [M]. *)
Definition earliestAfter (stages : list Stage.t) (M : Z) (a : Stage.t) : Prop :=
  In a stages /\ M < Stage.month a /\
  forall s, In s stages -> M < Stage.month s -> Stage.month a <= Stage.month s.

(** The value the rollout projector interpolates for month [M]. *)
Definition interpolated (stages : list Stage.t) (M : Z)
    (getValue : Stage.t -> number) : option number :=
  Rollout.interpolateValue M (Rollout.stagesBefore stages M)
    (Rollout.stagesAfter stages M) getValue.

End RolloutSpec.

Module PortfolioSpec.
Import Rollout.

(** The usage figures of an agent are finite numbers. *)
Definition finiteAgent (agent : Agent.t) : bool :=
  is_finite (Agent.conversationsPerDay agent)
  && is_finite (Agent.actions agent)
  && is_finite (Rollout.calculateAgentCredits agent).

(** The five monthly cost fields of a record are all zero. *)
Definition zeroCosts (r : MonthlyData.t) : bool :=
  is_zero (MonthlyData.paygCost r)
  && is_zero (MonthlyData.p3Cost r)
  && is_zero (MonthlyData.paygM365Cost r)
  && is_zero (MonthlyData.p3M365Cost r)
  && is_zero (MonthlyData.m365AllCost r).

(** The Pilot stage after its user count has been set to 0 in the stage
    editor. *)
Definition emptyPilot : Stage.t :=
  {| Stage.name := "Pilot (HQ)"; Stage.users := #0; Stage.month := 1;
     Stage.dau := lit 0.45; Stage.phase := "Pilot" |}.

(** The default configuration after the price field has been cleared: its
    handler stores [parseInt(e.target.value)], which is NaN. *)
Definition clearedPrice : Portfolio.Config.t :=
  {| Portfolio.Config.m365CopilotPrice := parseInt "";
     Portfolio.Config.autonomousActionRatio := lit 0.15;
     Portfolio.Config.hybridM365Users := #200 |}.

(** The default configuration after "-5" has been typed into the hybrid
    seat field: its handler stores [parseInt(e.target.value) || 0]. *)
Definition negativeSeats : Portfolio.Config.t :=
  {| Portfolio.Config.m365CopilotPrice := #30;
     Portfolio.Config.autonomousActionRatio := lit 0.15;
     Portfolio.Config.hybridM365Users := or_else (parseInt "-5") #0 |}.

(** How often a segment occurs in the segment lists of a set of agents. *)
Definition occurrences (seg : string) (agents : list Agent.t) : Z :=
  Z.of_nat (count_occ string_dec (flat_map Agent.segments agents) seg).

(** The count recorded for a segment in a [segmentCounts] map, 0 when the
    key is absent. *)
Definition countOf (seg : string) (counts : list (string * Z)) : Z :=
  match find (fun e => (fst e =? seg)%string) counts with
  | Some e => snd e
  | None => 0
  end.







End PortfolioSpec.

Module UsageSpec.

(** A generative, action-heavy agent open to all users, within the ranges
    of the agent form. *)
Definition researchAssistant : Agent.t :=
  {| Agent.id := 1; Agent.name := "Research Assistant";
     Agent.purpose := "Grounded research";
     Agent.conversationsPerDay := lit 1.6; Agent.turns := #10;
     Agent.generativeRatio := #1; Agent.actions := #5;
     Agent.tenantGraph := true; Agent.deployMonth := #1;
     Agent.segments := ["All"]; Agent.color := "#8b5cf6";
     Agent.enabled := true |}.

(** The default configuration with the M365 Copilot price slider moved to
    its minimum, 25. *)
Definition negotiatedConfig : Usage.Config.t :=
  {| Usage.Config.conversationsPerDay := #4;
     Usage.Config.turnsPerConversation := #5;
     Usage.Config.generativeRatio := lit 0.70;
     Usage.Config.actionsPerConversation := lit 1.5;
     Usage.Config.peakMultiplier := lit 1.4;
     Usage.Config.m365CopilotPrice := #25;
     Usage.Config.autonomousActionRatio := lit 0.15;
     Usage.Config.hybridM365Users := #200 |}.

End UsageSpec.

(** ** Vocabulary of the further properties *)

Module NumberSpec.

(** The position of a number other than NaN in the order of [<]: its class
    (negative infinity, negative, zero, positive, positive infinity), then
    its exponent and its mantissa, both counted downwards for a negative
    number. *)
Definition rank (x : number) : Z * Z * Z :=
  match x with
  | S754_infinity true => (-2, 0, 0)
  | S754_finite true m e => (-1, - e, - Zpos m)
  | S754_zero _ | S754_nan => (0, 0, 0)
  | S754_finite false m e => (1, e, Zpos m)
  | S754_infinity false => (2, 0, 0)
  end.

Definition below (a b : Z * Z * Z) : Prop :=
  let '(a1, a2, a3) := a in
  let '(b1, b2, b3) := b in
  a1 < b1 \/ (a1 = b1 /\ (a2 < b2 \/ (a2 = b2 /\ a3 < b3))).

End NumberSpec.

Module ComponentSpec.

(** [Number.MAX_SAFE_INTEGER], 2^53 - 1: up to it the integers are numbers
    and adding 1 is exact. *)
Definition MAX_SAFE_INTEGER : Z := 2 ^ 53 - 1.

(** The ids of a portfolio are safe integers. *)
Definition safeIds (agents : list Agent.t) : Prop :=
  forall a, In a agents -> Agent.id a <= MAX_SAFE_INTEGER.

End ComponentSpec.

Module CalculatorSpec.
Import Calculations.

(** [s] holds the character [c]. *)
Fixpoint has_char (c : ascii) (s : string) : bool :=
  match s with
  | EmptyString => false
  | String c' rest => Ascii.eqb c' c || has_char c rest
  end.

(** The months a loop of [n] iterations visits from [month] on. *)
Fixpoint months (n : nat) (month : Z) : list Z :=
  match n with
  | O => []
  | S n' => month :: months n' (month + 1)
  end.

(** The record of a month of the 24-month projection, given the adoption
    in force in that month. *)
Definition recordAt (params : CalculationParams.t) (month : Z) (adoption : number)
    : MonthlyData.t :=
  let creditsPerUserMonth :=
    CalculationsSpec.creditsPerUser
      (CalculationParams.simpleCreditsPerUser params)
      (CalculationParams.complexCreditsPerUser params)
      (CalculationParams.complexityRatio params) in
  let activeUsers :=
    Math_round (CalculationParams.userCount params * (adoption / #100))%js in
  let totalCredits := (activeUsers * creditsPerUserMonth)%js in
  let m365Cost := (CalculationParams.userCount params * M365_COPILOT_COST)%js in
  {| MonthlyData.month := month;
     MonthlyData.year := if month <=? 12 then "Year 1" else "Year 2";
     MonthlyData.adoption := adoption;
     MonthlyData.activeUsers := activeUsers;
     MonthlyData.totalCredits := totalCredits;
     MonthlyData.paygCost := Math_round (totalCredits * PAYG_RATE)%js;
     MonthlyData.packCost := (Math_ceil (totalCredits / PACK_CREDITS) * PACK_COST)%js;
     MonthlyData.m365Cost := m365Cost;
     MonthlyData.savings := Math_round (m365Cost - totalCredits * PAYG_RATE)%js |}.

End CalculatorSpec.

Module ProjectionSpec.
Import CalculatorSpec.

(** The records of a projection that carry a given year label. *)
Definition ofYear (label : string) (data : list MonthlyData.t) : list MonthlyData.t :=
  filter (fun r => (MonthlyData.year r =? label)%string) data.

(** An agent counts in a month: it is enabled and the month is not before
    its deployment month. *)
Definition deployed (month : Z) (agent : Agent.t) : bool :=
  Agent.enabled agent && negb (ltb #month (Agent.deployMonth agent)).

(** The three yearly sums of a monthly figure. *)
Definition byYear (data : list MonthlyData.t) (key : MonthlyData.t -> number)
    : number * number * number :=
  (Rollout.sum (ofYear "Year 1" data) key, Rollout.sum (ofYear "Year 2" data) key,
   Rollout.sum (ofYear "Year 3" data) key).

(** What the breakdown says of a month. *)
Definition listsDeployed (agents : list Agent.t) (c : AgentMonthlyCost.t) : Prop :=
  1 <= AgentMonthlyCost.month c <= 36 /\
  map AgentCost.agentId (AgentMonthlyCost.agentCosts c)
  = map Agent.id (filter (deployed (AgentMonthlyCost.month c)) agents).

(** The months of the projection are ordered as numbers the way they are
    as integers, and the difference of two of them is a number other than
    zero and NaN. *)
Definition ordered_months : bool :=
  forallb (fun a =>
    forallb (fun b =>
      is_finite #a
      && (if a <? b then ltb #a #b && truthy (#b - #a)%js else true)
      && (if a <=? b then leb #a #b else true))
      (months 36 1))
    (months 36 1).

(** A translation agent that is rolled out in the second year. *)
Definition secondYearTranslation : Agent.t :=
  {| Agent.id := 4; Agent.name := "Document Translation";
     Agent.purpose := "Translate PPT, Word, Excel documents";
     Agent.conversationsPerDay := lit 0.75; Agent.turns := #4;
     Agent.generativeRatio := lit 0.95; Agent.actions := lit 2.5;
     Agent.tenantGraph := false; Agent.deployMonth := #13;
     Agent.segments := ["HQ"; "Management"]; Agent.color := "#22c55e";
     Agent.enabled := true |}.

End ProjectionSpec.

(** * Properties *)

(** ** The number model on known values *)

(** The operations agree with the machine's binary64 arithmetic. *)
Lemma number_model_arithmetic :
  (lit 0.1 + lit 0.2)%js = lit 0.30000000000000004 /\
  (lit 0.1 + lit 0.2)%js = Prim2SF (0.1 + 0.2)%float /\
  (#18000 * lit 337.5)%js = Prim2SF (18000 * 337.5)%float /\
  (#1 / #3)%js = Prim2SF (1 / 3)%float /\
  (#1 - lit 0.15)%js = Prim2SF (1 - 0.15)%float /\
  (#1 / #0)%js = S754_infinity false /\
  (#0 / #0)%js = NaN /\
  #3000%js = lit 3000.
Proof. vm_compute. repeat split; reflexivity. Qed.

(** [Math.round] rounds halves up, [Math.ceil] rounds up, and both keep
    the sign of a zero result. *)
Lemma number_model_rounding :
  Math_round (lit 337.5) = #338%js /\
  Math_round (lit 2.5) = #3%js /\
  Math_round (lit (-2.5)) = #(-2)%js /\
  Math_round (lit 0.49999999999999994) = pzero /\
  Math_round (lit (-0.5)) = nzero /\
  Math_round (lit 232.5) = #233%js /\
  Math_round NaN = NaN /\
  Math_ceil (lit 0.3) = #1%js /\
  Math_ceil (lit (-0.3)) = nzero /\
  Math_ceil (lit 0.936) = #1%js /\
  Math_min #80 #25 = #25%js /\
  Math_min #80 NaN = NaN /\
  Math_min pzero nzero = nzero.
Proof. vm_compute. repeat split; reflexivity. Qed.

Lemma number_model_parseInt :
  split "/" "80/20" = ["80"; "20"] /\
  parseInt "80" = #80%js /\
  parseInt " 42px" = #42%js /\
  parseInt "-7" = #(-7)%js /\
  parseInt "0x1F" = #31%js /\
  parseInt "" = NaN /\
  Calculations.parsePercents "50/50" = (lit 0.5, lit 0.5) /\
  Calculations.parsePercents "80" = (lit 0.8, NaN).
Proof. vm_compute. repeat split; reflexivity. Qed.

(** ** Loops *)

(** A loop that pushes one record per month and stops at the first thrown
    error collects the records of a function of the month. *)
Fixpoint collect {A : Type} (f : Z -> option A) (n : nat) (month : Z)
    : option (list A) :=
  match n with
  | O => Some []
  | S n' =>
      r <- f month ;;
      rs <- collect f n' (month + 1) ;;
      Some (r :: rs)
  end.

Lemma for_loop_collect {A : Type} (f : Z -> option A) n month data :
  for_loop n month
    (fun month acc => data <- acc ;; r <- f month ;; Some (data ++ [r]))
    (Some data)
  = (rs <- collect f n month ;; Some (data ++ rs)).
Proof.
  revert month data. induction n as [|n IH]; intros month data; simpl.
  - now rewrite app_nil_r.
  - destruct (f month) as [r|].
    + rewrite IH. destruct (collect f n (month + 1)) as [rs|]; [|reflexivity].
      now rewrite <- app_assoc.
    + clear IH. revert month. induction n as [|n IH]; intros month; simpl; auto.
Qed.

Lemma collect_nth {A : Type} (f : Z -> option A) n month rs :
  collect f n month = Some rs ->
  length rs = n /\
  forall i : nat, (i < n)%nat -> nth_error rs i = f (month + Z.of_nat i).
Proof.
  revert month rs. induction n as [|n IH]; intros month rs; simpl.
  - intros [= <-]. split; [reflexivity | intros i Hi; lia].
  - destruct (f month) as [r|] eqn:Hr; [|discriminate].
    destruct (collect f n (month + 1)) as [rs'|] eqn:Hrs; [|discriminate].
    intros [= <-]. destruct (IH _ _ Hrs) as [Hlen Hnth]. split.
    + simpl. now rewrite Hlen.
    + intros [|i] Hi; simpl.
      * now rewrite Z.add_0_r.
      * rewrite Hnth by lia. f_equal. lia.
Qed.

Lemma collect_total {A : Type} (f : Z -> option A) n month :
  (forall i : nat, (i < n)%nat -> f (month + Z.of_nat i) <> None) ->
  exists rs, collect f n month = Some rs.
Proof.
  revert month. induction n as [|n IH]; intros month Hf; simpl.
  - now exists [].
  - destruct (f month) as [r|] eqn:Hr.
    + destruct (IH (month + 1)) as [rs Hrs].
      * intros i Hi.
        replace (month + 1 + Z.of_nat i) with (month + Z.of_nat (S i)) by lia.
        apply Hf. lia.
      * rewrite Hrs. now exists (r :: rs).
    + exfalso. apply (Hf O); [lia|]. now rewrite Z.add_0_r.
Qed.


(** The records of a 1-based monthly series, by month. *)
Lemma at_index_month {A : Type} (f : Z -> option A) n rs month :
  collect f n 1 = Some rs -> 1 <= month <= Z.of_nat n ->
  at_index rs (month - 1) = f month.
Proof.
  intros Hrs Hm. destruct (collect_nth _ _ _ _ Hrs) as [_ Hnth].
  unfold at_index. destruct (month - 1 <? 0) eqn:E; [lia|].
  rewrite Hnth by lia. f_equal. lia.
Qed.

(** ** Arithmetic on zeros and NaN *)

Section NumberFacts.

Lemma mul_zero_finite x y :
  is_zero x = true -> is_finite y = true -> is_zero (x * y)%js = true.
Proof. destruct x, y; simpl; congruence. Qed.

Lemma mul_zero_or_nan x y :
  zero_or_nan x = true -> zero_or_nan (x * y)%js = true.
Proof. destruct x, y; simpl; congruence. Qed.

Lemma add_zero x y :
  is_zero x = true -> is_zero y = true -> is_zero (x + y)%js = true.
Proof. destruct x as [[]| | |], y as [[]| | |]; simpl; congruence. Qed.

Lemma sub_zero x y :
  is_zero x = true -> is_zero y = true -> is_zero (x - y)%js = true.
Proof. destruct x as [[]| | |], y as [[]| | |]; simpl; congruence. Qed.

Lemma sub_zero_or_nan x y :
  is_zero x = true -> zero_or_nan y = true -> zero_or_nan (x - y)%js = true.
Proof. destruct x as [[]| | |], y as [[]| | |]; simpl; congruence. Qed.

Lemma div_by_zero_nan x y :
  zero_or_nan x = true -> is_zero y = true -> (x / y)%js = NaN.
Proof. destruct x, y; simpl; intros; try discriminate; reflexivity. Qed.

Lemma mul_nan_l y : (NaN * y)%js = NaN.
Proof. reflexivity. Qed.

Lemma Math_round_zero x : is_zero x = true -> is_zero (Math_round x) = true.
Proof. destruct x; simpl; congruence. Qed.

Lemma Math_round_zero_or_nan x :
  zero_or_nan x = true -> zero_or_nan (Math_round x) = true.
Proof. destruct x; simpl; congruence. Qed.

Lemma is_zero_finite x : is_zero x = true -> is_finite x = true.
Proof. destruct x; simpl; congruence. Qed.

Lemma is_zero_zero_or_nan x : is_zero x = true -> zero_or_nan x = true.
Proof. destruct x; simpl; congruence. Qed.

(** *** Products that cannot vanish

    A product of two non-zero numbers is zero only when it underflows.
    The lemmas below follow the rounding of [SFmul] to show that the
    product of a non-zero binary64 number with a factor of magnitude at
    least 1 is not zero. *)

Lemma digits2_pos_bounds m :
  2 ^ (Zpos (digits2_pos m) - 1) <= Zpos m < 2 ^ Zpos (digits2_pos m).
Proof.
  induction m as [m IH|m IH|]; simpl digits2_pos.
  - rewrite Pos2Z.inj_succ.
    replace (Z.succ (Zpos (digits2_pos m)) - 1)
      with (Z.succ (Zpos (digits2_pos m) - 1)) by lia.
    rewrite !Z.pow_succ_r by lia. lia.
  - rewrite Pos2Z.inj_succ.
    replace (Z.succ (Zpos (digits2_pos m)) - 1)
      with (Z.succ (Zpos (digits2_pos m) - 1)) by lia.
    rewrite !Z.pow_succ_r by lia. lia.
  - simpl. lia.
Qed.

Lemma digits2_pos_mul mx my :
  Zpos (digits2_pos mx) + Zpos (digits2_pos my) - 1
  <= Zpos (digits2_pos (mx * my)).
Proof.
  pose proof (digits2_pos_bounds mx) as [Hx _].
  pose proof (digits2_pos_bounds my) as [Hy _].
  pose proof (digits2_pos_bounds (mx * my)) as [_ Hxy].
  assert (H : 2 ^ (Zpos (digits2_pos mx) - 1 + (Zpos (digits2_pos my) - 1))
              < 2 ^ Zpos (digits2_pos (mx * my))).
  { rewrite Z.pow_add_r by lia. rewrite Pos2Z.inj_mul in Hxy.
    eapply Z.le_lt_trans; [|exact Hxy].
    apply Z.mul_le_mono_nonneg; try lia; apply Z.pow_nonneg; lia. }
  apply Z.pow_lt_mono_r_iff in H; lia.
Qed.

Lemma Zdigits2_pos m : 0 < m -> 0 < Zdigits2 m.
Proof. destruct m; simpl; lia. Qed.

(** One shift halves the mantissa. *)
Lemma shr_1_m mrs : 0 <= shr_m mrs -> shr_m (shr_1 mrs) = shr_m mrs / 2.
Proof.
  destruct mrs as [m r s].
  destruct m as [|[p|p|]|p]; cbn [shr_1 shr_m orb]; intros H.
  - reflexivity.
  - apply Z.div_unique with (r := 1); lia.
  - apply Z.div_unique with (r := 0); lia.
  - reflexivity.
  - lia.
Qed.

Lemma shr_1_m_nonneg mrs : 0 <= shr_m mrs -> 0 <= shr_m (shr_1 mrs).
Proof. intros H. rewrite shr_1_m by exact H. apply Z.div_pos; lia. Qed.

Lemma iter_pos_shr_m p mrs :
  0 <= shr_m mrs -> shr_m (iter_pos shr_1 p mrs) = shr_m mrs / 2 ^ Zpos p.
Proof.
  assert (Hpow : forall q, 0 < 2 ^ Zpos q)
    by (intros q; apply Z.pow_pos_nonneg; lia).
  revert mrs. induction p as [p IH|p IH|]; intros mrs H; simpl iter_pos.
  - pose proof (shr_1_m_nonneg mrs H) as H1.
    assert (H2 : 0 <= shr_m (iter_pos shr_1 p (shr_1 mrs)))
      by (rewrite IH by lia; apply Z.div_pos; auto).
    rewrite IH, IH, shr_1_m by lia.
    rewrite !Z.div_div by (pose proof (Hpow p); try apply Hpow; lia).
    f_equal. replace (Zpos p~1) with (1 + Zpos p + Zpos p) by lia.
    rewrite !Z.pow_add_r by lia. lia.
  - assert (H2 : 0 <= shr_m (iter_pos shr_1 p mrs))
      by (rewrite IH by lia; apply Z.div_pos; auto).
    rewrite IH, IH by lia.
    rewrite !Z.div_div by (pose proof (Hpow p); try apply Hpow; lia).
    f_equal. replace (Zpos p~0) with (Zpos p + Zpos p) by lia.
    rewrite !Z.pow_add_r by lia. lia.
  - rewrite shr_1_m by lia. reflexivity.
Qed.

Lemma fexp_ge_emin x : emin <= fexp prec emax x.
Proof. unfold fexp. lia. Qed.

Lemma round_nearest_even_ge m l : m <= round_nearest_even m l.
Proof. destruct l as [|[]]; simpl; try lia. destruct (Z.even m); lia. Qed.

Lemma shr_record_of_loc_m m l : shr_m (shr_record_of_loc m l) = m.
Proof. destruct l as [|[]]; reflexivity. Qed.

(** Shifting a positive mantissa that has digits to spare keeps it
    positive, and the exponent it ends on is within the format. *)
Lemma shr_fexp_pos m e l :
  0 < m -> emin < Zdigits2 m + e ->
  0 < shr_m (fst (shr_fexp prec emax m e l)) /\
  emin <= snd (shr_fexp prec emax m e l).
Proof.
  intros Hm Hd. unfold shr_fexp, shr.
  destruct m as [|m|m]; try lia. simpl Zdigits2 in *.
  pose proof (digits2_pos_bounds m) as [Hlo Hhi].
  pose proof (fexp_ge_emin (Zpos (digits2_pos m) + e)) as Hfe.
  destruct (fexp prec emax (Zpos (digits2_pos m) + e) - e) as [|n|n] eqn:Hn;
    simpl fst; simpl snd.
  - rewrite shr_record_of_loc_m. lia.
  - split; [|lia].
    rewrite iter_pos_shr_m by (rewrite shr_record_of_loc_m; lia).
    rewrite shr_record_of_loc_m.
    assert (Hn' : Zpos n <= Zpos (digits2_pos m) - 1)
      by (unfold fexp, SpecFloat.emin, prec, emax in *; lia).
    apply Z.div_str_pos. split; [apply Z.pow_pos_nonneg; lia|].
    eapply Z.le_trans; [|exact Hlo]. apply Z.pow_le_mono_r; lia.
  - rewrite shr_record_of_loc_m. lia.
Qed.

(** Rounding a positive mantissa that has digits to spare never gives
    zero. *)
Lemma binary_round_aux_nonzero sx m e l :
  0 < m -> emin < Zdigits2 m + e ->
  match binary_round_aux prec emax sx m e l with
  | S754_zero _ | S754_nan => False
  | S754_infinity _ => True
  | S754_finite _ _ e' => emin <= e'
  end.
Proof.
  intros Hm Hd. unfold binary_round_aux.
  destruct (shr_fexp_pos m e l Hm Hd) as (H1 & H2).
  destruct (shr_fexp prec emax m e l) as [mrs' e'].
  simpl fst in *. simpl snd in *.
  pose proof (round_nearest_even_ge (shr_m mrs') (loc_of_shr_record mrs')) as Hr.
  set (m2 := round_nearest_even (shr_m mrs') (loc_of_shr_record mrs')) in *.
  assert (Hm2 : 0 < m2) by lia.
  pose proof (Zdigits2_pos m2 Hm2) as Hd2.
  destruct (shr_fexp_pos m2 e' loc_Exact Hm2 ltac:(lia)) as (H3 & H4).
  destruct (shr_fexp prec emax m2 e' loc_Exact) as [mrs'' e''].
  simpl fst in *. simpl snd in *.
  destruct (shr_m mrs'') as [|m''|m'']; try lia.
  destruct (e'' <=? emax - prec); [exact H4 | exact I].
Qed.

Lemma valid_exponent_bounded x : valid x = true -> exponent_bounded x = true.
Proof.
  unfold valid. destruct x as [| | |s m e]; try reflexivity. simpl.
  unfold bounded, canonical_mantissa.
  intros H. apply andb_prop in H. destruct H as [H _]. apply Z.eqb_eq in H.
  apply Z.leb_le. rewrite <- H. apply fexp_ge_emin.
Qed.

Lemma mul_nonzero x c :
  is_zero x = false -> exponent_bounded x = true ->
  is_zero c = false -> at_least_one c = true -> exponent_bounded c = true ->
  is_zero (x * c)%js = false /\ exponent_bounded (x * c)%js = true.
Proof.
  destruct x as [sx|sx| |sx mx ex], c as [sc|sc| |sc mc ec];
    unfold mul; cbn [SFmul is_zero exponent_bounded at_least_one];
    try discriminate; auto.
  intros _ Hx _ Hc _. apply Z.leb_le in Hx, Hc.
  pose proof (binary_round_aux_nonzero (xorb sx sc) (Zpos (mx * mc)) (ex + ec)
                loc_Exact ltac:(lia)) as H.
  pose proof (digits2_pos_mul mx mc) as Hd.
  pose proof (digits2_pos_bounds mx) as [Hlo Hhi].
  assert (Hdx : 1 <= Zpos (digits2_pos mx)) by lia.
  simpl Zdigits2 in H. change emin with (-1074) in *.
  specialize (H ltac:(lia)).
  destruct (binary_round_aux prec emax (xorb sx sc) (Zpos (mx * mc)) (ex + ec)
              loc_Exact);
    try contradiction; cbn [is_zero exponent_bounded]; auto.
  split; [reflexivity | now apply Z.leb_le].
Qed.

End NumberFacts.

(** ** The order of numbers *)

Section NumberOrder.
Import NumberSpec CalculatorSpec ProjectionSpec.

Lemma below_irrefl a : ~ below a a.
Proof. destruct a as [[a1 a2] a3]. unfold below. lia. Qed.

Lemma below_trans a b c : below a b -> below b c -> below a c.
Proof.
  destruct a as [[a1 a2] a3], b as [[b1 b2] b3], c as [[c1 c2] c3].
  unfold below. lia.
Qed.

Lemma below_cases a b : below a b \/ a = b \/ below b a.
Proof.
  destruct a as [[a1 a2] a3], b as [[b1 b2] b3]. unfold below.
  destruct (Z.lt_total a1 b1) as [H|[->|H]]; [lia| |lia].
  destruct (Z.lt_total a2 b2) as [H|[->|H]]; [lia| |lia].
  destruct (Z.lt_total a3 b3) as [H|[->|H]]; [lia| |lia].
  auto.
Qed.

Lemma below_antisym a b : ~ below a b -> ~ below b a -> a = b.
Proof. destruct (below_cases a b) as [H|[H|H]]; tauto. Qed.

Lemma not_below_trans a b c : ~ below b a -> ~ below c b -> ~ below c a.
Proof.
  intros H1 H2 H3. destruct (below_cases a b) as [H|[H|H]]; [|subst; auto|auto].
  apply H2. eapply below_trans; eauto.
Qed.

Lemma compare_cont_Eq m1 m2 : Pos.compare_cont Eq m1 m2 = (Zpos m1 ?= Zpos m2).
Proof. reflexivity. Qed.

Lemma SFcompare_rank x y :
  isNaN x = false -> isNaN y = false ->
  exists c, SFcompare x y = Some c /\
    (c = Lt <-> below (rank x) (rank y)) /\
    (c = Gt <-> below (rank y) (rank x)) /\
    (c = Eq <-> rank x = rank y).
Proof.
  destruct x as [sx|[]| |[] mx ex], y as [sy|[]| |[] my ey];
    try discriminate; intros _ _; eexists; (split; [reflexivity|]);
    cbn [rank below];
    try (try destruct sx; try destruct sy;
         repeat split; intros H; try discriminate; try lia; try reflexivity;
         try (injection H; lia); fail).
  - rewrite compare_cont_Eq.
    destruct (Z.compare_spec ex ey) as [He|He|He];
      [destruct (Z.compare_spec (Zpos mx) (Zpos my)) as [Hm|Hm|Hm]|..];
      cbn [CompOpp]; repeat split; intros H; try discriminate; try lia;
      try reflexivity; try (injection H; lia); try (f_equal; lia).
    all: try (injection Hm as ->; subst; reflexivity).
  - rewrite compare_cont_Eq.
    destruct (Z.compare_spec ex ey) as [He|He|He];
      [destruct (Z.compare_spec (Zpos mx) (Zpos my)) as [Hm|Hm|Hm]|..];
      repeat split; intros H; try discriminate; try lia;
      try reflexivity; try (injection H; lia); try (f_equal; lia).
    all: try (injection Hm as ->; subst; reflexivity).
Qed.

Lemma ltb_below x y :
  ltb x y = true <-> isNaN x = false /\ isNaN y = false /\ below (rank x) (rank y).
Proof.
  unfold ltb, SFltb. split.
  - intros H.
    assert (Hx : isNaN x = false) by (destruct x; try reflexivity; discriminate).
    assert (Hy : isNaN y = false)
      by (destruct y; try reflexivity; destruct x; discriminate).
    destruct (SFcompare_rank x y Hx Hy) as (c & Hc & Hlt & _).
    rewrite Hc in H. destruct c; try discriminate. repeat split; auto. now apply Hlt.
  - intros (Hx & Hy & Hb).
    destruct (SFcompare_rank x y Hx Hy) as (c & Hc & Hlt & _).
    rewrite Hc. apply Hlt in Hb. now subst c.
Qed.

Lemma leb_below x y :
  leb x y = true <-> isNaN x = false /\ isNaN y = false /\ ~ below (rank y) (rank x).
Proof.
  unfold leb, SFleb. split.
  - intros H.
    assert (Hx : isNaN x = false) by (destruct x; try reflexivity; discriminate).
    assert (Hy : isNaN y = false)
      by (destruct y; try reflexivity; destruct x; discriminate).
    destruct (SFcompare_rank x y Hx Hy) as (c & Hc & _ & Hgt & _).
    rewrite Hc in H. repeat split; auto. intros Hb. apply Hgt in Hb. subst c.
    discriminate.
  - intros (Hx & Hy & Hb).
    destruct (SFcompare_rank x y Hx Hy) as (c & Hc & _ & Hgt & _).
    rewrite Hc. destruct c; try reflexivity. exfalso. apply Hb. now apply Hgt.
Qed.

Lemma seq_rank x y :
  seq x y = true <-> isNaN x = false /\ isNaN y = false /\ rank x = rank y.
Proof.
  unfold seq, SFeqb. split.
  - intros H.
    assert (Hx : isNaN x = false) by (destruct x; try reflexivity; discriminate).
    assert (Hy : isNaN y = false)
      by (destruct y; try reflexivity; destruct x; discriminate).
    destruct (SFcompare_rank x y Hx Hy) as (c & Hc & _ & _ & Heq).
    rewrite Hc in H. destruct c; try discriminate. repeat split; auto. now apply Heq.
  - intros (Hx & Hy & Hb).
    destruct (SFcompare_rank x y Hx Hy) as (c & Hc & _ & _ & Heq).
    rewrite Hc. apply Heq in Hb. now subst c.
Qed.

Lemma ltb_irrefl x : ltb x x = false.
Proof.
  destruct (ltb x x) eqn:E; [|reflexivity].
  apply ltb_below in E. destruct E as (_ & _ & E). now apply below_irrefl in E.
Qed.

Lemma ltb_trans x y z : ltb x y = true -> ltb y z = true -> ltb x z = true.
Proof.
  intros H1 H2. apply ltb_below in H1, H2. apply ltb_below.
  destruct H1 as (Hx & _ & H1), H2 as (_ & Hz & H2).
  repeat split; auto. eapply below_trans; eauto.
Qed.

(** [ltb] is false on [x] when it is false on a larger [y]. *)
Lemma ltb_false_below p m c :
  ltb p m = false -> ltb c m = true -> ltb p c = false.
Proof.
  intros Hpm Hcm. destruct (ltb p c) eqn:E; [|reflexivity].
  now rewrite (ltb_trans _ _ _ E Hcm) in Hpm.
Qed.

Lemma leb_ltb_trans x y z : leb x y = true -> ltb y z = true -> ltb x z = true.
Proof.
  intros H1 H2. apply leb_below in H1. apply ltb_below in H2. apply ltb_below.
  destruct H1 as (Hx & _ & H1), H2 as (_ & Hz & H2). repeat split; auto.
  destruct (below_cases (rank x) (rank y)) as [H|[H|H]]; [|congruence|contradiction].
  eapply below_trans; eauto.
Qed.

Lemma Math_max_rank a b :
  isNaN a = false -> isNaN b = false ->
  isNaN (Math_max a b) = false /\
  (rank (Math_max a b) = rank a \/ rank (Math_max a b) = rank b) /\
  ~ below (rank (Math_max a b)) (rank a) /\
  ~ below (rank (Math_max a b)) (rank b).
Proof.
  intros Ha Hb.
  assert (H : Math_max a b = (if ltb a b then b else a)
              \/ (is_zero a = true /\ is_zero b = true
                  /\ is_zero (Math_max a b) = true)).
  { destruct a, b; try discriminate; simpl; auto. }
  destruct H as [-> | (Hza & Hzb & Hz)].
  - destruct (ltb a b) eqn:Hlt.
    + apply ltb_below in Hlt. destruct Hlt as (_ & _ & Hlt).
      destruct (rank a) as [[a1 a2] a3], (rank b) as [[b1 b2] b3].
      unfold below in *. repeat split; auto; lia.
    + assert (Hn : ~ below (rank a) (rank b)).
      { intros Hlt'. rewrite (proj2 (ltb_below a b)) in Hlt; [discriminate|auto]. }
      destruct (rank a) as [[a1 a2] a3], (rank b) as [[b1 b2] b3].
      unfold below in *. repeat split; auto; lia.
  - destruct a, b, (Math_max _ _); try discriminate.
    simpl. repeat split; auto; lia.
Qed.

Lemma Math_min_rank a b :
  isNaN a = false -> isNaN b = false ->
  isNaN (Math_min a b) = false /\
  (rank (Math_min a b) = rank a \/ rank (Math_min a b) = rank b) /\
  ~ below (rank a) (rank (Math_min a b)) /\
  ~ below (rank b) (rank (Math_min a b)).
Proof.
  intros Ha Hb.
  assert (H : Math_min a b = (if ltb b a then b else a)
              \/ (is_zero a = true /\ is_zero b = true
                  /\ is_zero (Math_min a b) = true)).
  { destruct a, b; try discriminate; simpl; auto. }
  destruct H as [-> | (Hza & Hzb & Hz)].
  - destruct (ltb b a) eqn:Hlt.
    + apply ltb_below in Hlt. destruct Hlt as (_ & _ & Hlt).
      destruct (rank a) as [[a1 a2] a3], (rank b) as [[b1 b2] b3].
      unfold below in *. repeat split; auto; lia.
    + assert (Hn : ~ below (rank b) (rank a)).
      { intros Hlt'. rewrite (proj2 (ltb_below b a)) in Hlt; [discriminate|auto]. }
      destruct (rank a) as [[a1 a2] a3], (rank b) as [[b1 b2] b3].
      unfold below in *. repeat split; auto; lia.
  - destruct a, b, (Math_min _ _); try discriminate.
    simpl. repeat split; auto; lia.
Qed.

Lemma Math_min_leb_l a b :
  isNaN a = false -> isNaN b = false -> leb (Math_min a b) a = true.
Proof.
  intros Ha Hb. destruct (Math_min_rank a b Ha Hb) as (Hm & _ & H1 & _).
  apply leb_below. auto.
Qed.

(** *** Operations that cannot give NaN *)

Lemma shr_fexp_nonneg m e l :
  0 <= m -> 0 <= shr_m (fst (shr_fexp prec emax m e l)).
Proof.
  intros Hm. unfold shr_fexp, shr.
  destruct (fexp prec emax (Zdigits2 m + e) - e) as [|n|n]; simpl fst;
    try (rewrite shr_record_of_loc_m; exact Hm).
  rewrite iter_pos_shr_m by (rewrite shr_record_of_loc_m; exact Hm).
  rewrite shr_record_of_loc_m. apply Z.div_pos; [exact Hm|].
  apply Z.pow_pos_nonneg; lia.
Qed.

Lemma binary_round_aux_not_nan sx m e l :
  0 <= m -> isNaN (binary_round_aux prec emax sx m e l) = false.
Proof.
  intros Hm. unfold binary_round_aux.
  pose proof (shr_fexp_nonneg m e l Hm) as H1.
  destruct (shr_fexp prec emax m e l) as [mrs' e']. simpl fst in H1.
  pose proof (round_nearest_even_ge (shr_m mrs') (loc_of_shr_record mrs')) as Hr.
  set (m2 := round_nearest_even (shr_m mrs') (loc_of_shr_record mrs')) in *.
  pose proof (shr_fexp_nonneg m2 e' loc_Exact ltac:(lia)) as H2.
  destruct (shr_fexp prec emax m2 e' loc_Exact) as [mrs'' e'']. simpl fst in H2.
  destruct (shr_m mrs'') as [|m''|m'']; try lia; [reflexivity|].
  destruct (e'' <=? emax - prec); reflexivity.
Qed.

Lemma binary_normalize_not_nan m e szero :
  isNaN (binary_normalize prec emax m e szero) = false.
Proof.
  unfold binary_normalize. destruct m as [|p|p]; [reflexivity| |];
    unfold binary_round; destruct (shl_align p e _) as [mz ez];
    apply binary_round_aux_not_nan; lia.
Qed.

Lemma of_Z_not_nan z : isNaN #z%js = false.
Proof. apply binary_normalize_not_nan. Qed.

Lemma mul_finite_not_nan x y :
  is_finite x = true -> is_finite y = true -> isNaN (x * y)%js = false.
Proof.
  destruct x as [sx|sx| |sx mx ex], y as [sy|sy| |sy my ey]; try discriminate;
    intros _ _; try reflexivity.
  unfold mul. cbn [SFmul]. apply binary_round_aux_not_nan. lia.
Qed.

Lemma add_finite_not_nan x y :
  is_finite x = true -> isNaN y = false -> isNaN (x + y)%js = false.
Proof.
  destruct x as [[]|sx| |sx mx ex], y as [[]|sy| |sy my ey]; try discriminate;
    intros _ _; try reflexivity.
  unfold add. cbn [SFadd]. apply binary_normalize_not_nan.
Qed.

Lemma mul_nan_r x : (x * NaN)%js = NaN.
Proof. destruct x; reflexivity. Qed.

Lemma add_nan_r x : (x + NaN)%js = NaN.
Proof. destruct x; reflexivity. Qed.

Lemma sub_nan_r x : (x - NaN)%js = NaN.
Proof. destruct x; reflexivity. Qed.

Lemma div_nan_l y : (NaN / y)%js = NaN.
Proof. reflexivity. Qed.

Lemma In_months n : forall lo m, In m (months n lo) <-> lo <= m < lo + Z.of_nat n.
Proof.
  induction n as [|n IH]; intros lo m; cbn [months In].
  - lia.
  - rewrite IH. lia.
Qed.

Lemma ordered_months_true : ordered_months = true.
Proof. vm_compute. reflexivity. Qed.

Lemma month_numbers a b :
  1 <= a <= 36 -> 1 <= b <= 36 ->
  is_finite #a = true /\
  (a < b -> ltb #a #b = true /\ truthy (#b - #a)%js = true) /\
  (a <= b -> leb #a #b = true).
Proof.
  intros Ha Hb. pose proof ordered_months_true as H. unfold ordered_months in H.
  rewrite forallb_forall in H.
  specialize (H a (proj2 (In_months 36 1 a) ltac:(simpl; lia))).
  rewrite forallb_forall in H.
  specialize (H b (proj2 (In_months 36 1 b) ltac:(simpl; lia))).
  apply andb_true_iff in H. destruct H as [H Hle].
  apply andb_true_iff in H. destruct H as [Hfin Hlt].
  split; [exact Hfin|]. split.
  - intros Hab. destruct (a <? b) eqn:E; [|apply Z.ltb_ge in E; lia].
    now apply andb_true_iff in Hlt.
  - intros Hab. destruct (a <=? b) eqn:E; [exact Hle | apply Z.leb_gt in E; lia].
Qed.

(** *** Arithmetic at an anchor *)

Lemma sub_self x : is_finite x = true -> is_zero (x - x)%js = true.
Proof.
  destruct x as [[]| | |s m e]; try discriminate; intros _; try reflexivity.
  unfold sub. cbn [SFsub]. rewrite Z.sub_diag. reflexivity.
Qed.

Lemma div_zero_truthy x y :
  is_zero x = true -> truthy y = true -> is_zero (x / y)%js = true.
Proof. destruct x, y; try discriminate; reflexivity. Qed.

Lemma mul_finite_zero x y :
  is_finite x = true -> is_zero y = true -> is_zero (x * y)%js = true.
Proof. destruct x, y; try discriminate; reflexivity. Qed.

Lemma seq_refl x : isNaN x = false -> seq x x = true.
Proof. intros H. apply seq_rank. auto. Qed.

Lemma add_zero_r x z :
  is_finite x = true -> is_zero z = true -> seq (x + z)%js x = true.
Proof.
  destruct x as [[]| | |s m e], z as [[]| | |]; try discriminate; intros _ _;
    try reflexivity; apply seq_refl; reflexivity.
Qed.

Lemma sub_finite_l x y : is_finite (x - y)%js = true -> is_finite y = true.
Proof. destruct x as [[]|[]| |], y as [[]|[]| |]; try discriminate; reflexivity. Qed.

Lemma seq_cases x y :
  seq x y = true -> x = y \/ (is_zero x = true /\ is_zero y = true).
Proof.
  intros H. apply seq_rank in H. destruct H as (Hx & Hy & H).
  destruct x as [[]|[]| |[] mx ex], y as [[]|[]| |[] my ey];
    try discriminate; auto; cbn [rank] in H; inversion H; subst; auto.
  left. f_equal; lia.
Qed.

Lemma Math_round_seq x y : seq x y = true -> seq (Math_round x) (Math_round y) = true.
Proof.
  intros H. pose proof H as H'. apply seq_cases in H'.
  destruct H' as [-> | [Hx Hy]].
  - apply seq_rank in H. destruct H as (Hy & _ & _). apply seq_refl.
    destruct y as [| | |s m [|p|p]]; try discriminate; try reflexivity.
    cbn [Math_round]. destruct (_ =? 0); [reflexivity | apply of_Z_not_nan].
  - destruct x, y; try discriminate. reflexivity.
Qed.

(** *** Comparisons the other way round *)


(** *** Integers that are numbers *)

Lemma digits2_pos_unique p k :
  2 ^ (k - 1) <= Zpos p < 2 ^ k -> Zpos (digits2_pos p) = k.
Proof.
  intros [Hlo Hhi]. pose proof (digits2_pos_bounds p) as [Hlo' Hhi'].
  assert (Hk : 0 < k).
  { destruct (Z_lt_le_dec 0 k) as [H|H]; [exact H|].
    destruct k as [|k|k]; simpl in Hhi; lia. }
  assert (H1 : 2 ^ (k - 1) < 2 ^ Zpos (digits2_pos p)) by lia.
  assert (H2 : 2 ^ (Zpos (digits2_pos p) - 1) < 2 ^ k) by lia.
  apply Z.pow_lt_mono_r_iff in H1; [|lia|lia].
  apply Z.pow_lt_mono_r_iff in H2; lia.
Qed.

Lemma digits2_pos_shift p q k :
  0 <= k -> Zpos q = Zpos p * 2 ^ k ->
  Zpos (digits2_pos q) = Zpos (digits2_pos p) + k.
Proof.
  intros Hk Hq. apply digits2_pos_unique.
  pose proof (digits2_pos_bounds p) as [Hlo Hhi].
  assert (Hpow : 0 < 2 ^ k) by (apply Z.pow_pos_nonneg; lia).
  rewrite Hq.
  replace (Zpos (digits2_pos p) + k - 1) with (Zpos (digits2_pos p) - 1 + k) by lia.
  rewrite !Z.pow_add_r by lia. split; nia.
Qed.

Lemma iter_xO p k : Zpos (Pos.iter xO p k) = Zpos p * 2 ^ Zpos k.
Proof.
  change (Pos.iter xO p k) with (shift_pos k p).
  rewrite shift_pos_correct, Z.pow_pos_fold. lia.
Qed.

Lemma shr_1_exact m :
  0 <= m -> (2 | m) ->
  shr_1 (Build_shr_record m false false) = Build_shr_record (m / 2) false false.
Proof.
  intros Hm [k ->]. rewrite Z.div_mul by lia.
  destruct k as [|k|k]; try lia; [reflexivity|].
  replace (Zpos k * 2) with (Zpos k~0) by lia. reflexivity.
Qed.

Lemma iter_pos_shr_exact p :
  forall m, 0 <= m -> (2 ^ Zpos p | m) ->
  iter_pos shr_1 p (Build_shr_record m false false)
  = Build_shr_record (m / 2 ^ Zpos p) false false.
Proof.
  induction p as [p IH|p IH|]; intros m Hm [k ->]; cbn [iter_pos].
  - set (P := 2 ^ Zpos p) in *.
    assert (HP : 0 < P) by (apply Z.pow_pos_nonneg; lia).
    assert (E : 2 ^ Zpos p~1 = P * P * 2).
    { replace (Zpos p~1) with (Zpos p + Zpos p + 1) by lia.
      rewrite !Z.pow_add_r by lia. reflexivity. }
    rewrite E in *. assert (Hk : 0 <= k) by nia.
    rewrite shr_1_exact by (try nia; exists (k * P * P); lia).
    replace (k * (P * P * 2) / 2) with (k * P * P)
      by (apply Z.div_unique_exact; lia).
    rewrite IH by (try nia; exists (k * P); lia).
    rewrite (Z.div_mul (k * P) P) by lia.
    rewrite IH by (try nia; exists k; lia).
    rewrite !Z.div_mul by lia. reflexivity.
  - set (P := 2 ^ Zpos p) in *.
    assert (HP : 0 < P) by (apply Z.pow_pos_nonneg; lia).
    assert (E : 2 ^ Zpos p~0 = P * P).
    { replace (Zpos p~0) with (Zpos p + Zpos p) by lia.
      rewrite !Z.pow_add_r by lia. reflexivity. }
    rewrite E in *. assert (Hk : 0 <= k) by nia.
    rewrite IH by (try nia; exists (k * P); lia).
    replace (k * (P * P) / P) with (k * P)
      by (apply Z.div_unique_exact; lia).
    rewrite IH by (try nia; exists k; lia).
    rewrite !Z.div_mul by lia. reflexivity.
  - apply shr_1_exact; [exact Hm | now exists k].
Qed.

(** Rounding a value that the format holds exactly returns it, in
    canonical form. *)
Lemma binary_round_exact p e m' :
  fexp prec emax (Zpos (digits2_pos p) + e) <= emax - prec ->
  (fexp prec emax (Zpos (digits2_pos p) + e) <= e /\
   Zpos m' = Zpos p * 2 ^ (e - fexp prec emax (Zpos (digits2_pos p) + e)))
  \/ (e < fexp prec emax (Zpos (digits2_pos p) + e) /\
      Zpos p = Zpos m' * 2 ^ (fexp prec emax (Zpos (digits2_pos p) + e) - e)) ->
  binary_round prec emax false p e
  = S754_finite false m' (fexp prec emax (Zpos (digits2_pos p) + e)).
Proof.
  set (t := fexp prec emax (Zpos (digits2_pos p) + e)).
  intros Ht H.
  assert (Hd : Zpos (digits2_pos m') + t = Zpos (digits2_pos p) + e).
  { destruct H as [[Hle Hm]|[Hlt Hm]].
    - rewrite (digits2_pos_shift p m' (e - t)) by (lia || exact Hm). lia.
    - rewrite (digits2_pos_shift m' p (t - e)) by (lia || exact Hm). lia. }
  assert (Haux : binary_round_aux prec emax false (Zpos m') t loc_Exact
                 = S754_finite false m' t).
  { unfold binary_round_aux, shr_fexp. cbn [Zdigits2].
    rewrite Hd. fold t. rewrite Z.sub_diag. cbn [shr shr_record_of_loc].
    cbn [shr_m loc_of_shr_record round_nearest_even Zdigits2].
    rewrite Hd. fold t. rewrite Z.sub_diag. cbn [shr shr_record_of_loc shr_m].
    apply Z.leb_le in Ht. now rewrite Ht. }
  unfold binary_round, shl_align. fold t.
  destruct (t - e) as [|k|k] eqn:Hk.
  - assert (Hm : m' = p).
    { destruct H as [[_ Hm]|[Hlt _]]; [|lia].
      replace (e - t) with 0 in Hm by lia. rewrite Z.pow_0_r in Hm. lia. }
    subst m'. replace e with t by lia. exact Haux.
  - destruct H as [[Hle _]|[_ Hm]]; [lia|].
    unfold binary_round_aux, shr_fexp. cbn [Zdigits2]. fold t. rewrite Hk.
    cbn [shr shr_record_of_loc].
    try rewrite Hk in Hm.
    rewrite iter_pos_shr_exact by (try lia; exists (Zpos m'); exact Hm).
    rewrite Hm, Z.div_mul by (apply Z.pow_nonzero; lia).
    cbn [shr_m loc_of_shr_record round_nearest_even Zdigits2].
    replace (e + Zpos k) with t by lia.
    rewrite Hd. fold t. rewrite Z.sub_diag. cbn [shr shr_record_of_loc shr_m].
    apply Z.leb_le in Ht. now rewrite Ht.
  - destruct H as [[_ Hm]|[Hlt _]]; [|lia].
    assert (Hm' : Pos.iter xO p k = m').
    { apply Pos2Z.inj. rewrite iter_xO, Hm. f_equal. f_equal. lia. }
    rewrite Hm'. exact Haux.
Qed.

Lemma fexp_small d : -1021 <= d -> fexp prec emax d = d - 53.
Proof. unfold fexp, SpecFloat.emin, prec, emax. lia. Qed.

Lemma shl_align_value mx ex ez :
  ez <= ex -> Zpos (fst (shl_align mx ex ez)) = Zpos mx * 2 ^ (ex - ez).
Proof.
  intros Hle. unfold shl_align. destruct (ez - ex) as [|k|k] eqn:Hk; cbn [fst].
  - replace (ex - ez) with 0 by lia. rewrite Z.pow_0_r. lia.
  - lia.
  - rewrite iter_xO. f_equal. f_equal. lia.
Qed.

(** An integer below 2^53 is a number, with no rounding. *)
Lemma of_Z_small p :
  Zpos p < 2 ^ 53 ->
  exists m0,
    #(Zpos p)%js = S754_finite false m0 (Zpos (digits2_pos p) - 53) /\
    Zpos m0 = Zpos p * 2 ^ (53 - Zpos (digits2_pos p)).
Proof.
  intros Hp. pose proof (digits2_pos_bounds p) as [Hlo Hhi].
  set (d := Zpos (digits2_pos p)) in *.
  assert (Hd : 1 <= d <= 53).
  { split; [unfold d; lia|].
    assert (H : 2 ^ (d - 1) < 2 ^ 53) by lia.
    apply Z.pow_lt_mono_r_iff in H; lia. }
  assert (Hpos : 0 < Zpos p * 2 ^ (53 - d))
    by (apply Z.mul_pos_pos; [lia | apply Z.pow_pos_nonneg; lia]).
  exists (Z.to_pos (Zpos p * 2 ^ (53 - d))).
  rewrite Z2Pos.id by exact Hpos. split; [|reflexivity].
  unfold of_Z. cbn [binary_normalize].
  rewrite (binary_round_exact p 0 (Z.to_pos (Zpos p * 2 ^ (53 - d))));
    fold d; rewrite Z.add_0_r, fexp_small by lia.
  - reflexivity.
  - unfold emax, prec. lia.
  - left. split; [lia|]. rewrite Z2Pos.id by exact Hpos. f_equal. f_equal. lia.
Qed.

(** Adding 1 to an integer below 2^53 is exact. *)
Lemma add_one_exact m : 0 <= m < 2 ^ 53 -> to_Z (#m + #1)%js = m + 1.
Proof.
  intros Hm.
  destruct (Z.eq_dec m (2 ^ 53 - 1)) as [->|Hne]; [vm_compute; reflexivity|].
  destruct m as [|p|p]; try lia; [vm_compute; reflexivity|].
  destruct (of_Z_small p) as (m0 & -> & Hm0); [lia|].
  pose proof (digits2_pos_bounds p) as [Hlo Hhi].
  set (d := Zpos (digits2_pos p)) in *.
  assert (Hd : 1 <= d <= 53).
  { split; [unfold d; lia|].
    assert (H : 2 ^ (d - 1) < 2 ^ 53) by lia.
    apply Z.pow_lt_mono_r_iff in H; lia. }
  change #1%js with (S754_finite false 4503599627370496 (-52)).
  unfold add. cbn [SFadd]. rewrite Z.min_r by lia. cbn [cond_Zopp].
  pose proof (shl_align_value m0 (d - 53) (-52) ltac:(lia)) as H0.
  pose proof (shl_align_value 4503599627370496 (-52) (-52) ltac:(lia)) as H1.
  set (a := fst (shl_align m0 (d - 53) (-52))) in *.
  set (b := fst (shl_align 4503599627370496 (-52) (-52))) in *.
  change (Zpos a + Zpos b) with (Zpos (a + b)). cbn [binary_normalize].
  assert (Hq : Zpos (a + b) = Zpos (p + 1) * 2 ^ 52).
  { rewrite Pos2Z.inj_add, H0, H1, Hm0, Pos2Z.inj_add.
    replace (-52 - -52) with 0 by lia.
    replace (d - 53 - -52) with (d - 1) by lia.
    rewrite <- Z.mul_assoc, <- Z.pow_add_r by lia.
    replace (53 - d + (d - 1)) with 52 by lia.
    change (2 ^ 0) with 1. change (Zpos 4503599627370496) with (2 ^ 52). lia. }
  pose proof (digits2_pos_bounds (p + 1)) as [Hlo' Hhi'].
  pose proof (digits2_pos_shift (p + 1) (a + b) 52 ltac:(lia) Hq) as Hdq.
  set (d' := Zpos (digits2_pos (p + 1))) in *.
  assert (Hd' : 2 <= d' <= 53).
  { split.
    - destruct (Z_lt_le_dec d' 2) as [H|H]; [|exact H].
      assert (E : d' = 1) by (unfold d'; lia). rewrite E in Hhi'. simpl in Hhi'. lia.
    - assert (H : 2 ^ (d' - 1) < 2 ^ 53) by lia.
      apply Z.pow_lt_mono_r_iff in H; lia. }
  assert (Hpos : 0 < Zpos (p + 1) * 2 ^ (53 - d'))
    by (apply Z.mul_pos_pos; [lia | apply Z.pow_pos_nonneg; lia]).
  rewrite (binary_round_exact (a + b) (-52)
             (Z.to_pos (Zpos (p + 1) * 2 ^ (53 - d'))));
    rewrite Hdq; replace (d' + 52 + -52) with d' by lia;
    rewrite fexp_small by lia.
  - cbn [to_Z cond_Zopp].
    replace (d' - 53) with (- (53 - d')) by lia.
    rewrite Z.shiftl_opp_r, Z.shiftr_div_pow2 by lia.
    rewrite Z2Pos.id by exact Hpos.
    rewrite Z.div_mul by (apply Z.pow_nonzero; lia). lia.
  - unfold emax, prec. lia.
  - right. split; [lia|]. rewrite Z2Pos.id by exact Hpos. rewrite Hq.
    rewrite <- Z.mul_assoc, <- Z.pow_add_r by lia. f_equal. f_equal. lia.
Qed.

End NumberOrder.

(** ** [calculations.ts] *)

Module CalculationsFacts.
Import Calculations CalculationsSpec.

Lemma calculateMonthlyData_series params :
  map (fun r => (MonthlyData.month r, MonthlyData.adoption r))
    (calculateMonthlyData params)
  = map (fun m => (m, year1Adoption params (Z.min m 12)))
      [1; 2; 3; 4; 5; 6; 7; 8; 9; 10; 11; 12;
       13; 14; 15; 16; 17; 18; 19; 20; 21; 22; 23; 24].
Proof. reflexivity. Qed.

(** C1. [calculateMonthlyData] returns 24 records, month [m] at index
    [m - 1].  In Year 1 (months 1 to 12) the adoption is recomputed from the
    linear base, [Math.min(adoptionCeiling, 10 + (m - 1) * year1GrowthRate)],
    not compounded from the previous month; in Year 2 (months 13 to 24) it
    is the value month 12 produced, unchanged. *)
Theorem calculateMonthlyData_adoption (params : CalculationParams.t) (m : Z) :
  1 <= m <= 24 ->
  length (calculateMonthlyData params) = 24%nat /\
  exists r r12,
    at_index (calculateMonthlyData params) (m - 1) = Some r /\
    at_index (calculateMonthlyData params) (12 - 1) = Some r12 /\
    MonthlyData.month r = m /\
    MonthlyData.adoption r12
      = Math_min (CalculationParams.adoptionCeiling params)
          (#10 + #(12 - 1) * CalculationParams.year1GrowthRate params)%js /\
    MonthlyData.adoption r
      = if m <=? 12
        then Math_min (CalculationParams.adoptionCeiling params)
               (#10 + #(m - 1) * CalculationParams.year1GrowthRate params)%js
        else MonthlyData.adoption r12.
Proof.
  intros Hm. split; [reflexivity|].
  assert (Hcases : m = 1 \/ m = 2 \/ m = 3 \/ m = 4 \/ m = 5 \/ m = 6 \/ m = 7
                   \/ m = 8 \/ m = 9 \/ m = 10 \/ m = 11 \/ m = 12 \/ m = 13
                   \/ m = 14 \/ m = 15 \/ m = 16 \/ m = 17 \/ m = 18 \/ m = 19
                   \/ m = 20 \/ m = 21 \/ m = 22 \/ m = 23 \/ m = 24) by lia.
  repeat (destruct Hcases as [-> | Hcases]); try subst m;
    (eexists; eexists; split; [reflexivity|]; split; [reflexivity|];
     split; [reflexivity|]; split; reflexivity).
Qed.

(** The base parameters of the test suite: month 2 is at 10 + 15 = 25. *)
Lemma calculateMonthlyData_adoption_witness :
  exists r, at_index (calculateMonthlyData baseParams) (2 - 1) = Some r
            /\ MonthlyData.adoption r = #25%js.
Proof.
  destruct (calculateMonthlyData_adoption baseParams 2 ltac:(lia))
    as (_ & r & r12 & Hr & _ & _ & _ & Ha).
  exists r. split; [exact Hr|]. rewrite Ha. vm_compute. reflexivity.
Defined.

(** *** The scenario matrix *)

Lemma fold_left_push {A B : Type} (step : list B -> A -> list B) (F : A -> list B) :
  (forall acc x, step acc x = acc ++ F x) ->
  forall xs acc, fold_left step xs acc = acc ++ flat_map F xs.
Proof.
  intros Hstep xs. induction xs as [|x xs IH]; intros acc; simpl.
  - now rewrite app_nil_r.
  - rewrite IH, Hstep. now rewrite app_assoc.
Qed.

Lemma flat_map_singleton {A B : Type} (f : A -> B) xs :
  flat_map (fun x => [f x]) xs = map f xs.
Proof. induction xs as [|x xs IH]; simpl; congruence. Qed.

(** The nested loops enumerate the cross product in outer-middle-inner
    order. *)
Lemma calculateScenarioComparison_matrix us ags cs s c a :
  calculateScenarioComparison us ags cs s c a = scenarioMatrix us ags cs s c a.
Proof.
  unfold calculateScenarioComparison, scenarioMatrix.
  rewrite (fold_left_push _
    (fun users => flat_map (fun agents =>
       map (fun ratio => scenario users agents ratio s c a) cs) ags)).
  - reflexivity.
  - intros acc users.
    rewrite (fold_left_push _
      (fun agents => map (fun ratio => scenario users agents ratio s c a) cs)).
    + reflexivity.
    + intros acc' agents.
      rewrite (fold_left_push _ (fun ratio => [scenario users agents ratio s c a])).
      * now rewrite flat_map_singleton.
      * reflexivity.
Qed.

Lemma in_scenarioMatrix us ags cs s c a r :
  In r (scenarioMatrix us ags cs s c a) ->
  exists users agents ratio,
    In users us /\ In agents ags /\ In ratio cs /\
    r = scenario users agents ratio s c a.
Proof.
  unfold scenarioMatrix. intros H.
  apply in_flat_map in H. destruct H as (users & Hu & H).
  apply in_flat_map in H. destruct H as (agents & Ha & H).
  apply in_map_iff in H. destruct H as (ratio & <- & Hr).
  now exists users, agents, ratio.
Qed.

Lemma scenario_fields users agents ratio s c a :
  let r := scenario users agents ratio s c a in
  ScenarioData.users r = users /\ ScenarioData.agents r = agents /\
  ScenarioData.ratio r = ratio /\
  ScenarioData.activeUsers r = Math_round (users * (a / #100))%js /\
  ScenarioData.creditsPerUserMonth r = Math_round (creditsPerUser s c ratio) /\
  ScenarioData.monthlyPayg r
    = Math_round
        (ScenarioData.activeUsers r * creditsPerUser s c ratio * PAYG_RATE)%js /\
  ScenarioData.yearlyPayg r
    = Math_round
        (ScenarioData.activeUsers r * creditsPerUser s c ratio * #12
         * PAYG_RATE)%js.
Proof.
  unfold scenario, creditsPerUser. destruct (parsePercents ratio) as [sp cp].
  simpl. repeat split; reflexivity.
Qed.

(** C6. In every record of the scenario matrix [creditsPerUserMonth] is
    the rounded credits per user, while the monthly and yearly PAYG costs
    are computed from the unrounded value.  For 30000 users at "50/50", 60%
    steady-state adoption and 75/600 credits the record has 18000 active
    users, 338 credits per user (rounded from 337.5) and a yearly PAYG cost
    of 729000; the rounded 338 would have given 730080. *)
Theorem scenario_rounding_point us ags cs s c a (r : ScenarioData.t) :
  In r (calculateScenarioComparison us ags cs s c a) ->
  (ScenarioData.creditsPerUserMonth r
     = Math_round (creditsPerUser s c (ScenarioData.ratio r)) /\
   ScenarioData.monthlyPayg r
     = Math_round
         (ScenarioData.activeUsers r * creditsPerUser s c (ScenarioData.ratio r)
          * PAYG_RATE)%js /\
   ScenarioData.yearlyPayg r
     = Math_round
         (ScenarioData.activeUsers r * creditsPerUser s c (ScenarioData.ratio r)
          * #12 * PAYG_RATE)%js)
  /\
  (exists known,
     calculateScenarioComparison [#30000%js] [#100%js] ["50/50"] #75 #600 #60
     = [known] /\
     creditsPerUser #75 #600 "50/50" = lit 337.5 /\
     ScenarioData.activeUsers known = #18000%js /\
     ScenarioData.creditsPerUserMonth known = #338%js /\
     ScenarioData.yearlyPayg known = #729000%js /\
     Math_round (#18000 * #338 * #12 * PAYG_RATE)%js = #730080%js).
Proof.
  intros Hr. split.
  - rewrite calculateScenarioComparison_matrix in Hr.
    apply in_scenarioMatrix in Hr.
    destruct Hr as (users & agents & ratio & _ & _ & _ & ->).
    destruct (scenario_fields users agents ratio s c a)
      as (_ & _ & Hratio & _ & H1 & H2 & H3).
    rewrite Hratio. auto.
  - eexists. split; [reflexivity|]. vm_compute. repeat split; reflexivity.
Qed.

Lemma scenario_rounding_point_witness :
  exists r,
    In r (calculateScenarioComparison [#30000%js] [#100%js] ["50/50"] #75 #600 #60) /\
    ScenarioData.creditsPerUserMonth r = #338%js /\
    ScenarioData.yearlyPayg r = #729000%js.
Proof.
  eexists. split; [left; reflexivity|].
  destruct (scenario_rounding_point [#30000%js] [#100%js] ["50/50"] #75 #600 #60 _
              (or_introl eq_refl)) as ((H1 & _ & H3) & _).
  split.
  - rewrite H1. vm_compute. reflexivity.
  - rewrite H3. vm_compute. reflexivity.
Defined.

(** C8. Two runs of the scenario matrix that differ only in the
    agent-count labels (lists of equal length) agree, record by record, on
    every field except the label: user count, ratio, active users, credits
    per user, monthly and yearly PAYG cost, flat-seat cost, savings and
    savings percent.  The label itself is carried through unchanged. *)
Theorem agent_label_no_effect us ags1 ags2 cs s c a :
  length ags1 = length ags2 ->
  map costFields (calculateScenarioComparison us ags1 cs s c a)
  = map costFields (calculateScenarioComparison us ags2 cs s c a)
  /\
  map ScenarioData.agents (calculateScenarioComparison us ags1 cs s c a)
  = flat_map (fun _ => flat_map (fun label => map (fun _ => label) cs) ags1) us.
Proof.
  intros Hlen. rewrite !calculateScenarioComparison_matrix. unfold scenarioMatrix.
  split.
  - induction us as [|users us IH]; simpl; [reflexivity|].
    rewrite !map_app, IH. f_equal. clear IH.
    revert ags2 Hlen. induction ags1 as [|l1 ags1 IH]; intros [|l2 ags2] Hlen;
      simpl in *; try discriminate; [reflexivity|].
    rewrite !map_app, (IH ags2) by congruence. f_equal.
    rewrite !map_map. apply map_ext. intros ratio.
    unfold costFields, scenario. destruct (parsePercents ratio). reflexivity.
  - clear Hlen. induction us as [|users us IH]; simpl; [reflexivity|].
    rewrite map_app, IH. f_equal. clear IH.
    induction ags1 as [|l1 ags1 IH]; simpl; [reflexivity|].
    rewrite map_app, IH. f_equal.
    rewrite map_map. apply map_ext. intros ratio.
    unfold scenario. destruct (parsePercents ratio). reflexivity.
Qed.

(** The labels 10, 30, 100 against 1, 2, 3 on the default matrix. *)
Lemma agent_label_no_effect_witness :
  map costFields
    (calculateScenarioComparison [#1300; #5000; #30000]%js [#10; #30; #100]%js
       ["80/20"; "70/30"; "50/50"] #75 #600 #60)
  = map costFields
      (calculateScenarioComparison [#1300; #5000; #30000]%js [#1; #2; #3]%js
         ["80/20"; "70/30"; "50/50"] #75 #600 #60).
Proof.
  exact (proj1 (agent_label_no_effect [#1300; #5000; #30000]%js
                  [#10; #30; #100]%js [#1; #2; #3]%js
                  ["80/20"; "70/30"; "50/50"] #75 #600 #60 eq_refl)).
Defined.

(** *** A zero flat-seat baseline *)

Lemma scenario_zero_users users agents ratio s c a :
  is_zero users = true ->
  is_zero (ScenarioData.yearlyM365 (scenario users agents ratio s c a)) = true /\
  ScenarioData.savingsPercent (scenario users agents ratio s c a) = NaN.
Proof.
  intros Hu. unfold scenario. destruct (parsePercents ratio) as [sp cp]. simpl.
  assert (Hm365 : is_zero (users * M365_COPILOT_COST * #12)%js = true)
    by (repeat apply mul_zero_finite; auto).
  split; [exact Hm365|].
  rewrite (div_by_zero_nan _ _); [reflexivity | | exact Hm365].
  apply sub_zero_or_nan; [exact Hm365|].
  repeat apply mul_zero_or_nan. apply Math_round_zero_or_nan.
  apply mul_zero_or_nan. now apply is_zero_zero_or_nan.
Qed.

(** For a binary64 user count the baseline [users * 30 * 12] is zero
    only when the user count is. *)
Lemma zero_baseline_zero_users users :
  valid users = true ->
  is_zero (users * M365_COPILOT_COST * #12)%js = true ->
  is_zero users = true.
Proof.
  intros Hvalid Hbase. destruct (is_zero users) eqn:Hu; [reflexivity|].
  destruct (mul_nonzero users M365_COPILOT_COST Hu
              (valid_exponent_bounded _ Hvalid) eq_refl eq_refl eq_refl)
    as [Hnz Hexp].
  destruct (mul_nonzero _ #12%js Hnz Hexp eq_refl eq_refl eq_refl) as [Hnz' _].
  congruence.
Qed.

(** C7, as the code has it.  A scenario whose yearly flat-seat baseline is
    0, which for a binary64 user count means a user count of 0, raises no
    error: its record is returned like any other, with [savingsPercent]
    equal to NaN, the value of 0/0, which is neither 0 nor an infinity. *)
Theorem savingsPercent_zero_baseline us ags cs s c a (r : ScenarioData.t) :
  In r (calculateScenarioComparison us ags cs s c a) ->
  valid (ScenarioData.users r) = true ->
  is_zero (ScenarioData.yearlyM365 r) = true ->
  is_zero (ScenarioData.users r) = true /\
  ScenarioData.savingsPercent r = NaN /\
  is_zero (ScenarioData.savingsPercent r) = false /\
  is_infinity (ScenarioData.savingsPercent r) = false.
Proof.
  intros Hr Hvalid Hbase. rewrite calculateScenarioComparison_matrix in Hr.
  apply in_scenarioMatrix in Hr.
  destruct Hr as (users & agents & ratio & _ & _ & _ & ->).
  destruct (scenario_fields users agents ratio s c a) as (Husers & _).
  rewrite Husers in *.
  assert (Hu : is_zero users = true).
  { apply zero_baseline_zero_users; [exact Hvalid|].
    revert Hbase. unfold scenario. destruct (parsePercents ratio). exact (fun H => H). }
  destruct (scenario_zero_users users agents ratio s c a Hu) as [H0 Hnan].
  rewrite Hnan. auto.
Qed.

Lemma savingsPercent_zero_baseline_witness :
  exists r,
    In r (calculateScenarioComparison [#0%js] [#10%js] ["80/20"] #75 #600 #60) /\
    ScenarioData.savingsPercent r = NaN.
Proof.
  eexists. split; [left; reflexivity|].
  exact (proj1 (proj2
    (savingsPercent_zero_baseline [#0%js] [#10%js] ["80/20"] #75 #600 #60 _
       (or_introl eq_refl) eq_refl eq_refl))).
Defined.

(** C7, as stated, fails: for a user count of 0 the generator does not
    signal anything.  The call returns the one-record matrix below, whose
    baseline, PAYG cost and savings are plain zeros and whose
    [savingsPercent] silently holds NaN. *)
Lemma savingsPercent_zero_baseline_not_signalled :
  calculateScenarioComparison [#0%js] [#10%js] ["80/20"] #75 #600 #60
  = [ {| ScenarioData.users := #0; ScenarioData.agents := #10;
         ScenarioData.ratio := "80/20"; ScenarioData.activeUsers := #0;
         ScenarioData.creditsPerUserMonth := #180;
         ScenarioData.monthlyPayg := #0; ScenarioData.yearlyPayg := #0;
         ScenarioData.yearlyM365 := #0; ScenarioData.savings := #0;
         ScenarioData.savingsPercent := NaN |} ]%js.
Proof. vm_compute. reflexivity. Qed.

(** *** The values asserted by [calculations.test.ts] *)

Lemma test_suite_monthly :
  length (calculateMonthlyData baseParams) = 24%nat /\
  map MonthlyData.year (firstn 1 (calculateMonthlyData baseParams)) = ["Year 1"] /\
  map MonthlyData.year (skipn 23 (calculateMonthlyData baseParams)) = ["Year 2"] /\
  map MonthlyData.adoption (firstn 2 (calculateMonthlyData baseParams))
  = [#10; #25]%js /\
  map MonthlyData.adoption (skipn 11 (firstn 14 (calculateMonthlyData baseParams)))
  = [#80; #80; #80]%js /\
  map (fun r => (MonthlyData.activeUsers r, MonthlyData.totalCredits r,
                 MonthlyData.paygCost r, MonthlyData.m365Cost r,
                 MonthlyData.savings r))
      (firstn 1 (calculateMonthlyData baseParams))
  = [(#130, #23400, #234, #39000, #38766)]%js.
Proof. vm_compute. repeat split; reflexivity. Qed.

Lemma test_suite_scenarios :
  length (calculateScenarioComparison [#1300; #5000; #30000]%js [#10; #30; #100]%js
            ["80/20"; "70/30"; "50/50"] #75 #600 #60) = 27%nat /\
  map (fun r => (ScenarioData.activeUsers r, ScenarioData.creditsPerUserMonth r,
                 ScenarioData.yearlyPayg r, ScenarioData.yearlyM365 r,
                 ScenarioData.savings r, ScenarioData.savingsPercent r))
      (calculateScenarioComparison [#30000%js] [#100%js] ["50/50"] #75 #600 #60)
  = [(#18000, #338, #729000, #10800000, #10071000, #93)]%js /\
  map ScenarioData.creditsPerUserMonth
      (calculateScenarioComparison [#1000%js] [#10%js] ["80/20"; "70/30"; "50/50"]
         #75 #600 #60)
  = [#180; #233; #338]%js /\
  validateNumber #150 #0 #100 = #100%js /\
  validateNumber #(-10) #0 #100 = #0%js /\
  validateNumber NaN #0 #100 = #0%js /\
  validateNumber #50 #0 #100 = #50%js.
Proof. vm_compute. repeat split; reflexivity. Qed.

(** *** The breakeven constant of [calculations.ts] *)

(** In [calculations.ts] the constant is the quotient of the two pricing
    constants, and that quotient is exactly 3000. *)
Lemma BREAKEVEN_CREDITS_derived :
  BREAKEVEN_CREDITS = (M365_COPILOT_COST / PAYG_RATE)%js /\
  (#30 / lit 0.01)%js = #3000%js.
Proof. split; [reflexivity | vm_compute; reflexivity]. Qed.

End CalculationsFacts.

(** ** The rollout projector: stages and interpolation *)

Module RolloutFacts.
Import Rollout RolloutSpec.

Lemma increasing_cons a stages :
  increasing (a :: stages) = true ->
  Forall (fun b => Stage.month a < Stage.month b) stages /\ increasing stages = true.
Proof.
  revert a. induction stages as [|b stages IH]; intros a H.
  - split; [constructor | reflexivity].
  - simpl in H. apply andb_true_iff in H. destruct H as [Hab Hrest].
    apply Z.ltb_lt in Hab. destruct (IH b Hrest) as [Hb Hinc].
    split; [|exact Hrest]. constructor; [exact Hab|].
    eapply Forall_impl; [|exact Hb]. simpl. intros c Hc. lia.
Qed.

(** Strictly increasing anchor months identify the stage. *)
Lemma increasing_month_inj stages b b' :
  increasing stages = true -> In b stages -> In b' stages ->
  Stage.month b = Stage.month b' -> b = b'.
Proof.
  induction stages as [|a stages IH]; intros Hinc Hb Hb' Hm; [contradiction|].
  destruct (increasing_cons _ _ Hinc) as [Hall Hinc'].
  rewrite Forall_forall in Hall.
  destruct Hb as [<-|Hb], Hb' as [<-|Hb']; auto.
  - specialize (Hall _ Hb'). lia.
  - specialize (Hall _ Hb). lia.
Qed.

Lemma last_item_cons {A : Type} (x y : A) l :
  last_item (x :: y :: l) = last_item (y :: l).
Proof. reflexivity. Qed.

Lemma last_item_In {A : Type} (l : list A) x : last_item l = Some x -> In x l.
Proof.
  induction l as [|a [|b l] IH]; intros H.
  - discriminate.
  - injection H as <-. now left.
  - rewrite last_item_cons in H. right. auto.
Qed.

Lemma last_item_none {A : Type} (l : list A) : last_item l = None -> l = [].
Proof.
  induction l as [|a [|b l] IH]; intros H; [reflexivity | discriminate |].
  rewrite last_item_cons in H. specialize (IH H). discriminate.
Qed.

Lemma last_item_snoc {A : Type} (xs : list A) a : last_item (xs ++ [a]) = Some a.
Proof.
  induction xs as [|x xs IH]; [reflexivity|].
  simpl. destruct (xs ++ [a]) eqn:E; [|exact IH].
  destruct xs; discriminate.
Qed.

(** Scanning the reversed list for the first match finds the last match. *)
Lemma find_rev_last {A : Type} (p : A -> bool) l :
  find p (rev l) = last_item (filter p l).
Proof.
  induction l as [|a l IH] using rev_ind; [reflexivity|].
  rewrite rev_app_distr, filter_app. simpl.
  destruct (p a) eqn:Ha.
  - now rewrite last_item_snoc.
  - now rewrite app_nil_r.
Qed.

Lemma last_item_stagesBefore stages M b :
  increasing stages = true ->
  last_item (stagesBefore stages M) = Some b -> latestBefore stages M b.
Proof.
  unfold stagesBefore, latestBefore.
  induction stages as [|a stages IH]; intros Hinc H; [discriminate|].
  destruct (increasing_cons _ _ Hinc) as [Hall Hinc'].
  rewrite Forall_forall in Hall. simpl in H.
  destruct (Stage.month a <=? M) eqn:Ha.
  - apply Z.leb_le in Ha.
    destruct (filter (fun s => Stage.month s <=? M) stages) as [|y f] eqn:Hf.
    + injection H as <-. split; [now left|]. split; [exact Ha|].
      intros s [<-|Hs] Hle; [lia|].
      assert (Hin : In s (filter (fun s => Stage.month s <=? M) stages))
        by (apply filter_In; split; [exact Hs | now apply Z.leb_le]).
      rewrite Hf in Hin. contradiction.
    + rewrite last_item_cons in H. destruct (IH Hinc' H) as (Hin & Hle & Hmax).
      split; [now right|]. split; [exact Hle|].
      intros s [<-|Hs] Hs'; [specialize (Hall _ Hin); lia | auto].
  - apply Z.leb_gt in Ha. destruct (IH Hinc' H) as (Hin & Hle & Hmax).
    split; [now right|]. split; [exact Hle|].
    intros s [<-|Hs] Hs'; [lia | auto].
Qed.

Lemma hd_stagesAfter stages M a :
  increasing stages = true ->
  hd_error (stagesAfter stages M) = Some a -> earliestAfter stages M a.
Proof.
  unfold stagesAfter, earliestAfter.
  induction stages as [|x stages IH]; intros Hinc H; [discriminate|].
  destruct (increasing_cons _ _ Hinc) as [Hall Hinc'].
  rewrite Forall_forall in Hall. simpl in H.
  destruct (M <? Stage.month x) eqn:Hx.
  - apply Z.ltb_lt in Hx. injection H as <-.
    split; [now left|]. split; [exact Hx|].
    intros s [<-|Hs] _; [lia | specialize (Hall _ Hs); lia].
  - apply Z.ltb_ge in Hx. destruct (IH Hinc' H) as (Hin & Hlt & Hmin).
    split; [now right|]. split; [exact Hlt|].
    intros s [<-|Hs] Hs'; [lia | auto].
Qed.

Lemma latestBefore_unique stages M b b' :
  increasing stages = true ->
  latestBefore stages M b -> latestBefore stages M b' -> b = b'.
Proof.
  intros Hinc (Hin & Hle & Hmax) (Hin' & Hle' & Hmax').
  apply (increasing_month_inj stages); auto.
  specialize (Hmax _ Hin' Hle'). specialize (Hmax' _ Hin Hle). lia.
Qed.

Lemma earliestAfter_unique stages M a a' :
  increasing stages = true ->
  earliestAfter stages M a -> earliestAfter stages M a' -> a = a'.
Proof.
  intros Hinc (Hin & Hlt & Hmin) (Hin' & Hlt' & Hmin').
  apply (increasing_month_inj stages); auto.
  specialize (Hmin _ Hin' Hlt'). specialize (Hmin' _ Hin Hlt). lia.
Qed.

Lemma latestBefore_last_item stages M b :
  increasing stages = true ->
  latestBefore stages M b -> last_item (stagesBefore stages M) = Some b.
Proof.
  intros Hinc Hb.
  destruct (last_item (stagesBefore stages M)) as [b'|] eqn:Hlast.
  - f_equal. apply (latestBefore_unique stages M); auto.
    now apply last_item_stagesBefore.
  - destruct Hb as (Hin & Hle & _).
    assert (Hf : In b (stagesBefore stages M))
      by (apply filter_In; split; [exact Hin | now apply Z.leb_le]).
    rewrite (last_item_none _ Hlast) in Hf. contradiction.
Qed.

Lemma earliestAfter_hd stages M a :
  increasing stages = true ->
  earliestAfter stages M a -> hd_error (stagesAfter stages M) = Some a.
Proof.
  intros Hinc Ha.
  destruct (hd_error (stagesAfter stages M)) as [a'|] eqn:Hhd.
  - f_equal. apply (earliestAfter_unique stages M); auto.
    now apply hd_stagesAfter.
  - destruct Ha as (Hin & Hlt & _).
    assert (Hf : In a (stagesAfter stages M))
      by (apply filter_In; split; [exact Hin | now apply Z.ltb_lt]).
    destruct (stagesAfter stages M); [contradiction | discriminate].
Qed.

Lemma stagesBefore_none stages M :
  (forall s, In s stages -> M < Stage.month s) -> stagesBefore stages M = [].
Proof.
  intros H. unfold stagesBefore.
  destruct (filter (fun s => Stage.month s <=? M) stages) as [|x f] eqn:Hf; auto.
  assert (Hin : In x (filter (fun s => Stage.month s <=? M) stages))
    by (rewrite Hf; now left).
  apply filter_In in Hin. destruct Hin as [Hin Hle]. apply Z.leb_le in Hle.
  specialize (H _ Hin). lia.
Qed.

Lemma stagesAfter_none stages M :
  (forall s, In s stages -> Stage.month s <= M) -> stagesAfter stages M = [].
Proof.
  intros H. unfold stagesAfter.
  destruct (filter (fun s => M <? Stage.month s) stages) as [|x f] eqn:Hf; auto.
  assert (Hin : In x (filter (fun s => M <? Stage.month s) stages))
    by (rewrite Hf; now left).
  apply filter_In in Hin. destruct Hin as [Hin Hlt]. apply Z.ltb_lt in Hlt.
  specialize (H _ Hin). lia.
Qed.

(** With at least one stage, some stage lies before or after any month, so
    the interpolation never reads [undefined]. *)
Lemma interpolated_defined stages M getValue :
  stages <> [] -> interpolated stages M getValue <> None.
Proof.
  intros Hne. unfold interpolated, interpolateValue.
  destruct (last_item (stagesBefore stages M)) as [b|] eqn:Hb;
    destruct (hd_error (stagesAfter stages M)) as [a|] eqn:Ha; try discriminate.
  exfalso. apply last_item_none in Hb.
  destruct stages as [|s stages]; [contradiction|].
  unfold stagesBefore, stagesAfter in *. simpl in *.
  destruct (Stage.month s <=? M) eqn:Hs; [discriminate|].
  apply Z.leb_gt in Hs.
  assert (Hlt : (M <? Stage.month s) = true) by (apply Z.ltb_lt; lia).
  rewrite Hlt in Ha. discriminate.
Qed.

(** The user count and the daily-active fraction that a month's record
    carries, in both snapshots of the projector. *)
Lemma Portfolio_monthRecord_interpolated stages agents config M r :
  Portfolio.monthRecord stages agents config M = Some r ->
  exists u d,
    interpolated stages M Stage.users = Some u /\
    interpolated stages M Stage.dau = Some d /\
    MonthlyData.month r = M /\
    MonthlyData.users r = Math_round u /\ MonthlyData.dau r = d.
Proof.
  unfold Portfolio.monthRecord, interpolated.
  destruct (interpolateValue M _ _ Stage.users) as [u|]; [|discriminate].
  destruct (interpolateValue M _ _ Stage.dau) as [d|]; [|discriminate].
  destruct (fold_left _ agents _) as [[[tc tcr] ta]|]; [|discriminate].
  intros [= <-]. exists u, d. repeat split; reflexivity.
Qed.

Lemma Usage_monthRecord_interpolated stages config M r :
  Usage.monthRecord stages config M = Some r ->
  exists u d,
    interpolated stages M Stage.users = Some u /\
    interpolated stages M Stage.dau = Some d /\
    r = Usage.monthCosts config M (Math_round u) d.
Proof.
  unfold Usage.monthRecord, interpolated.
  destruct (interpolateValue M _ _ Stage.users) as [u|]; [|discriminate].
  destruct (interpolateValue M _ _ Stage.dau) as [d|]; [|discriminate].
  intros [= <-]. exists u, d. repeat split; reflexivity.
Qed.

(** *** No month without a record *)

Lemma currentStage_defined stages M :
  stages <> [] -> exists st, Portfolio.currentStage stages M = Some st.
Proof.
  intros Hne. unfold Portfolio.currentStage.
  destruct (find _ (rev stages)) as [st|]; [now exists st|].
  destruct stages as [|st stages]; [contradiction|]. now exists st.
Qed.

Lemma eligibleUsers_defined segments st users :
  eligibleUsers segments (Some st) users <> None.
Proof.
  unfold eligibleUsers.
  repeat match goal with
  | |- context [if ?c then _ else _] => destruct c
  end; discriminate.
Qed.

Lemma fold_aggregate_defined month users dau st agents acc :
  fold_left (Portfolio.aggregateAgent month users dau (Some st)) agents (Some acc)
  <> None.
Proof.
  revert acc. induction agents as [|a agents IH]; intros acc; [discriminate|].
  cbn [fold_left]. unfold Portfolio.aggregateAgent at 2.
  destruct acc as [[tc tcr] ta].
  destruct (negb (Agent.enabled a) || ltb #month (Agent.deployMonth a)); [apply IH|].
  destruct (eligibleUsers (Agent.segments a) (Some st) users) eqn:He.
  - apply IH.
  - now apply eligibleUsers_defined in He.
Qed.

Lemma monthRecord_defined stages agents config M :
  stages <> [] -> Portfolio.monthRecord stages agents config M <> None.
Proof.
  intros Hne. unfold Portfolio.monthRecord.
  pose proof (interpolated_defined stages M Stage.users Hne) as Hu.
  pose proof (interpolated_defined stages M Stage.dau Hne) as Hd.
  unfold interpolated in Hu, Hd.
  destruct (interpolateValue M _ _ Stage.users) as [u|]; [|contradiction].
  destruct (interpolateValue M _ _ Stage.dau) as [d|]; [|contradiction].
  destruct (currentStage_defined stages M Hne) as [st ->].
  pose proof (fold_aggregate_defined M (Math_round u) d st agents
                (#0, #0, #0)%js) as Hf.
  destruct (fold_left _ agents _); [discriminate | contradiction].
Qed.

Lemma Usage_monthRecord_defined stages config M :
  stages <> [] -> Usage.monthRecord stages config M <> None.
Proof.
  intros Hne. unfold Usage.monthRecord.
  pose proof (interpolated_defined stages M Stage.users Hne) as Hu.
  pose proof (interpolated_defined stages M Stage.dau Hne) as Hd.
  unfold interpolated in Hu, Hd.
  destruct (interpolateValue M _ _ Stage.users); [|contradiction].
  destruct (interpolateValue M _ _ Stage.dau); [discriminate | contradiction].
Qed.

(** C5. For strictly increasing stages and a target month [M]: with no
    stage at or before [M] the interpolated value is the earliest later
    stage's value; with no stage after [M] it is the latest earlier stage's
    value; otherwise it is
    [before + (after - before) * ((M - before.month) / (after.month - before.month))].
    With at least one stage the month has a record in both snapshots of the
    projector, and in it the interpolated user count is rounded to the
    nearest integer while the daily-active fraction is kept as
    interpolated. *)
Theorem interpolation_cases stages M (getValue : Stage.t -> number) :
  increasing stages = true ->
  (forall a, (forall s, In s stages -> M < Stage.month s) ->
     earliestAfter stages M a ->
     interpolated stages M getValue = Some (getValue a)) /\
  (forall b, (forall s, In s stages -> Stage.month s <= M) ->
     latestBefore stages M b ->
     interpolated stages M getValue = Some (getValue b)) /\
  (forall b a, latestBefore stages M b -> earliestAfter stages M a ->
     interpolated stages M getValue
     = Some (getValue b
             + (getValue a - getValue b)
               * ((#M - #(Stage.month b))
                  / (#(Stage.month a) - #(Stage.month b))))%js) /\
  (stages <> [] ->
   forall agents config,
     exists r u d,
       Portfolio.monthRecord stages agents config M = Some r /\
       interpolated stages M Stage.users = Some u /\
       interpolated stages M Stage.dau = Some d /\
       MonthlyData.users r = Math_round u /\ MonthlyData.dau r = d) /\
  (stages <> [] ->
   forall config,
     exists r u d,
       Usage.monthRecord stages config M = Some r /\
       interpolated stages M Stage.users = Some u /\
       interpolated stages M Stage.dau = Some d /\
       MonthlyData.users r = Math_round u /\ MonthlyData.dau r = d).
Proof.
  intros Hinc. repeat split.
  - intros a Hnone Ha. unfold interpolated, interpolateValue.
    rewrite (stagesBefore_none _ _ Hnone), (earliestAfter_hd _ _ _ Hinc Ha).
    reflexivity.
  - intros b Hnone Hb. unfold interpolated, interpolateValue.
    rewrite (stagesAfter_none _ _ Hnone), (latestBefore_last_item _ _ _ Hinc Hb).
    reflexivity.
  - intros b a Hb Ha. unfold interpolated, interpolateValue.
    rewrite (latestBefore_last_item _ _ _ Hinc Hb), (earliestAfter_hd _ _ _ Hinc Ha).
    reflexivity.
  - intros Hne agents config.
    destruct (Portfolio.monthRecord stages agents config M) as [r|] eqn:Hr;
      [|now apply monthRecord_defined in Hr].
    destruct (Portfolio_monthRecord_interpolated _ _ _ _ _ Hr)
      as (u & d & Hu & Hd & _ & Hur & Hdr).
    now exists r, u, d.
  - intros Hne config.
    destruct (Usage.monthRecord stages config M) as [r|] eqn:Hr;
      [|now apply Usage_monthRecord_defined in Hr].
    destruct (Usage_monthRecord_interpolated _ _ _ _ Hr) as (u & d & Hu & Hd & ->).
    now exists (Usage.monthCosts config M (Math_round u) d), u, d.
Qed.

(** The default rollout: month 0 lies before the first stage, month 36
    after the last one, and month 5 between "HQ Expansion" (month 4, 500
    users) and "Full HQ" (month 7, 1000 users), where the record of either
    snapshot shows 667 users, the rounded value of 666.66..., and a
    daily-active fraction that is no integer. *)
Lemma interpolation_cases_witness :
  interpolated defaultStages 0 Stage.users = Some (Stage.users pilotHQ) /\
  interpolated defaultStages 36 Stage.users = Some (Stage.users nearComplete) /\
  interpolated defaultStages 5 Stage.users
  = Some (Stage.users hqExpansion
          + (Stage.users fullHQ - Stage.users hqExpansion)
            * ((#5 - #(Stage.month hqExpansion))
               / (#(Stage.month fullHQ) - #(Stage.month hqExpansion))))%js /\
  (exists r,
     Portfolio.monthRecord defaultStages defaultAgents Portfolio.defaultConfig 5
     = Some r /\
     MonthlyData.users r = #667%js /\
     seq (Math_round (MonthlyData.dau r)) (MonthlyData.dau r) = false) /\
  (exists r,
     Usage.monthRecord defaultStages Usage.defaultConfig 5 = Some r /\
     MonthlyData.users r = #667%js /\
     seq (Math_round (MonthlyData.dau r)) (MonthlyData.dau r) = false).
Proof.
  assert (Hne : defaultStages <> []) by discriminate.
  split; [|split; [|split; [|split]]].
  - apply (proj1 (interpolation_cases defaultStages 0 Stage.users eq_refl) pilotHQ).
    + intros s Hs. simpl in Hs. decompose [or] Hs; subst; simpl in *; lia.
    + split; [simpl; auto | split; [simpl; lia|]].
      intros s Hs Hlt. simpl in Hs. decompose [or] Hs; subst; simpl in *; lia.
  - apply (proj1 (proj2 (interpolation_cases defaultStages 36 Stage.users eq_refl))
             nearComplete).
    + intros s Hs. simpl in Hs. decompose [or] Hs; subst; simpl in *; lia.
    + split; [simpl; tauto | split; [simpl; lia|]].
      intros s Hs Hle. simpl in Hs. decompose [or] Hs; subst; simpl in *; lia.
  - apply (proj1 (proj2 (proj2
             (interpolation_cases defaultStages 5 Stage.users eq_refl)))
             hqExpansion fullHQ).
    + split; [simpl; auto | split; [simpl; lia|]].
      intros s Hs Hle. simpl in Hs. decompose [or] Hs; subst; simpl in *; lia.
    + split; [simpl; auto | split; [simpl; lia|]].
      intros s Hs Hlt. simpl in Hs. decompose [or] Hs; subst; simpl in *; lia.
  - destruct (proj1 (proj2 (proj2 (proj2
                (interpolation_cases defaultStages 5 Stage.users eq_refl))))
                Hne defaultAgents Portfolio.defaultConfig)
      as (r & u & d & Hr & Hu & Hd & Hur & Hdr).
    exists r. split; [exact Hr|]. rewrite Hur, Hdr.
    vm_compute in Hu. injection Hu as <-. vm_compute in Hd. injection Hd as <-.
    split; vm_compute; reflexivity.
  - destruct (proj2 (proj2 (proj2 (proj2
                (interpolation_cases defaultStages 5 Stage.users eq_refl))))
                Hne Usage.defaultConfig)
      as (r & u & d & Hr & Hu & Hd & Hur & Hdr).
    exists r. split; [exact Hr|]. rewrite Hur, Hdr.
    vm_compute in Hu. injection Hu as <-. vm_compute in Hd. injection Hd as <-.
    split; vm_compute; reflexivity.
Defined.

(** *** The current stage *)

(** In the agent-portfolio snapshot the current stage is the latest stage
    that has started. *)
Lemma Portfolio_currentStage_latest stages M b :
  increasing stages = true -> latestBefore stages M b ->
  Portfolio.currentStage stages M = Some b.
Proof.
  intros Hinc Hb. unfold Portfolio.currentStage.
  rewrite find_rev_last. fold (stagesBefore stages M).
  now rewrite (latestBefore_last_item _ _ _ Hinc Hb).
Qed.

(** Before the first stage has started it falls back to the first stage. *)
Lemma Portfolio_currentStage_fallback stages M :
  (forall s, In s stages -> M < Stage.month s) ->
  Portfolio.currentStage stages M = hd_error stages.
Proof.
  intros Hnone. unfold Portfolio.currentStage.
  rewrite find_rev_last. fold (stagesBefore stages M).
  now rewrite (stagesBefore_none _ _ Hnone).
Qed.

(** In the usage-parameter snapshot the scan runs from the front, and on a
    list with increasing anchor months it always ends on the first stage. *)
Lemma Usage_currentStage_first stages M :
  increasing stages = true -> Usage.currentStage stages M = hd_error stages.
Proof.
  intros Hinc. unfold Usage.currentStage.
  destruct stages as [|a stages]; [reflexivity|]. simpl.
  destruct (Stage.month a <=? M) eqn:Ha; [reflexivity|].
  apply Z.leb_gt in Ha. destruct (increasing_cons _ _ Hinc) as [Hall _].
  rewrite Forall_forall in Hall.
  destruct (find (fun s => Stage.month s <=? M) stages) as [x|] eqn:Hx; [|reflexivity].
  apply find_some in Hx. destruct Hx as [Hin Hle]. apply Z.leb_le in Hle.
  specialize (Hall _ Hin). lia.
Qed.

(** C2, on the usage-parameter snapshot.  At month 10 of the default
    rollout the latest stage that has started is "HQ + Mgmt" (phase
    Management), and the agent-portfolio snapshot uses it; the
    usage-parameter snapshot's [agentMonthlyCosts] takes the first stage,
    "Pilot (HQ)", so that "Document Search" and "Document Translation"
    (segments HQ and Management) are costed on no users at all. *)
Theorem currentStage_first_not_latest :
  latestBefore defaultStages 10 hqMgmt /\
  Portfolio.currentStage defaultStages 10 = Some hqMgmt /\
  Usage.currentStage defaultStages 10 = Some pilotHQ /\
  Stage.phase hqMgmt = "Management" /\ Stage.phase pilotHQ = "Pilot" /\
  eligibleUsers (Agent.segments documentSearch)
    (Portfolio.currentStage defaultStages 10) #2500 = Some #2500%js /\
  eligibleUsers (Agent.segments documentSearch)
    (Usage.currentStage defaultStages 10) #2500 = Some #0%js /\
  exists monthlyData costs month10,
    Usage.monthlyData defaultStages Usage.defaultConfig = Some monthlyData /\
    Usage.agentMonthlyCosts defaultStages defaultAgents monthlyData = Some costs /\
    at_index costs (10 - 1) = Some month10 /\
    map (fun c => (AgentCost.agentId c, AgentCost.cost c))
        (AgentMonthlyCost.agentCosts month10)
    = [(1, #3347); (2, #4725); (3, #0); (4, #0); (5, #6595)]%js.
Proof.
  split; [|split; [|split; [|split; [|split; [|split; [|split]]]]]];
    try reflexivity.
  - split; [simpl; auto | split; [simpl; lia|]].
    intros s Hs Hle. simpl in Hs. decompose [or] Hs; subst; simpl in *; lia.
  - eexists. eexists. eexists.
    split; [vm_compute; reflexivity|].
    split; [vm_compute; reflexivity|].
    split; vm_compute; reflexivity.
Qed.

(** *** The peak multiplier *)

Lemma Usage_monthlyData_at stages config data month :
  Usage.monthlyData stages config = Some data -> 1 <= month <= 36 ->
  length data = 36%nat /\
  exists r, at_index data (month - 1) = Some r /\
            Usage.monthRecord stages config month = Some r.
Proof.
  unfold Usage.monthlyData, for_months. rewrite for_loop_collect.
  destruct (collect _ _ _) as [rs|] eqn:Hrs; [|discriminate].
  intros [= <-] Hm. simpl app.
  destruct (collect_nth _ _ _ _ Hrs) as [Hlen _].
  split; [exact Hlen|].
  pose proof (at_index_month _ _ _ month Hrs) as Hat.
  destruct (at_index rs (month - 1)) as [r|] eqn:Hr.
  - exists r. split; [reflexivity|]. symmetry. apply Hat. simpl. lia.
  - exfalso. unfold at_index in Hr.
    destruct (month - 1 <? 0) eqn:E; [lia|].
    apply nth_error_None in Hr. rewrite Hlen in Hr. lia.
Qed.


(** C3, as the code has it.  In the 36-month projection of the snapshot
    whose configuration carries the peak multiplier, the conversation
    volume of month [M] is the active users times the conversations per day
    times the 22 working days, multiplied by [config.peakMultiplier] when
    [M % 6 == 0] and by 1.0 otherwise; the default multiplier is 1.4. *)
Theorem peak_multiplier_every_sixth_month stages config data month :
  Usage.monthlyData stages config = Some data -> 1 <= month <= 36 ->
  Usage.Config.peakMultiplier Usage.defaultConfig = lit 1.4 /\
  exists r,
    at_index data (month - 1) = Some r /\ MonthlyData.month r = month /\
    MonthlyData.conversations r
    = Math_round
        (MonthlyData.activeUsers r * Usage.Config.conversationsPerDay config
         * #22
         * (if month mod 6 =? 0 then Usage.Config.peakMultiplier config
            else lit 1.0))%js.
Proof.
  intros Hdata Hm. split; [reflexivity|].
  destruct (Usage_monthlyData_at _ _ _ _ Hdata Hm) as (_ & r & Hat & Hr).
  exists r. split; [exact Hat|].
  destruct (Usage_monthRecord_interpolated _ _ _ _ Hr) as (u & d & _ & _ & ->).
  split; [reflexivity|].
  unfold Usage.monthCosts, Usage.conversationVolume, Usage.multiplier. simpl.
  rewrite Z.rem_mod_nonneg by lia. reflexivity.
Qed.

Lemma peak_multiplier_every_sixth_month_witness :
  exists data r,
    Usage.monthlyData defaultStages Usage.defaultConfig = Some data /\
    at_index data (6 - 1) = Some r /\
    MonthlyData.conversations r
    = Math_round (MonthlyData.activeUsers r * #4 * #22 * lit 1.4)%js.
Proof.
  destruct (Usage.monthlyData defaultStages Usage.defaultConfig) as [data|] eqn:Hdata;
    [|vm_compute in Hdata; discriminate].
  destruct (peak_multiplier_every_sixth_month defaultStages Usage.defaultConfig
              data 6 Hdata ltac:(lia)) as (_ & r & Hat & _ & Hconv).
  exists data, r. split; [reflexivity|]. split; [exact Hat|]. exact Hconv.
Defined.

(** C3, as stated, fails on the agent-portfolio snapshot, which has no peak
    multiplier: at month 6 of the default rollout the recorded conversation
    volume is the plain sum over the deployed agents (45413), not that sum
    multiplied by 1.4 (63577). *)
Lemma portfolio_month6_not_peaked :
  exists r t,
    Portfolio.monthRecord defaultStages defaultAgents Portfolio.defaultConfig 6
    = Some r /\
    fold_left (Portfolio.aggregateAgent 6 (MonthlyData.users r) (MonthlyData.dau r)
                 (Portfolio.currentStage defaultStages 6))
      defaultAgents (Some (#0, #0, #0)%js) = Some t /\
    MonthlyData.conversations r = Math_round (fst (fst t)) /\
    MonthlyData.conversations r = #45413%js /\
    Math_round (fst (fst t) * lit 1.4)%js = #63577%js /\
    MonthlyData.conversations r <> Math_round (fst (fst t) * lit 1.4)%js.
Proof.
  eexists. eexists.
  split; [vm_compute; reflexivity|].
  split; [vm_compute; reflexivity|].
  vm_compute. repeat split; try reflexivity. discriminate.
Qed.

End RolloutFacts.

(** ** The agent-portfolio snapshot: months without users *)

Module PortfolioFacts.
Import Rollout RolloutSpec PortfolioSpec RolloutFacts.

Create HintDb zeros.
#[local] Hint Resolve mul_zero_finite add_zero sub_zero Math_round_zero
  is_zero_finite : zeros.
#[local] Hint Extern 1 (is_finite (lit _) = true) => reflexivity : zeros.
#[local] Hint Extern 1 (is_finite (# _)%js = true) => reflexivity : zeros.
#[local] Hint Extern 1 (is_zero (# 0)%js = true) => reflexivity : zeros.

Lemma Math_min_zero h u :
  is_zero u = true -> geb h #0 = true -> is_zero (Math_min h u) = true.
Proof.
  destruct u as [us| | |]; try discriminate. intros _.
  destruct h as [hs|[]| |[] hm he]; simpl; intros H;
    try discriminate; reflexivity.
Qed.

Lemma gtb_zero u : is_zero u = true -> gtb u #0 = false.
Proof. destruct u; try discriminate. reflexivity. Qed.

Lemma eligibleUsers_zero segments stage users e :
  is_zero users = true ->
  eligibleUsers segments stage users = Some e -> is_zero e = true.
Proof.
  intros Hu. unfold eligibleUsers.
  repeat match goal with
  | |- context [if ?c then _ else _] => destruct c
  | |- context [match ?o with Some _ => _ | None => _ end] => destruct o
  end; intros [= <-]; auto with zeros.
Qed.

Lemma fold_aggregate_thrown month users dau stage agents :
  fold_left (Portfolio.aggregateAgent month users dau stage) agents None = None.
Proof. induction agents as [|a agents IH]; simpl; auto. Qed.

(** With no users in a month, the running totals of the aggregation stay
    zero. *)
Lemma fold_aggregate_zero month users dau stage agents :
  is_zero users = true -> is_finite dau = true ->
  forallb finiteAgent agents = true ->
  forall tc tcr ta t,
    is_zero tc = true -> is_zero tcr = true -> is_zero ta = true ->
    fold_left (Portfolio.aggregateAgent month users dau stage) agents
      (Some (tc, tcr, ta)) = Some t ->
    is_zero (fst (fst t)) = true /\ is_zero (snd (fst t)) = true
    /\ is_zero (snd t) = true.
Proof.
  intros Hu Hdau. induction agents as [|a agents IH]; intros Hfin tc tcr ta t H1 H2 H3.
  - simpl. intros [= <-]. auto.
  - simpl in Hfin. apply andb_true_iff in Hfin. destruct Hfin as [Ha Hfin].
    unfold finiteAgent in Ha. apply andb_true_iff in Ha. destruct Ha as [Ha Hcr].
    apply andb_true_iff in Ha. destruct Ha as [Hcpd Hact].
    cbn [fold_left].
    destruct (Portfolio.aggregateAgent month users dau stage (Some (tc, tcr, ta)) a)
      as [[[tc' tcr'] ta']|] eqn:Hstep.
    + apply IH; auto; revert Hstep; unfold Portfolio.aggregateAgent;
        (destruct (negb (Agent.enabled a) || ltb #month (Agent.deployMonth a));
         [intros [= <- <- <-]; assumption|]);
        (destruct (eligibleUsers (Agent.segments a) stage users) as [e|] eqn:He;
         [|discriminate]);
        pose proof (eligibleUsers_zero _ _ _ _ Hu He) as Hez;
        intros [= <- <- <-]; unfold Portfolio.DAYS_PER_MONTH; auto 10 with zeros.
    + now rewrite fold_aggregate_thrown.
Qed.

Lemma monthCosts_zero config month users dau tc tcr ta :
  is_zero users = true ->
  is_zero tc = true -> is_zero tcr = true -> is_zero ta = true ->
  is_finite (Portfolio.Config.m365CopilotPrice config) = true ->
  is_finite (Portfolio.Config.autonomousActionRatio config) = true ->
  geb (Portfolio.Config.hybridM365Users config) #0 = true ->
  zeroCosts (Portfolio.monthCosts config month users dau (tc, tcr, ta)) = true.
Proof.
  intros Hu H1 H2 H3 Hprice Hratio Hhybrid.
  pose proof (Math_min_zero _ _ Hu Hhybrid) as Hmin.
  unfold zeroCosts, Portfolio.monthCosts. rewrite (gtb_zero _ Hu).
  cbn [MonthlyData.paygCost MonthlyData.p3Cost MonthlyData.paygM365Cost
       MonthlyData.p3M365Cost MonthlyData.m365AllCost].
  unfold Portfolio.paygRate, Portfolio.p3Discount.
  assert (Hone : is_finite (#1 - lit 0.15)%js = true) by reflexivity.
  assert (Hone' : is_finite (#1 - #0)%js = true) by reflexivity.
  assert (Husage : is_zero (ta * (#1 - #0)
                            * Portfolio.Config.autonomousActionRatio config
                            * #5 + tcr * #0)%js = true)
    by auto 10 with zeros.
  repeat (apply andb_true_iff; split); auto 10 with zeros.
Qed.

(** C10, as the code has it.  In a month whose interpolated total user
    count is 0 the guard [users > 0] of the hybrid models is false, so the
    credit split uses [userRatio = 0] and nothing is divided by the user
    count.  When the month's daily-active fraction, the usage figures of the
    agents, the price and the autonomous-action ratio are finite and the
    hybrid seat count is not negative, all five monthly cost fields are
    zero, hence finite, never NaN or an infinity. *)
Theorem hybrid_zero_users stages agents config month (r : MonthlyData.t) :
  Portfolio.monthRecord stages agents config month = Some r ->
  is_zero (MonthlyData.users r) = true ->
  is_finite (MonthlyData.dau r) = true ->
  forallb finiteAgent agents = true ->
  is_finite (Portfolio.Config.m365CopilotPrice config) = true ->
  is_finite (Portfolio.Config.autonomousActionRatio config) = true ->
  geb (Portfolio.Config.hybridM365Users config) #0 = true ->
  gtb (MonthlyData.users r) #0 = false /\
  zeroCosts r = true /\
  is_finite (MonthlyData.paygCost r) = true /\
  is_finite (MonthlyData.p3Cost r) = true /\
  is_finite (MonthlyData.paygM365Cost r) = true /\
  is_finite (MonthlyData.p3M365Cost r) = true /\
  is_finite (MonthlyData.m365AllCost r) = true.
Proof.
  intros Hr Hu Hdau Hagents Hprice Hratio Hhybrid.
  assert (Hz : zeroCosts r = true).
  { revert Hr Hu Hdau. unfold Portfolio.monthRecord.
    destruct (interpolateValue month _ _ Stage.users) as [u|]; [|discriminate].
    destruct (interpolateValue month _ _ Stage.dau) as [d|]; [|discriminate].
    destruct (fold_left _ agents _) as [[[tc tcr] ta]|] eqn:Hfold; [|discriminate].
    intros [= <-]. simpl. intros Hu Hdau.
    destruct (fold_aggregate_zero _ _ _ _ _ Hu Hdau Hagents #0%js #0%js #0%js _
                eq_refl eq_refl eq_refl Hfold) as (H1 & H2 & H3).
    now apply monthCosts_zero. }
  split; [now apply gtb_zero|]. split; [exact Hz|].
  unfold zeroCosts in Hz.
  repeat (apply andb_true_iff in Hz; destruct Hz as [Hz ?]).
  repeat split; now apply is_zero_finite.
Qed.

(** The Pilot stage set to 0 users: month 1 of the rollout has no users. *)
Lemma hybrid_zero_users_witness :
  exists r,
    Portfolio.monthRecord
      [emptyPilot; hqExpansion; fullHQ; hqMgmt; allMgmt; mgmtStores; nearComplete]
      defaultAgents Portfolio.defaultConfig 1 = Some r /\
    zeroCosts r = true.
Proof.
  destruct (Portfolio.monthRecord
              [emptyPilot; hqExpansion; fullHQ; hqMgmt; allMgmt; mgmtStores;
               nearComplete]
              defaultAgents Portfolio.defaultConfig 1) as [r|] eqn:Hr;
    [|vm_compute in Hr; discriminate].
  exists r. split; [reflexivity|].
  pose proof Hr as Hr'. vm_compute in Hr'. injection Hr' as <-.
  apply (proj2 (hybrid_zero_users _ _ _ _ _ Hr eq_refl eq_refl eq_refl eq_refl
                  eq_refl eq_refl)).
Defined.

(** C10, as stated, fails on inputs that the settings panel stores.  With
    the price field cleared the price is NaN, and in a month without users
    the three seat-based cost fields are NaN although the guard keeps
    [userRatio] at 0.  With "-5" typed into the hybrid seat field the seat
    component is [min(-5, 0) * 30 = -150], not 0. *)
Lemma hybrid_zero_users_not_guarded :
  exists r r',
    Portfolio.monthRecord
      [emptyPilot; hqExpansion; fullHQ; hqMgmt; allMgmt; mgmtStores; nearComplete]
      defaultAgents clearedPrice 1 = Some r /\
    is_zero (MonthlyData.users r) = true /\
    Portfolio.Config.m365CopilotPrice clearedPrice = NaN /\
    MonthlyData.paygM365Cost r = NaN /\
    MonthlyData.p3M365Cost r = NaN /\
    MonthlyData.m365AllCost r = NaN /\
    Portfolio.monthRecord
      [emptyPilot; hqExpansion; fullHQ; hqMgmt; allMgmt; mgmtStores; nearComplete]
      defaultAgents negativeSeats 1 = Some r' /\
    is_zero (MonthlyData.users r') = true /\
    Portfolio.Config.hybridM365Users negativeSeats = #(-5)%js /\
    MonthlyData.paygM365Cost r' = #(-150)%js /\
    MonthlyData.p3M365Cost r' = #(-150)%js.
Proof.
  eexists. eexists. split; [vm_compute; reflexivity|].
  split; [reflexivity|]. split; [reflexivity|]. split; [reflexivity|].
  split; [reflexivity|]. split; [reflexivity|].
  split; [vm_compute; reflexivity|].
  vm_compute. repeat split; reflexivity.
Qed.

(** ** The licensing breakpoint search *)

(** *** The projection and the simulation return *)


(** With at least one stage the 36-month projection is produced. *)
Lemma monthlyData_defined stages agents config :
  stages <> [] -> exists data, Portfolio.monthlyData stages agents config = Some data.
Proof.
  intros Hne. unfold Portfolio.monthlyData, for_months.
  rewrite for_loop_collect.
  destruct (collect_total (Portfolio.monthRecord stages agents config)
              (Z.to_nat 36) 1) as [rs Hrs].
  - intros i _. now apply monthRecord_defined.
  - rewrite Hrs. now exists ([] ++ rs).
Qed.



(** *** The most common segment *)

Lemma countOf_countSegment k seg counts :
  countOf k (Portfolio.countSegment seg counts)
  = countOf k counts + (if (k =? seg)%string then 1 else 0).
Proof.
  unfold countOf. induction counts as [|[k0 n] counts IH]; simpl.
  - rewrite String.eqb_sym. destruct (k =? seg)%string; reflexivity.
  - destruct (String.eqb_spec k0 seg) as [->|Hk0]; simpl.
    + destruct (String.eqb_spec seg k) as [->|Hk].
      * rewrite String.eqb_refl. reflexivity.
      * destruct (String.eqb_spec k seg); [congruence | lia].
    + destruct (String.eqb_spec k0 k) as [->|Hk].
      * destruct (String.eqb_spec k seg); [congruence | simpl; lia].
      * exact IH.
Qed.

Lemma countSegment_keys k seg counts :
  In k (map fst (Portfolio.countSegment seg counts)) ->
  k = seg \/ In k (map fst counts).
Proof.
  induction counts as [|[k0 n] counts IH]; simpl.
  - intros [<-|[]]. now left.
  - destruct (k0 =? seg)%string; simpl.
    + intros [<-|H]; auto.
    + intros [<-|H]; auto. destruct (IH H); auto.
Qed.

Lemma countSegment_NoDup seg counts :
  NoDup (map fst counts) -> NoDup (map fst (Portfolio.countSegment seg counts)).
Proof.
  induction counts as [|[k0 n] counts IH]; simpl; intros Hnd.
  - constructor; [easy | constructor].
  - inversion Hnd as [|? ? Hnotin Hnd']; subst.
    destruct (String.eqb_spec k0 seg) as [->|Hk0]; simpl.
    + now constructor.
    + constructor; [|auto]. intros Hin.
      destruct (countSegment_keys _ _ _ Hin); [congruence | contradiction].
Qed.

Lemma countOf_In k n counts :
  NoDup (map fst counts) -> In (k, n) counts -> countOf k counts = n.
Proof.
  unfold countOf. induction counts as [|[k0 n0] counts IH]; simpl; intros Hnd Hin.
  - contradiction.
  - inversion Hnd as [|? ? Hnotin Hnd']; subst.
    destruct Hin as [[= -> ->]|Hin].
    + now rewrite String.eqb_refl.
    + destruct (String.eqb_spec k0 k) as [->|Hk]; [|auto].
      exfalso. apply Hnotin. apply in_map_iff. now exists (k, n).
Qed.

Lemma countOf_absent k counts :
  ~ In k (map fst counts) -> countOf k counts = 0.
Proof.
  unfold countOf. intros Hnotin.
  destruct (find _ counts) as [[k' n']|] eqn:Hf; [|reflexivity].
  apply find_some in Hf. destruct Hf as [Hin Heq]. simpl in Heq.
  apply String.eqb_eq in Heq. subst k'.
  exfalso. apply Hnotin. apply in_map_iff. now exists (k, n').
Qed.

Lemma fold_countSegment k segs counts :
  NoDup (map fst counts) ->
  NoDup (map fst (fold_left (fun c seg => Portfolio.countSegment seg c) segs counts)) /\
  countOf k (fold_left (fun c seg => Portfolio.countSegment seg c) segs counts)
  = countOf k counts + Z.of_nat (count_occ string_dec segs k).
Proof.
  revert counts. induction segs as [|seg segs IH]; intros counts Hnd; simpl.
  - split; [exact Hnd | lia].
  - destruct (IH _ (countSegment_NoDup seg counts Hnd)) as [Hnd' Hc].
    split; [exact Hnd'|]. rewrite Hc, countOf_countSegment.
    destruct (string_dec seg k) as [->|Hne].
    + rewrite String.eqb_refl. lia.
    + destruct (String.eqb_spec k seg); [congruence | lia].
Qed.

Lemma fold_segmentCounts k agents counts :
  NoDup (map fst counts) ->
  let result :=
    fold_left (fun counts a =>
                 fold_left (fun c seg => Portfolio.countSegment seg c)
                   (Agent.segments a) counts) agents counts in
  NoDup (map fst result) /\
  countOf k result = countOf k counts + occurrences k agents.
Proof.
  unfold occurrences. revert counts.
  induction agents as [|a agents IH]; intros counts Hnd; simpl.
  - split; [exact Hnd | lia].
  - destruct (fold_countSegment k (Agent.segments a) counts Hnd) as [Hnd' Hc].
    destruct (IH _ Hnd') as [Hnd'' Hc'].
    split; [exact Hnd''|]. rewrite Hc', Hc, count_occ_app. lia.
Qed.

(** The map counts every segment by its occurrences. *)
Lemma segmentCounts_occurrences k agents :
  NoDup (map fst (Portfolio.segmentCounts agents)) /\
  countOf k (Portfolio.segmentCounts agents) = occurrences k agents.
Proof.
  destruct (fold_segmentCounts k agents [] (NoDup_nil _)) as [Hnd Hc].
  split; [exact Hnd | exact Hc].
Qed.

Lemma insertByCount_In x a sorted :
  In x (Portfolio.insertByCount a sorted) <-> x = a \/ In x sorted.
Proof.
  induction sorted as [|b sorted IH]; simpl.
  - intuition.
  - destruct (snd b - snd a <=? 0); simpl; [intuition|].
    rewrite IH. intuition.
Qed.

Lemma sortByCount_In x entries :
  In x (Portfolio.sortByCount entries) <-> In x entries.
Proof.
  induction entries as [|a entries IH]; simpl; [reflexivity|].
  rewrite insertByCount_In, IH. intuition.
Qed.

(** The first entry after sorting has the largest count. *)
Lemma sortByCount_hd_max entries h :
  hd_error (Portfolio.sortByCount entries) = Some h ->
  forall x, In x entries -> snd x <= snd h.
Proof.
  revert h. induction entries as [|a entries IH]; intros h; simpl; [discriminate|].
  destruct (Portfolio.sortByCount entries) as [|b sorted] eqn:Hs; simpl.
  - intros [= <-] x [<-|Hx]; [lia|].
    apply sortByCount_In in Hx. rewrite Hs in Hx. contradiction.
  - specialize (IH b eq_refl).
    destruct (snd b - snd a <=? 0) eqn:Hcmp; simpl; intros [= <-] x [<-|Hx].
    + lia.
    + apply Z.leb_le in Hcmp. specialize (IH _ Hx). lia.
    + apply Z.leb_gt in Hcmp. lia.
    + auto.
Qed.




(** *** The scan *)


(** *** The simulated average agents *)








(** On the default inputs the search stops at 73 additional agents: 78
    agents in all, on the segment "HQ". *)
Lemma default_breakpoint :
  exists b,
    Portfolio.projectBreakpoint defaultStages defaultAgents Portfolio.defaultConfig
    = Some b /\
    Portfolio.mostCommonSegment defaultAgents = Some "HQ" /\
    Portfolio.Breakpoint.hasBreakpoint b = true /\
    Portfolio.Breakpoint.additionalAgents b = 73 /\
    Portfolio.Breakpoint.breakpointAgentCount b = 78 /\
    Portfolio.Breakpoint.currentPaygTotal b = #4144328%js /\
    Portfolio.Breakpoint.currentM365Total b = #14767800%js /\
    Portfolio.Breakpoint.breakpointPaygTotal b = #14802553%js.
Proof.
  eexists. split; [vm_compute; reflexivity|].
  vm_compute. repeat split; reflexivity.
Qed.


End PortfolioFacts.

(** ** The usage-parameter snapshot: the breakeven threshold *)

Module UsageFacts.
Import Rollout UsageSpec.

(** Whatever the configured price, [licensingImpact] compares against the
    literal 3000. *)
Lemma recommendM365_threshold costs data :
  Usage.LicensingImpact.recommendM365 (Usage.licensingImpact costs data)
  = gtb (Usage.LicensingImpact.avgCreditsPerUserMonth
           (Usage.licensingImpact costs data)) #3000%js.
Proof. reflexivity. Qed.

(** C9, on the usage-parameter snapshot.  With the M365 Copilot price set
    to 25 the breakeven is 25 / 0.01 = 2500 credits per user and month, but
    [licensingImpact] keeps its own constant 3000: for an agent that
    consumes 2640 credits (26.40 dollars) per active user and month it does
    not recommend the 25-dollar seat. *)
Theorem licensingImpact_hardcoded_breakeven :
  Usage.BREAKEVEN_CREDITS = #3000%js /\
  (Usage.Config.m365CopilotPrice negotiatedConfig / lit 0.01)%js = #2500%js /\
  exists impact,
    Usage.projectLicensingImpact defaultStages [researchAssistant] negotiatedConfig
    = Some impact /\
    Usage.LicensingImpact.avgCreditsPerUserMonth impact = #2640%js /\
    Usage.LicensingImpact.monthlyCostPerUser impact = lit 26.4 /\
    Usage.LicensingImpact.recommendM365 impact = false /\
    gtb (Usage.LicensingImpact.avgCreditsPerUserMonth impact)
        (Usage.Config.m365CopilotPrice negotiatedConfig / lit 0.01)%js = true.
Proof.
  split; [reflexivity|]. split; [vm_compute; reflexivity|].
  eexists. split; [vm_compute; reflexivity|].
  vm_compute. repeat split; reflexivity.
Qed.

End UsageFacts.

(** * Further properties of the code *)

(** ** The calculator over [calculations.ts] *)

Module CalculatorFacts.
Import NumberSpec Calculations CalculationsSpec CalculationsFacts CalculatorForm.
Import CalculatorSpec.

(* the facts about validateNumber, by rank *)
Lemma validateNumber_rank value min max :
  leb min max = true ->
  let r := validateNumber value min max in
  let num := if isNaN value then min else value in
  isNaN r = false /\
  ~ below (rank r) (rank min) /\ ~ below (rank max) (rank r) /\
  (~ below (rank num) (rank min) -> ~ below (rank max) (rank num) ->
   rank r = rank num).
Proof.
  intros Hle. unfold validateNumber. cbv zeta.
  set (num := if isNaN value then min else value).
  apply leb_below in Hle. destruct Hle as (Hmin & Hmax & Hle).
  assert (Hnum : isNaN num = false).
  { subst num. destruct (isNaN value) eqn:E; auto. }
  destruct (Math_max_rank num min Hnum Hmin) as (HM & HMc & HM1 & HM2).
  destruct (Math_min_rank (Math_max num min) max HM Hmax) as (Hr & Hrc & Hr1 & Hr2).
  split; [exact Hr|]. split; [|split; [exact Hr2|]].
  - destruct Hrc as [-> | ->]; assumption.
  - intros H1 H2.
    assert (HMnum : rank (Math_max num min) = rank num).
    { destruct HMc as [HMc|HMc]; [exact HMc|]. rewrite HMc in *.
      now apply below_antisym. }
    destruct Hrc as [-> | Hrc]; [exact HMnum|].
    rewrite Hrc, HMnum in *. now apply below_antisym.
Qed.

(** X1. The clamp: for bounds [min <= max], whatever [value] is (NaN and
    the infinities included) the result lies between the bounds. *)
Theorem validateNumber_within_bounds value min max :
  leb min max = true ->
  leb min (validateNumber value min max) = true /\
  leb (validateNumber value min max) max = true.
Proof.
  intros Hle. destruct (validateNumber_rank value min max Hle) as (Hr & H1 & H2 & _).
  pose proof Hle as Hle'. apply leb_below in Hle'. destruct Hle' as (Hmin & Hmax & _).
  split; apply leb_below; auto.
Qed.

Lemma validateNumber_within_bounds_witness :
  leb #0 (validateNumber (S754_infinity false) #0 #100) = true /\
  leb (validateNumber (S754_infinity false) #0 #100) #100 = true.
Proof. apply (validateNumber_within_bounds (S754_infinity false) #0 #100). reflexivity. Defined.

(** X2. A value that already lies between the bounds is returned as it is
    (as [===] has it: a zero may come back with the sign of the bound). *)
Theorem validateNumber_in_range value min max :
  leb min value = true -> leb value max = true ->
  seq (validateNumber value min max) value = true.
Proof.
  intros H1 H2.
  pose proof H1 as H1'. apply leb_below in H1'. destruct H1' as (Hmin & Hv & Hb1).
  pose proof H2 as H2'. apply leb_below in H2'. destruct H2' as (_ & Hmax & Hb2).
  assert (Hle : leb min max = true).
  { apply leb_below. repeat split; auto.
    destruct (rank value) as [[n1 n2] n3], (rank min) as [[a1 a2] a3],
      (rank max) as [[b1 b2] b3]. unfold below in *. lia. }
  destruct (validateNumber_rank value min max Hle) as (Hr & _ & _ & Heq).
  rewrite Hv in Heq. apply seq_rank. repeat split; auto.
Qed.

(** X3. NaN is replaced by the lower bound. *)
Theorem validateNumber_NaN min max :
  leb min max = true -> seq (validateNumber NaN min max) min = true.
Proof.
  intros Hle. destruct (validateNumber_rank NaN min max Hle) as (Hr & _ & _ & Heq).
  simpl in Heq.
  apply leb_below in Hle. destruct Hle as (Hmin & Hmax & Hle).
  apply seq_rank. repeat split; auto. apply Heq; [|exact Hle].
  destruct (rank min) as [[a1 a2] a3]. unfold below. lia.
Qed.

Lemma validateNumber_in_range_witness :
  seq (validateNumber #50 #0 #100) #50 = true.
Proof. apply (validateNumber_in_range #50 #0 #100); reflexivity. Defined.

Lemma validateNumber_NaN_witness : seq (validateNumber NaN #0 #100) #0 = true.
Proof. apply (validateNumber_NaN #0 #100). reflexivity. Defined.

(** X4. With the bounds the wrong way round, [max] below [min], the
    result is [max] whatever the value. *)
Theorem validateNumber_inverted_bounds value min max :
  ltb max min = true -> seq (validateNumber value min max) max = true.
Proof.
  intros Hlt. apply ltb_below in Hlt. destruct Hlt as (Hmax & Hmin & Hlt).
  unfold validateNumber. cbv zeta.
  set (num := if isNaN value then min else value).
  assert (Hnum : isNaN num = false).
  { subst num. destruct (isNaN value) eqn:E; auto. }
  destruct (Math_max_rank num min Hnum Hmin) as (HM & _ & _ & HM2).
  destruct (Math_min_rank (Math_max num min) max HM Hmax) as (Hr & Hrc & _ & Hr2).
  apply seq_rank. repeat split; auto.
  destruct Hrc as [Hrc|Hrc]; [|exact Hrc].
  exfalso. apply Hr2. rewrite Hrc.
  destruct (below_cases (rank (Math_max num min)) (rank min)) as [H|[H|H]].
  - contradiction.
  - now rewrite H.
  - eapply below_trans; eauto.
Qed.

Lemma validateNumber_inverted_bounds_witness :
  seq (validateNumber #50 #100 #0) #0 = true.
Proof. apply (validateNumber_inverted_bounds #50 #100 #0). reflexivity. Defined.

(** X5. Whatever is typed into an advanced setting, the value its handler
    stores lies within the range of the setting (0 to 10000 for the credit
    figures, 0 to 100 for the percentages); in particular it is never
    NaN. *)
Theorem onChange_within_range value :
  (leb #0 (onChange VALIDATION_credits value) = true /\
   leb (onChange VALIDATION_credits value) #10000 = true) /\
  (leb #0 (onChange VALIDATION_percentage value) = true /\
   leb (onChange VALIDATION_percentage value) #100 = true).
Proof.
  unfold onChange. cbn [Range.min Range.max VALIDATION_credits VALIDATION_percentage].
  split.
  - destruct (validateNumber_rank (or_else (parseInt value) #0) #0 #10000 eq_refl)
      as (Hr & H1 & H2 & _).
    split; apply leb_below; auto.
  - destruct (validateNumber_rank (or_else (parseInt value) #0) #0 #100 eq_refl)
      as (Hr & H1 & H2 & _).
    split; apply leb_below; auto.
Qed.

(** *** The scenario matrix *)

Lemma length_flat_map_const {A B : Type} (f : A -> list B) k xs :
  (forall x, length (f x) = k) -> length (flat_map f xs) = (length xs * k)%nat.
Proof.
  intros Hk. induction xs as [|x xs IH]; simpl; [reflexivity|].
  now rewrite length_app, Hk, IH.
Qed.

(** X6. The scenario matrix holds one record for every combination of a
    user count, an agent count and a complexity ratio, and nothing else. *)
Theorem calculateScenarioComparison_combinations us ags cs s c a :
  length (calculateScenarioComparison us ags cs s c a)
  = (length us * (length ags * length cs))%nat /\
  forall r,
    In r (calculateScenarioComparison us ags cs s c a) <->
    exists users agents ratio,
      In users us /\ In agents ags /\ In ratio cs /\
      r = scenario users agents ratio s c a.
Proof.
  rewrite calculateScenarioComparison_matrix. split.
  - unfold scenarioMatrix.
    apply length_flat_map_const. intros users.
    apply length_flat_map_const. intros agents. apply length_map.
  - intros r. split; [apply in_scenarioMatrix|].
    intros (users & agents & ratio & Hu & Ha & Hr & ->).
    unfold scenarioMatrix. apply in_flat_map. exists users. split; [exact Hu|].
    apply in_flat_map. exists agents. split; [exact Ha|].
    apply (in_map (fun ratio => scenario users agents ratio s c a)). exact Hr.
Qed.

(** X7. The scenario picked by the three selectors is always found in the
    matrix: for a user count and an agent count of the scenario lists
    (none of them NaN) and a ratio of the ratio list, [currentScenario] is a
    record of the matrix with these three keys. *)
Theorem currentScenario_found us ags cs s c a userCount agentCount ratio :
  In userCount us -> In agentCount ags -> In ratio cs ->
  isNaN userCount = false -> isNaN agentCount = false ->
  exists r,
    currentScenario (calculateScenarioComparison us ags cs s c a)
      userCount agentCount ratio = Some r /\
    In r (calculateScenarioComparison us ags cs s c a) /\
    seq (ScenarioData.users r) userCount = true /\
    seq (ScenarioData.agents r) agentCount = true /\
    ScenarioData.ratio r = ratio.
Proof.
  intros Hu Ha Hr Hnu Hna. unfold currentScenario.
  destruct (find _ (calculateScenarioComparison us ags cs s c a)) as [r|] eqn:Hf.
  - apply find_some in Hf. destruct Hf as [Hin Hp].
    apply andb_true_iff in Hp. destruct Hp as [Hp Hratio].
    apply andb_true_iff in Hp. destruct Hp as [Husers Hagents].
    exists r. repeat split; auto. now apply String.eqb_eq.
  - exfalso.
    pose proof (find_none _ _ Hf (scenario userCount agentCount ratio s c a)) as Hn.
    assert (Hin : In (scenario userCount agentCount ratio s c a)
                     (calculateScenarioComparison us ags cs s c a)).
    { rewrite calculateScenarioComparison_matrix. unfold scenarioMatrix.
      apply in_flat_map. exists userCount. split; [exact Hu|].
      apply in_flat_map. exists agentCount. split; [exact Ha|].
      apply (in_map (fun ratio => scenario userCount agentCount ratio s c a)).
      exact Hr. }
    specialize (Hn Hin). cbv beta in Hn.
    destruct (scenario_fields userCount agentCount ratio s c a)
      as (-> & -> & -> & _) in Hn.
    rewrite String.eqb_refl in Hn.
    rewrite (proj2 (seq_rank userCount userCount)) in Hn by auto.
    rewrite (proj2 (seq_rank agentCount agentCount)) in Hn by auto.
    discriminate.
Qed.

Lemma currentScenario_found_witness :
  exists r,
    currentScenario
      (calculateScenarioComparison userScenarios agentScenarios
         complexityScenarios #75 #600 #60)
      #1300 #10 "80/20" = Some r /\
    ScenarioData.ratio r = "80/20".
Proof.
  destruct (currentScenario_found userScenarios agentScenarios complexityScenarios
              #75 #600 #60 #1300 #10 "80/20")
    as (r & Hr & _ & _ & _ & Hratio); simpl; auto.
  exists r. auto.
Defined.

(** *** The monthly projection *)

Lemma for_loop_invariant {S : Type} (I : S -> Prop) (body : Z -> S -> S) n month s :
  I s -> (forall m x, I x -> I (body m x)) -> I (for_loop n month body s).
Proof.
  intros Hs Hbody. revert month s Hs.
  induction n as [|n IH]; intros month s Hs; simpl; auto.
Qed.

(** Every record of the projection is one pushed by the loop body. *)
Lemma calculateMonthlyData_records params (P : MonthlyData.t -> Prop) :
  (forall month currentAdoption data,
     exists r, snd (monthlyStep params month (currentAdoption, data)) = data ++ [r]
               /\ P r) ->
  Forall P (calculateMonthlyData params).
Proof.
  intros Hstep. unfold calculateMonthlyData, for_months.
  apply (for_loop_invariant (fun st => Forall P (snd st))); [constructor|].
  intros m [ad data] Hdata. destruct (Hstep m ad data) as (r & -> & Hr).
  apply Forall_app. split; [exact Hdata | now constructor].
Qed.

Lemma split_aux_no_sep sep cur s :
  has_char sep s = false -> split_aux sep cur s = [(cur ++ s)%string].
Proof.
  revert cur. induction s as [|c s IH]; intros cur; simpl.
  - intros _. f_equal. induction cur; simpl; congruence.
  - intros H. apply orb_false_iff in H. destruct H as [Hc Hs].
    rewrite Hc, (IH _ Hs). f_equal.
    clear. induction cur; simpl; congruence.
Qed.

Lemma parsePercents_no_slash ratio :
  has_char "/" ratio = false -> snd (parsePercents ratio) = NaN.
Proof.
  intros H. unfold parsePercents, split. now rewrite (split_aux_no_sep _ _ _ H).
Qed.

(** X8. The complexity ratio is not validated.  If it holds no "/", the
    complex share is missing and no error is raised: the projection still
    has its 24 records, and in every one of them the credits, the PAYG
    cost, the pack cost and the savings are NaN. *)
Theorem calculateMonthlyData_ratio_without_slash params :
  has_char "/" (CalculationParams.complexityRatio params) = false ->
  length (calculateMonthlyData params) = 24%nat /\
  Forall (fun r =>
            MonthlyData.totalCredits r = NaN /\ MonthlyData.paygCost r = NaN /\
            MonthlyData.packCost r = NaN /\ MonthlyData.savings r = NaN)
         (calculateMonthlyData params).
Proof.
  intros H. split; [reflexivity|].
  apply calculateMonthlyData_records. intros month ad data.
  unfold monthlyStep. pose proof (parsePercents_no_slash _ H) as Hcp.
  destruct (parsePercents (CalculationParams.complexityRatio params)) as [sp cp].
  simpl in Hcp. subst cp. eexists. split; [reflexivity|].
  cbn [MonthlyData.totalCredits MonthlyData.paygCost MonthlyData.packCost
       MonthlyData.savings].
  rewrite !mul_nan_r, !add_nan_r, !mul_nan_r. rewrite !mul_nan_l, !sub_nan_r.
  repeat split; reflexivity.
Qed.

Lemma calculateMonthlyData_ratio_without_slash_witness :
  Forall (fun r => MonthlyData.paygCost r = NaN)
    (calculateMonthlyData
       {| CalculationParams.userCount := #1300;
          CalculationParams.complexityRatio := "80";
          CalculationParams.simpleCreditsPerUser := #75;
          CalculationParams.complexCreditsPerUser := #600;
          CalculationParams.year1GrowthRate := #15;
          CalculationParams.adoptionCeiling := #80;
          CalculationParams.steadyStateAdoption := #60 |}).
Proof.
  eapply Forall_impl;
    [|apply (proj2 (calculateMonthlyData_ratio_without_slash
                      {| CalculationParams.userCount := #1300;
                         CalculationParams.complexityRatio := "80";
                         CalculationParams.simpleCreditsPerUser := #75;
                         CalculationParams.complexCreditsPerUser := #600;
                         CalculationParams.year1GrowthRate := #15;
                         CalculationParams.adoptionCeiling := #80;
                         CalculationParams.steadyStateAdoption := #60 |}
                      eq_refl))].
  intros r (_ & Hr & _). exact Hr.
Defined.

(** X9. The adoption never exceeds the ceiling: with a ceiling that is a
    number and a finite growth rate, every record of the projection, in
    Year 1 as in Year 2, has an adoption at or below the ceiling. *)
Theorem adoption_capped params r :
  isNaN (CalculationParams.adoptionCeiling params) = false ->
  is_finite (CalculationParams.year1GrowthRate params) = true ->
  In r (calculateMonthlyData params) ->
  leb (MonthlyData.adoption r) (CalculationParams.adoptionCeiling params) = true.
Proof.
  intros Hc Hg Hr.
  apply (in_map (fun r => (MonthlyData.month r, MonthlyData.adoption r))) in Hr.
  rewrite calculateMonthlyData_series in Hr.
  apply in_map_iff in Hr. destruct Hr as (m & Heq & Hm).
  injection Heq as _ <-. unfold year1Adoption.
  apply Math_min_leb_l; [exact Hc|].
  apply add_finite_not_nan; [reflexivity|].
  apply mul_finite_not_nan; [|exact Hg].
  simpl in Hm. decompose [or] Hm; subst; try reflexivity; contradiction.
Qed.

Lemma adoption_capped_witness :
  Forall (fun r => leb (MonthlyData.adoption r) #80 = true)
    (calculateMonthlyData baseParams).
Proof.
  apply Forall_forall. intros r Hr.
  exact (adoption_capped baseParams r eq_refl eq_refl Hr).
Defined.

Lemma monthlyStep_recordAt params month currentAdoption data :
  monthlyStep params month (currentAdoption, data)
  = let adoption := if month <=? 12 then year1Adoption params month
                    else currentAdoption in
    (adoption, data ++ [recordAt params month adoption]).
Proof.
  unfold monthlyStep, recordAt, creditsPerUser, year1Adoption.
  destruct (parsePercents (CalculationParams.complexityRatio params)) as [sp cp].
  reflexivity.
Qed.

Lemma year1_loop params n :
  forall month currentAdoption data,
    month + Z.of_nat n <= 13 ->
    for_loop n month (monthlyStep params) (currentAdoption, data)
    = (match n with
       | O => currentAdoption
       | S _ => year1Adoption params (month + Z.of_nat n - 1)
       end,
       data ++ map (fun m => recordAt params m (year1Adoption params m))
                 (months n month)).
Proof.
  induction n as [|n IH]; intros month ad data Hm.
  - simpl. now rewrite app_nil_r.
  - cbn [for_loop months map]. rewrite monthlyStep_recordAt. cbv zeta.
    destruct (month <=? 12) eqn:E; [|apply Z.leb_gt in E; lia].
    rewrite IH by lia. rewrite <- app_assoc. cbn [app]. f_equal.
    destruct n as [|n].
    + f_equal. lia.
    + f_equal. lia.
Qed.

Lemma year2_loop params n :
  forall month currentAdoption data,
    12 < month ->
    for_loop n month (monthlyStep params) (currentAdoption, data)
    = (currentAdoption,
       data ++ map (fun m => recordAt params m currentAdoption) (months n month)).
Proof.
  induction n as [|n IH]; intros month ad data Hm.
  - simpl. now rewrite app_nil_r.
  - cbn [for_loop months map]. rewrite monthlyStep_recordAt. cbv zeta.
    destruct (month <=? 12) eqn:E; [apply Z.leb_le in E; lia|].
    rewrite IH by lia. rewrite <- app_assoc. reflexivity.
Qed.

Lemma for_loop_add {S : Type} (body : Z -> S -> S) n1 n2 month s :
  for_loop (n1 + n2) month body s
  = for_loop n2 (month + Z.of_nat n1) body (for_loop n1 month body s).
Proof.
  revert month s. induction n1 as [|n1 IH]; intros month s.
  - simpl. f_equal. lia.
  - cbn [Nat.add for_loop]. rewrite IH. f_equal. lia.
Qed.

(** The projection in closed form: twelve records at the adoption of
    their month, then twelve at the adoption of month 12. *)
Lemma calculateMonthlyData_closed params :
  calculateMonthlyData params
  = map (fun m => recordAt params m (year1Adoption params m)) (months 12 1)
    ++ map (fun m => recordAt params m (year1Adoption params 12)) (months 12 13).
Proof.
  unfold calculateMonthlyData, for_months.
  change (Z.to_nat 24) with (12 + 12)%nat. rewrite for_loop_add.
  rewrite year1_loop by lia. change (1 + Z.of_nat 12 - 1) with 12.
  change (1 + Z.of_nat 12) with 13. rewrite year2_loop by lia. reflexivity.
Qed.

(** X10. Year 2 is flat: every record of months 13 to 24 repeats the
    adoption, the active users, the credits and the four cost figures of
    month 12; only the month and the year label differ. *)
Theorem year2_repeats_month12 params m :
  13 <= m <= 24 ->
  exists r r12,
    at_index (calculateMonthlyData params) (m - 1) = Some r /\
    at_index (calculateMonthlyData params) (12 - 1) = Some r12 /\
    MonthlyData.month r = m /\
    MonthlyData.year r = "Year 2" /\ MonthlyData.year r12 = "Year 1" /\
    MonthlyData.adoption r = MonthlyData.adoption r12 /\
    MonthlyData.activeUsers r = MonthlyData.activeUsers r12 /\
    MonthlyData.totalCredits r = MonthlyData.totalCredits r12 /\
    MonthlyData.paygCost r = MonthlyData.paygCost r12 /\
    MonthlyData.packCost r = MonthlyData.packCost r12 /\
    MonthlyData.m365Cost r = MonthlyData.m365Cost r12 /\
    MonthlyData.savings r = MonthlyData.savings r12.
Proof.
  intros Hm. rewrite calculateMonthlyData_closed.
  exists (recordAt params m (year1Adoption params 12)),
         (recordAt params 12 (year1Adoption params 12)).
  split.
  - assert (Hcases : m = 13 \/ m = 14 \/ m = 15 \/ m = 16 \/ m = 17 \/ m = 18
                     \/ m = 19 \/ m = 20 \/ m = 21 \/ m = 22 \/ m = 23 \/ m = 24)
      by lia.
    repeat (destruct Hcases as [-> | Hcases]); try subst m; reflexivity.
  - split; [reflexivity|]. cbn [recordAt MonthlyData.month MonthlyData.year
      MonthlyData.adoption MonthlyData.activeUsers MonthlyData.totalCredits
      MonthlyData.paygCost MonthlyData.packCost MonthlyData.m365Cost
      MonthlyData.savings].
    destruct (m <=? 12) eqn:E; [apply Z.leb_le in E; lia|].
    repeat split; reflexivity.
Qed.

Lemma year2_repeats_month12_witness :
  exists r r12,
    at_index (calculateMonthlyData baseParams) (20 - 1) = Some r /\
    at_index (calculateMonthlyData baseParams) (12 - 1) = Some r12 /\
    MonthlyData.paygCost r = MonthlyData.paygCost r12.
Proof.
  destruct (year2_repeats_month12 baseParams 20 ltac:(lia))
    as (r & r12 & Hr & Hr12 & _ & _ & _ & _ & _ & _ & Hp & _).
  exists r, r12. auto.
Defined.

End CalculatorFacts.

(** ** The state handlers of the rollout component *)

Module ComponentFacts.
Import Rollout RolloutSpec ComponentSpec Component.

(** *** The stage editor *)

Lemma set_at_length {A : Type} (xs : list A) i x :
  length (set_at xs i x) = length xs.
Proof.
  revert i. induction xs as [|y xs IH]; intros [|i]; simpl; auto.
Qed.

Lemma set_at_nth_error {A : Type} (xs : list A) i j x :
  (i < length xs)%nat ->
  nth_error (set_at xs i x) j = if Nat.eqb j i then Some x else nth_error xs j.
Proof.
  revert i j. induction xs as [|y xs IH]; intros [|i] [|j] Hi; simpl in *;
    try lia; auto.
  apply IH. lia.
Qed.

Lemma set_at_map {A B : Type} (f : A -> B) (xs : list A) i x y :
  nth_error xs i = Some y -> f x = f y -> map f (set_at xs i x) = map f xs.
Proof.
  revert i. induction xs as [|z xs IH]; intros [|i]; simpl; try discriminate.
  - intros [= ->] ->. reflexivity.
  - intros Hy Hf. f_equal. now apply IH.
Qed.

Lemma increasing_step a b rest :
  increasing (a :: b :: rest)
  = (Stage.month a <? Stage.month b) && increasing (b :: rest).
Proof. reflexivity. Qed.

Lemma increasing_months s1 s2 :
  map Stage.month s1 = map Stage.month s2 -> increasing s1 = increasing s2.
Proof.
  revert s2. induction s1 as [|a s1 IH]; intros [|b s2]; try discriminate; auto.
  intros [= Hab Hrest]. destruct s1 as [|a' s1], s2 as [|b' s2]; try discriminate; auto.
  rewrite !increasing_step, (IH (b' :: s2) Hrest).
  injection Hrest as Hab' _. now rewrite Hab, Hab'.
Qed.

Lemma at_index_Some {A : Type} (xs : list A) i x :
  at_index xs i = Some x ->
  0 <= i < Z.of_nat (length xs) /\ nth_error xs (Z.to_nat i) = Some x.
Proof.
  unfold at_index. destruct (i <? 0) eqn:E; [discriminate|].
  apply Z.ltb_ge in E. intros H. split; [|exact H].
  assert (Hlt : (Z.to_nat i < length xs)%nat)
    by (apply nth_error_Some; congruence).
  lia.
Qed.

Lemma at_index_None {A : Type} (xs : list A) i :
  at_index xs i = None <-> ~ (0 <= i < Z.of_nat (length xs)).
Proof.
  unfold at_index. destruct (i <? 0) eqn:E.
  - apply Z.ltb_lt in E. split; [lia | reflexivity].
  - apply Z.ltb_ge in E. rewrite nth_error_None. lia.
Qed.

(** X11. The stage editor changes one value of one stage: the stages keep
    their number, names, anchor months and phases, so a rollout whose
    anchor months increase stays so. *)
Theorem updateStage_keeps_anchors stages index field value stages' :
  updateStage stages index field value = Some stages' ->
  length stages' = length stages /\
  map Stage.name stages' = map Stage.name stages /\
  map Stage.month stages' = map Stage.month stages /\
  map Stage.phase stages' = map Stage.phase stages /\
  increasing stages' = increasing stages.
Proof.
  unfold updateStage.
  destruct (index <? 0); [intros [= <-]; repeat split; reflexivity|].
  destruct (at_index stages index) as [stage|] eqn:Hat; [|discriminate].
  apply at_index_Some in Hat. destruct Hat as [_ Hnth]. intros [= <-].
  assert (Hm : map Stage.month (set_at stages (Z.to_nat index)
                 match field with
                 | users =>
                     {| Stage.name := Stage.name stage; Stage.users := value;
                        Stage.month := Stage.month stage; Stage.dau := Stage.dau stage;
                        Stage.phase := Stage.phase stage |}
                 | dau =>
                     {| Stage.name := Stage.name stage;
                        Stage.users := Stage.users stage;
                        Stage.month := Stage.month stage;
                        Stage.dau := (value / #100)%js;
                        Stage.phase := Stage.phase stage |}
                 end) = map Stage.month stages)
    by (apply set_at_map with (y := stage); [exact Hnth | now destruct field]).
  split; [apply set_at_length|].
  split; [apply set_at_map with (y := stage); [exact Hnth | now destruct field]|].
  split; [exact Hm|].
  split; [apply set_at_map with (y := stage); [exact Hnth | now destruct field]|].
  now apply increasing_months.
Qed.

Lemma updateStage_keeps_anchors_witness :
  exists stages',
    updateStage defaultStages 2 dau #50 = Some stages' /\
    increasing stages' = true.
Proof.
  destruct (updateStage defaultStages 2 dau #50) as [stages'|] eqn:Hu;
    [|vm_compute in Hu; discriminate].
  exists stages'. split; [reflexivity|].
  destruct (updateStage_keeps_anchors _ _ _ _ _ Hu) as (_ & _ & _ & _ & ->).
  reflexivity.
Defined.

(** X12. For every index below the length of the array [updateStage]
    yields an array of stages.  For an index inside the array the edited
    stage reads back the new value (a percentage divided by 100 for the
    daily-active field) with its other value untouched; for a negative
    index nothing changes; in both cases every other stage is unchanged. *)
Theorem updateStage_reads_back stages index field value :
  index < Z.of_nat (length stages) ->
  exists stages',
    updateStage stages index field value = Some stages' /\
    (forall j, j <> index -> at_index stages' j = at_index stages j) /\
    (index < 0 -> stages' = stages) /\
    (0 <= index ->
     exists old new,
       at_index stages index = Some old /\ at_index stages' index = Some new /\
       match field with
       | users => Stage.users new = value /\ Stage.dau new = Stage.dau old
       | dau => Stage.dau new = (value / #100)%js /\ Stage.users new = Stage.users old
       end).
Proof.
  intros Hindex. unfold updateStage. destruct (index <? 0) eqn:Hneg.
  - apply Z.ltb_lt in Hneg. exists stages. split; [reflexivity|].
    split; [reflexivity|]. split; [reflexivity | lia].
  - apply Z.ltb_ge in Hneg.
    destruct (at_index stages index) as [stage|] eqn:Hat;
      [|apply at_index_None in Hat; lia].
    pose proof (at_index_Some _ _ _ Hat) as [Hrange Hnth].
    assert (Hlt : (Z.to_nat index < length stages)%nat) by lia.
    eexists. split; [reflexivity|]. split; [|split; [lia|]].
    + intros j Hj. unfold at_index. destruct (j <? 0) eqn:E; [reflexivity|].
      apply Z.ltb_ge in E. rewrite set_at_nth_error by exact Hlt.
      destruct (Nat.eqb_spec (Z.to_nat j) (Z.to_nat index)) as [Heq|Hne]; [lia|].
      reflexivity.
    + intros _. exists stage. eexists. split; [reflexivity|]. split.
      * unfold at_index. destruct (index <? 0) eqn:E; [apply Z.ltb_lt in E; lia|].
        rewrite set_at_nth_error by exact Hlt. rewrite Nat.eqb_refl. reflexivity.
      * destruct field; simpl; auto.
Qed.

(** The daily-active percentage of "Full HQ" set to 50. *)
Lemma updateStage_reads_back_witness :
  exists stages' new,
    updateStage defaultStages 2 dau #50 = Some stages' /\
    at_index stages' 2 = Some new /\
    Stage.dau new = (#50 / #100)%js /\ Stage.users new = Stage.users fullHQ /\
    at_index stages' 3 = Some hqMgmt.
Proof.
  destruct (updateStage_reads_back defaultStages 2 dau #50 ltac:(simpl; lia))
    as (stages' & Hu & Hother & _ & Hread).
  destruct (Hread ltac:(lia)) as (old & new & Hold & Hnew & Hdau & Husers).
  exists stages', new. split; [exact Hu|]. split; [exact Hnew|].
  split; [exact Hdau|]. split.
  - injection Hold as <-. exact Husers.
  - rewrite (Hother 3) by lia. reflexivity.
Defined.

(** *** The agent portfolio *)

Lemma fold_max_ge ids : 0 <= fold_right Z.max 0 ids.
Proof. induction ids as [|x ids IH]; simpl; lia. Qed.

Lemma fold_max_In ids x : In x ids -> x <= fold_right Z.max 0 ids.
Proof.
  induction ids as [|y ids IH]; simpl; [contradiction|].
  intros [->|Hx]; [lia|]. specialize (IH Hx). lia.
Qed.

Lemma fold_max_le ids bound :
  0 <= bound -> (forall x, In x ids -> x <= bound) ->
  fold_right Z.max 0 ids <= bound.
Proof.
  intros Hb. induction ids as [|y ids IH]; simpl; intros H; [exact Hb|].
  pose proof (H y (or_introl eq_refl)). specialize (IH (fun x Hx => H x (or_intror Hx))).
  lia.
Qed.

(** While the ids are safe integers the new id is the largest id plus 1,
    with no rounding. *)
Lemma nextId_safe agents :
  safeIds agents -> nextId agents = fold_right Z.max 0 (map Agent.id agents) + 1.
Proof.
  intros Hsafe. unfold nextId. apply add_one_exact.
  split; [apply fold_max_ge|].
  assert (H : fold_right Z.max 0 (map Agent.id agents) <= MAX_SAFE_INTEGER).
  { apply fold_max_le; [unfold MAX_SAFE_INTEGER; lia|].
    intros x Hx. apply in_map_iff in Hx. destruct Hx as (a & <- & Ha).
    now apply Hsafe. }
  unfold MAX_SAFE_INTEGER in H. lia.
Qed.

(** Beyond them the sum is rounded: a portfolio whose largest id is 2^53
    is handed the id 2^53 again. *)
Lemma nextId_rounded agents :
  fold_right Z.max 0 (map Agent.id agents) = 2 ^ 53 -> nextId agents = 2 ^ 53.
Proof. intros H. unfold nextId. rewrite H. vm_compute. reflexivity. Qed.

Lemma nextId_fresh agents a :
  safeIds agents -> In a agents -> Agent.id a < nextId agents.
Proof.
  intros Hsafe Ha. rewrite (nextId_safe _ Hsafe).
  pose proof (fold_max_In (map Agent.id agents) (Agent.id a) (in_map _ _ _ Ha)).
  lia.
Qed.

(** The ids of a portfolio given by its agents are safe integers. *)
Ltac safe_ids :=
  let a := fresh "a" in
  let Ha := fresh "Ha" in
  intros a Ha; simpl in Ha; decompose [or] Ha; subst; try contradiction;
  unfold MAX_SAFE_INTEGER; simpl; lia.

Lemma addAgent_Some newAgent agents agents' :
  addAgent newAgent agents = Some agents' ->
  exists a,
    agents' = agents ++ [a] /\ Agent.id a = nextId agents /\
    Agent.color a = nextColor agents /\
    Agent.enabled a = match PartialAgent.enabled newAgent with
                      | Some enabled => enabled
                      | None => false
                      end.
Proof.
  unfold addAgent, newAgentObject.
  destruct (PartialAgent.name newAgent); [|discriminate].
  destruct (PartialAgent.purpose newAgent); [|discriminate].
  destruct (PartialAgent.conversationsPerDay newAgent); [|discriminate].
  destruct (PartialAgent.turns newAgent); [|discriminate].
  destruct (PartialAgent.generativeRatio newAgent); [|discriminate].
  destruct (PartialAgent.actions newAgent); [|discriminate].
  destruct (PartialAgent.tenantGraph newAgent); [|discriminate].
  destruct (PartialAgent.deployMonth newAgent); [|discriminate].
  destruct (PartialAgent.segments newAgent); [|discriminate].
  intros [= <-]. eexists. repeat split.
Qed.

(** X13. While the ids in use are safe integers (at most 2^53 - 1),
    [addAgent] appends one agent and leaves the others as they are; its id
    is at least 1 and above every id in use, so ids that were pairwise
    distinct stay pairwise distinct. *)
Theorem addAgent_fresh_id newAgent agents agents' :
  safeIds agents ->
  addAgent newAgent agents = Some agents' ->
  NoDup (map Agent.id agents) ->
  exists a,
    agents' = agents ++ [a] /\
    1 <= Agent.id a /\
    (forall a', In a' agents -> Agent.id a' < Agent.id a) /\
    NoDup (map Agent.id agents').
Proof.
  intros Hsafe Hadd Hnd. destruct (addAgent_Some _ _ _ Hadd) as (a & -> & Hid & _).
  exists a. split; [reflexivity|]. rewrite Hid.
  split.
  { rewrite (nextId_safe _ Hsafe).
    pose proof (fold_max_ge (map Agent.id agents)). lia. }
  split; [intros a' Ha'; now apply nextId_fresh|].
  rewrite map_app. cbn [map].
  apply NoDup_app; [exact Hnd | repeat constructor; auto | ].
  intros x Hx [<-|[]]. apply in_map_iff in Hx. destruct Hx as (a' & Heq & Ha').
  pose proof (nextId_fresh agents a' Hsafe Ha'). lia.
Qed.

Lemma addAgent_fresh_id_witness :
  exists agents' a,
    addAgent (AgentForm.initialFormData None) defaultAgents = Some agents' /\
    agents' = defaultAgents ++ [a] /\ Agent.id a = 6 /\
    NoDup (map Agent.id agents').
Proof.
  destruct (addAgent (AgentForm.initialFormData None) defaultAgents)
    as [agents'|] eqn:Hadd; [|vm_compute in Hadd; discriminate].
  destruct (addAgent_fresh_id (AgentForm.initialFormData None) defaultAgents
              agents' ltac:(safe_ids) Hadd) as (a & Ha & _ & _ & Hnd).
  - simpl. repeat constructor; simpl; intuition discriminate.
  - exists agents', a. split; [reflexivity|]. split; [exact Ha|].
    split; [|exact Hnd].
    rewrite Ha in Hadd. vm_compute in Hadd. injection Hadd as Hadd.
    now subst a.
Defined.

(** X14. The colour of a new agent is always taken from the palette, the
    colours being handed out in turn. *)
Theorem addAgent_colour newAgent agents agents' :
  addAgent newAgent agents = Some agents' ->
  exists a,
    agents' = agents ++ [a] /\
    nth_error agentColors (length agents mod 8) = Some (Agent.color a).
Proof.
  intros Hadd. destruct (addAgent_Some _ _ _ Hadd) as (a & -> & _ & Hc & _).
  exists a. split; [reflexivity|]. rewrite Hc. unfold nextColor.
  apply nth_error_nth'. apply Nat.mod_upper_bound. discriminate.
Qed.

Lemma addAgent_colour_witness :
  exists agents' a,
    addAgent (AgentForm.initialFormData None) defaultAgents = Some agents' /\
    agents' = defaultAgents ++ [a] /\ Agent.color a = "#ec4899".
Proof.
  destruct (addAgent (AgentForm.initialFormData None) defaultAgents)
    as [agents'|] eqn:Hadd; [|vm_compute in Hadd; discriminate].
  destruct (addAgent_colour _ _ _ Hadd) as (a & Ha & Hc).
  exists agents', a. split; [reflexivity|]. split; [exact Ha|].
  simpl in Hc. now injection Hc.
Defined.

Lemma filter_all {A : Type} (p : A -> bool) xs :
  (forall x, In x xs -> p x = true) -> filter p xs = xs.
Proof.
  induction xs as [|x xs IH]; simpl; intros H; [reflexivity|].
  rewrite (H x) by auto. f_equal. apply IH. auto.
Qed.

(** X15. While the ids in use are safe integers, deleting the agent that
    [addAgent] has just added gives the portfolio back: its id belongs to
    no other agent. *)
Theorem deleteAgent_addAgent newAgent agents agents' :
  safeIds agents ->
  addAgent newAgent agents = Some agents' ->
  deleteAgent (nextId agents) agents' = agents.
Proof.
  intros Hsafe Hadd. destruct (addAgent_Some _ _ _ Hadd) as (a & -> & Hid & _).
  unfold deleteAgent. rewrite filter_app. cbn [filter]. rewrite Hid.
  rewrite Z.eqb_refl. cbn [negb]. rewrite app_nil_r.
  apply filter_all. intros a' Ha'. pose proof (nextId_fresh agents a' Hsafe Ha').
  apply negb_true_iff, Z.eqb_neq. lia.
Qed.

Lemma deleteAgent_addAgent_witness :
  exists agents',
    addAgent (AgentForm.initialFormData None) defaultAgents = Some agents' /\
    deleteAgent 6 agents' = defaultAgents.
Proof.
  destruct (addAgent (AgentForm.initialFormData None) defaultAgents)
    as [agents'|] eqn:Hadd; [|vm_compute in Hadd; discriminate].
  exists agents'. split; [reflexivity|].
  exact (deleteAgent_addAgent (AgentForm.initialFormData None) defaultAgents
           agents' ltac:(safe_ids) Hadd).
Defined.

(** X16. Toggling an agent twice gives the portfolio back. *)
Theorem toggleAgent_involutive id agents :
  toggleAgent id (toggleAgent id agents) = agents.
Proof.
  unfold toggleAgent. rewrite map_map.
  rewrite <- (map_id agents) at 2. apply map_ext. intros a.
  destruct (Agent.id a =? id) eqn:E; cbn [Agent.id]; rewrite E; [|reflexivity].
  destruct a. cbn. now rewrite negb_involutive.
Qed.

Lemma merge_formData a b : merge a (AgentForm.initialFormData (Some b)) = b.
Proof. destruct b. reflexivity. Qed.

(** X17. [updateAgent] touches only the agents that carry the given id:
    what is left after deleting that id is the same before and after the
    update.  An update that does not change the id leaves the ids of the
    portfolio as they are, in number and in order. *)
Theorem updateAgent_by_id id updatedAgent agents :
  PartialAgent.id updatedAgent = None \/ PartialAgent.id updatedAgent = Some id ->
  map Agent.id (updateAgent id updatedAgent agents) = map Agent.id agents /\
  deleteAgent id (updateAgent id updatedAgent agents) = deleteAgent id agents.
Proof.
  intros Hid.
  assert (Hsame : forall a, Agent.id a = id -> Agent.id (merge a updatedAgent) = id).
  { intros a E. cbn [merge Agent.id].
    destruct Hid as [-> | ->]; cbn [spread]; congruence. }
  unfold updateAgent, deleteAgent. split.
  - rewrite map_map. apply map_ext. intros a.
    destruct (Z.eqb_spec (Agent.id a) id) as [E|E]; [|reflexivity].
    rewrite (Hsame a E). congruence.
  - induction agents as [|a agents IH]; [reflexivity|]. cbn [map filter].
    destruct (Z.eqb_spec (Agent.id a) id) as [E|E]; cbn [negb].
    + rewrite (Hsame a E), Z.eqb_refl. cbn [negb]. exact IH.
    + destruct (Z.eqb_spec (Agent.id a) id); [contradiction|]. cbn [negb].
      f_equal. exact IH.
Qed.

Lemma updateAgent_by_id_witness :
  deleteAgent 3 (updateAgent 3 (AgentForm.initialFormData (Some documentSearch))
                   defaultAgents)
  = deleteAgent 3 defaultAgents.
Proof.
  apply (updateAgent_by_id 3 (AgentForm.initialFormData (Some documentSearch))
           defaultAgents).
  right. reflexivity.
Defined.

(** X18. Saving the form of an agent without changing anything leaves a
    portfolio with pairwise distinct ids as it is. *)
Theorem updateAgent_unchanged agents a :
  NoDup (map Agent.id agents) -> In a agents ->
  updateAgent (Agent.id a) (AgentForm.initialFormData (Some a)) agents = agents.
Proof.
  intros Hnd Ha. unfold updateAgent.
  rewrite <- (map_id agents) at 2. apply map_ext_in. intros b Hb.
  destruct (Agent.id b =? Agent.id a) eqn:E; [|reflexivity].
  apply Z.eqb_eq in E. rewrite merge_formData.
  clear - Hnd Ha Hb E. induction agents as [|c agents IH]; [contradiction|].
  simpl in Hnd. inversion Hnd as [|? ? Hnotin Hnd']; subst.
  destruct Ha as [->|Ha], Hb as [->|Hb]; auto.
  - exfalso. apply Hnotin. rewrite <- E. now apply in_map.
  - exfalso. apply Hnotin. rewrite E. now apply in_map.
Qed.

Lemma updateAgent_unchanged_witness :
  updateAgent 3 (AgentForm.initialFormData (Some documentSearch)) defaultAgents
  = defaultAgents.
Proof.
  apply (updateAgent_unchanged defaultAgents documentSearch).
  - simpl. repeat constructor; simpl; intuition discriminate.
  - simpl. auto.
Defined.

(** *** Agents that are not enabled *)

Lemma for_loop_ext {S : Type} (body1 body2 : Z -> S -> S) n month s :
  (forall m x, body1 m x = body2 m x) ->
  for_loop n month body1 s = for_loop n month body2 s.
Proof.
  intros Hext. revert month s. induction n as [|n IH]; intros month s; simpl.
  - reflexivity.
  - rewrite Hext. apply IH.
Qed.

Lemma filter_idem {A : Type} (p : A -> bool) xs :
  filter p (filter p xs) = filter p xs.
Proof.
  induction xs as [|x xs IH]; simpl; [reflexivity|].
  destruct (p x) eqn:E; simpl; [rewrite E; f_equal|]; exact IH.
Qed.

(** A step function that skips the agents that are not enabled sees only
    the enabled ones. *)
Lemma fold_left_enabled {S : Type} (step : S -> Agent.t -> S) agents acc :
  (forall s a, Agent.enabled a = false -> step s a = s) ->
  fold_left step (filter Agent.enabled agents) acc = fold_left step agents acc.
Proof.
  intros Hskip. revert acc. induction agents as [|a agents IH]; intros acc; simpl.
  - reflexivity.
  - destruct (Agent.enabled a) eqn:E; simpl; [apply IH|].
    rewrite (Hskip _ _ E). apply IH.
Qed.

Lemma aggregateAgent_skips month users dau stage acc a :
  Agent.enabled a = false ->
  Portfolio.aggregateAgent month users dau stage acc a = acc.
Proof.
  intros E. unfold Portfolio.aggregateAgent. rewrite E.
  destruct acc as [[[tc tcr] ta]|]; reflexivity.
Qed.

Lemma Portfolio_agentCostStep_skips stages month monthData acc a :
  Agent.enabled a = false ->
  Portfolio.agentCostStep stages month monthData acc a = acc.
Proof.
  intros E. unfold Portfolio.agentCostStep. rewrite E.
  destruct acc as [[costs total]|]; reflexivity.
Qed.

Lemma Usage_agentCostStep_skips stages month monthData acc a :
  Agent.enabled a = false ->
  Usage.agentCostStep stages month monthData acc a = acc.
Proof.
  intros E. unfold Usage.agentCostStep. rewrite E.
  destruct acc as [[costs total]|]; reflexivity.
Qed.

Lemma monthRecord_enabled stages agents config month :
  Portfolio.monthRecord stages (filter Agent.enabled agents) config month
  = Portfolio.monthRecord stages agents config month.
Proof.
  unfold Portfolio.monthRecord.
  destruct (interpolateValue month _ _ Stage.users) as [u|]; [|reflexivity].
  destruct (interpolateValue month _ _ Stage.dau) as [d|]; [|reflexivity].
  rewrite fold_left_enabled; [reflexivity|].
  intros s a. apply aggregateAgent_skips.
Qed.

Lemma monthlyData_enabled stages agents config :
  Portfolio.monthlyData stages (filter Agent.enabled agents) config
  = Portfolio.monthlyData stages agents config.
Proof.
  unfold Portfolio.monthlyData, for_months. apply for_loop_ext.
  intros m acc. now rewrite monthRecord_enabled.
Qed.

Lemma Portfolio_agentMonthlyCosts_enabled stages agents data :
  Portfolio.agentMonthlyCosts stages (filter Agent.enabled agents) data
  = Portfolio.agentMonthlyCosts stages agents data.
Proof.
  unfold Portfolio.agentMonthlyCosts, for_months. apply for_loop_ext.
  intros m acc. destruct acc as [costs|]; [|reflexivity].
  destruct (at_index data (m - 1)) as [monthData|]; [|reflexivity].
  rewrite fold_left_enabled; [reflexivity|].
  intros s a. apply Portfolio_agentCostStep_skips.
Qed.

Lemma Usage_agentMonthlyCosts_enabled stages agents data :
  Usage.agentMonthlyCosts stages (filter Agent.enabled agents) data
  = Usage.agentMonthlyCosts stages agents data.
Proof.
  unfold Usage.agentMonthlyCosts, for_months. apply for_loop_ext.
  intros m acc. destruct acc as [costs|]; [|reflexivity].
  destruct (at_index data (m - 1)) as [monthData|]; [|reflexivity].
  rewrite fold_left_enabled; [reflexivity|].
  intros s a. apply Usage_agentCostStep_skips.
Qed.

Lemma projectBreakpoint_enabled stages agents config :
  Portfolio.projectBreakpoint stages (filter Agent.enabled agents) config
  = Portfolio.projectBreakpoint stages agents config.
Proof.
  unfold Portfolio.projectBreakpoint. rewrite monthlyData_enabled.
  destruct (Portfolio.monthlyData stages agents config) as [data|]; [|reflexivity].
  unfold Portfolio.licensingBreakpoint. now rewrite filter_idem.
Qed.

(** X19. An agent that is not enabled is invisible to everything the
    component derives from the portfolio: the monthly projection, the
    per-agent costs of both snapshots, the three-year summary per agent and
    the licensing breakpoint are those of the enabled agents alone. *)
Theorem disabled_agents_invisible stages agents config :
  let enabledAgents := filter Agent.enabled agents in
  Portfolio.monthlyData stages enabledAgents config
  = Portfolio.monthlyData stages agents config /\
  (forall data,
     Portfolio.agentMonthlyCosts stages enabledAgents data
     = Portfolio.agentMonthlyCosts stages agents data) /\
  (forall data,
     Usage.agentMonthlyCosts stages enabledAgents data
     = Usage.agentMonthlyCosts stages agents data) /\
  (forall costs,
     agent3YearSummary enabledAgents costs = agent3YearSummary agents costs) /\
  Portfolio.projectBreakpoint stages enabledAgents config
  = Portfolio.projectBreakpoint stages agents config.
Proof.
  cbv zeta. split; [apply monthlyData_enabled|].
  split; [intros data; apply Portfolio_agentMonthlyCosts_enabled|].
  split; [intros data; apply Usage_agentMonthlyCosts_enabled|].
  split; [|apply projectBreakpoint_enabled].
  intros costs. unfold agent3YearSummary. now rewrite filter_idem.
Qed.

(** X20. An agent saved from the form of a new agent carries no [enabled]
    flag, so adding it changes neither the monthly projection nor the
    licensing breakpoint; toggling it is what enables it, and while the ids
    in use are safe integers that toggle touches no other agent. *)
Theorem addAgent_not_enabled stages config newAgent agents agents' :
  PartialAgent.enabled newAgent = None ->
  addAgent newAgent agents = Some agents' ->
  Portfolio.monthlyData stages agents' config
  = Portfolio.monthlyData stages agents config /\
  Portfolio.projectBreakpoint stages agents' config
  = Portfolio.projectBreakpoint stages agents config /\
  (safeIds agents ->
   exists a,
     toggleAgent (nextId agents) agents' = agents ++ [a] /\
     Agent.enabled a = true).
Proof.
  intros Hen Hadd.
  destruct (addAgent_Some _ _ _ Hadd) as (a & -> & Hid & _ & Ha).
  rewrite Hen in Ha.
  assert (Hf : filter Agent.enabled (agents ++ [a]) = filter Agent.enabled agents).
  { rewrite filter_app. simpl. rewrite Ha. apply app_nil_r. }
  split; [|split].
  - now rewrite <- monthlyData_enabled, Hf, monthlyData_enabled.
  - now rewrite <- projectBreakpoint_enabled, Hf, projectBreakpoint_enabled.
  - intros Hsafe.
    unfold toggleAgent. rewrite map_app. cbn [map]. rewrite Hid, Z.eqb_refl.
    eexists. split.
    + f_equal. rewrite <- (map_id agents) at 2. apply map_ext_in.
      intros a' Ha'. pose proof (nextId_fresh agents a' Hsafe Ha').
      destruct (Z.eqb_spec (Agent.id a') (nextId agents)); [lia | reflexivity].
    + cbn [Agent.enabled]. now rewrite Ha.
Qed.

Lemma addAgent_not_enabled_witness :
  exists agents',
    addAgent (AgentForm.initialFormData None) defaultAgents = Some agents' /\
    Portfolio.monthlyData defaultStages agents' Portfolio.defaultConfig
    = Portfolio.monthlyData defaultStages defaultAgents Portfolio.defaultConfig /\
    exists a,
      toggleAgent (nextId defaultAgents) agents' = defaultAgents ++ [a] /\
      Agent.enabled a = true.
Proof.
  destruct (addAgent (AgentForm.initialFormData None) defaultAgents)
    as [agents'|] eqn:Hadd; [|vm_compute in Hadd; discriminate].
  exists agents'. split; [reflexivity|].
  destruct (addAgent_not_enabled defaultStages Portfolio.defaultConfig
              (AgentForm.initialFormData None) defaultAgents agents'
              eq_refl Hadd)
    as (Hdata & _ & Htoggle).
  split; [exact Hdata | exact (Htoggle ltac:(safe_ids))].
Defined.

(** X21. Switching an agent off is, for the projection and the breakpoint,
    the same as deleting it. *)
Theorem toggle_off_as_delete stages config id agents :
  (forall a, In a agents -> Agent.id a = id -> Agent.enabled a = true) ->
  Portfolio.monthlyData stages (toggleAgent id agents) config
  = Portfolio.monthlyData stages (deleteAgent id agents) config /\
  Portfolio.projectBreakpoint stages (toggleAgent id agents) config
  = Portfolio.projectBreakpoint stages (deleteAgent id agents) config.
Proof.
  intros Hon.
  assert (Hf : filter Agent.enabled (toggleAgent id agents)
               = filter Agent.enabled (deleteAgent id agents)).
  { unfold toggleAgent, deleteAgent.
    induction agents as [|a agents IH]; [reflexivity|]. cbn [map filter].
    destruct (Z.eqb_spec (Agent.id a) id) as [Heq|Hne]; cbn [negb Agent.enabled filter].
    - rewrite (Hon a (or_introl eq_refl) Heq). cbn [negb].
      apply IH. intros a' Ha'. apply Hon. now right.
    - destruct (Agent.enabled a); [f_equal|];
        apply IH; intros a' Ha'; apply Hon; now right. }
  split.
  - rewrite <- monthlyData_enabled, Hf. apply monthlyData_enabled.
  - rewrite <- projectBreakpoint_enabled, Hf. apply projectBreakpoint_enabled.
Qed.

Lemma toggle_off_as_delete_witness :
  Portfolio.monthlyData defaultStages (toggleAgent 3 defaultAgents)
    Portfolio.defaultConfig
  = Portfolio.monthlyData defaultStages (deleteAgent 3 defaultAgents)
      Portfolio.defaultConfig.
Proof.
  apply (proj1 (toggle_off_as_delete defaultStages Portfolio.defaultConfig 3
                  defaultAgents
                  ltac:(intros a Ha _; simpl in Ha;
                        decompose [or] Ha; subst; try reflexivity; contradiction))).
Defined.

End ComponentFacts.

(** ** The projections and their summaries *)

Module ProjectionFacts.
Import NumberSpec Rollout RolloutSpec RolloutFacts PortfolioSpec PortfolioFacts.
Import CalculatorSpec ProjectionSpec Component ComponentFacts CalculatorFacts.

Lemma cheapest_fold rest :
  forall seen min,
    In min seen ->
    (forall p, In p seen ->
       ltb (PricingSummary.total p) (PricingSummary.total min) = false) ->
    let m := fold_left
               (fun min curr =>
                  if ltb (PricingSummary.total curr) (PricingSummary.total min)
                  then curr else min)
               rest min in
    In m (seen ++ rest) /\
    forall p, In p (seen ++ rest) ->
      ltb (PricingSummary.total p) (PricingSummary.total m) = false.
Proof.
  induction rest as [|curr rest IH]; intros seen min Hin Hmin; cbn [fold_left].
  - cbv zeta. rewrite app_nil_r. auto.
  - replace (seen ++ curr :: rest) with ((seen ++ [curr]) ++ rest)
      by (rewrite <- app_assoc; reflexivity).
    destruct (ltb (PricingSummary.total curr) (PricingSummary.total min)) eqn:E.
    + apply IH.
      * apply in_or_app. right. now left.
      * intros p Hp. apply in_app_or in Hp. destruct Hp as [Hp|[<-|[]]].
        -- eapply ltb_false_below; eauto.
        -- apply ltb_irrefl.
    + apply IH.
      * apply in_or_app. now left.
      * intros p Hp. apply in_app_or in Hp. destruct Hp as [Hp|[<-|[]]]; auto.
Qed.

Lemma cheapestModel_spec summary m :
  cheapestModel summary = Some m ->
  In m summary /\
  forall p, In p summary ->
    ltb (PricingSummary.total p) (PricingSummary.total m) = false.
Proof.
  destruct summary as [|first rest]; [discriminate|]. cbn [cheapestModel].
  intros [= <-].
  apply (cheapest_fold rest [first] first).
  - now left.
  - intros p [<-|[]]. apply ltb_irrefl.
Qed.

(** X22. The model reported as the cheapest.  The summary always holds the
    five pricing models, so the reduction never meets an empty array; the
    model it returns is one of the five and no model has a three-year total
    below its total. *)
Theorem cheapestModel_minimal monthlyData :
  length (pricingSummary monthlyData) = 5%nat /\
  cheapestModel [] = None /\
  exists m,
    cheapestModel (pricingSummary monthlyData) = Some m /\
    In m (pricingSummary monthlyData) /\
    forall p, In p (pricingSummary monthlyData) ->
      ltb (PricingSummary.total p) (PricingSummary.total m) = false.
Proof.
  split; [reflexivity|]. split; [reflexivity|].
  destruct (cheapestModel (pricingSummary monthlyData)) as [m|] eqn:Hm;
    [|discriminate].
  exists m. split; [reflexivity|]. now apply cheapestModel_spec.
Qed.

Lemma collect_map {A B : Type} (f : Z -> option A) (g : A -> B) (h : Z -> B) n :
  forall month rs,
    collect f n month = Some rs ->
    (forall m r, f m = Some r -> g r = h m) ->
    map g rs = map h (months n month).
Proof.
  induction n as [|n IH]; intros month rs; simpl.
  - intros [= <-] _. reflexivity.
  - destruct (f month) as [r|] eqn:Hr; [|discriminate].
    destruct (collect f n (month + 1)) as [rs'|] eqn:Hrs; [|discriminate].
    intros [= <-] Hg. simpl. f_equal; [now apply Hg | now apply IH].
Qed.

Lemma Portfolio_monthRecord_label stages agents config M r :
  Portfolio.monthRecord stages agents config M = Some r ->
  (MonthlyData.month r, MonthlyData.year r) = (M, yearLabel M).
Proof.
  unfold Portfolio.monthRecord.
  destruct (interpolateValue M _ _ Stage.users) as [u|]; [|discriminate].
  destruct (interpolateValue M _ _ Stage.dau) as [d|]; [|discriminate].
  destruct (fold_left _ agents _) as [[[tc tcr] ta]|]; [|discriminate].
  intros [= <-]. reflexivity.
Qed.

Lemma Usage_monthRecord_label stages config M r :
  Usage.monthRecord stages config M = Some r ->
  (MonthlyData.month r, MonthlyData.year r) = (M, yearLabel M).
Proof.
  unfold Usage.monthRecord.
  destruct (interpolateValue M _ _ Stage.users) as [u|]; [|discriminate].
  destruct (interpolateValue M _ _ Stage.dau) as [d|]; [|discriminate].
  intros [= <-]. reflexivity.
Qed.

Lemma Portfolio_monthlyData_labels stages agents config data :
  Portfolio.monthlyData stages agents config = Some data ->
  map (fun r => (MonthlyData.month r, MonthlyData.year r)) data
  = map (fun m => (m, yearLabel m)) (months 36 1).
Proof.
  unfold Portfolio.monthlyData, for_months. rewrite for_loop_collect.
  destruct (collect _ _ _) as [rs|] eqn:Hrs; [|discriminate].
  intros [= <-]. cbn [app].
  apply (collect_map _ _ _ _ _ _ Hrs). intros m r.
  apply Portfolio_monthRecord_label.
Qed.

Lemma Usage_monthlyData_labels stages config data :
  Usage.monthlyData stages config = Some data ->
  map (fun r => (MonthlyData.month r, MonthlyData.year r)) data
  = map (fun m => (m, yearLabel m)) (months 36 1).
Proof.
  unfold Usage.monthlyData, for_months. rewrite for_loop_collect.
  destruct (collect _ _ _) as [rs|] eqn:Hrs; [|discriminate].
  intros [= <-]. cbn [app].
  apply (collect_map _ _ _ _ _ _ Hrs). intros m r.
  apply Usage_monthRecord_label.
Qed.

Lemma Usage_monthlyData_defined stages config :
  stages <> [] -> exists data, Usage.monthlyData stages config = Some data.
Proof.
  intros Hne. unfold Usage.monthlyData, for_months.
  rewrite for_loop_collect.
  destruct (collect_total (Usage.monthRecord stages config) (Z.to_nat 36) 1)
    as [rs Hrs].
  - intros i _. unfold Usage.monthRecord.
    pose proof (interpolated_defined stages (1 + Z.of_nat i) Stage.users Hne) as Hu.
    pose proof (interpolated_defined stages (1 + Z.of_nat i) Stage.dau Hne) as Hd.
    unfold interpolated in Hu, Hd.
    destruct (interpolateValue _ _ _ Stage.users); [|contradiction].
    destruct (interpolateValue _ _ _ Stage.dau); [discriminate | contradiction].
  - rewrite Hrs. now exists ([] ++ rs).
Qed.

(** X23. The 36-month projection needs a stage: with an empty stage list
    the interpolation reads a field of [undefined] and the projection
    throws, in both snapshots; with at least one stage it never throws, and
    it holds one record per month, months 1 to 36 in order, the first
    twelve labelled Year 1, the next twelve Year 2 and the last twelve
    Year 3. *)
Theorem monthlyData_needs_a_stage stages agents config usageConfig :
  (Portfolio.monthlyData stages agents config = None <-> stages = []) /\
  (Usage.monthlyData stages usageConfig = None <-> stages = []) /\
  (forall data,
     Portfolio.monthlyData stages agents config = Some data
     \/ Usage.monthlyData stages usageConfig = Some data ->
     map (fun r => (MonthlyData.month r, MonthlyData.year r)) data
     = map (fun m => (m, yearLabel m)) (months 36 1)).
Proof.
  split; [|split].
  - split.
    + intros Hnone. destruct stages as [|s stages]; [reflexivity|].
      destruct (monthlyData_defined (s :: stages) agents config ltac:(discriminate))
        as [data Hdata].
      congruence.
    + intros ->. reflexivity.
  - split.
    + intros Hnone. destruct stages as [|s stages]; [reflexivity|].
      destruct (Usage_monthlyData_defined (s :: stages) usageConfig
                  ltac:(discriminate)) as [data Hdata].
      congruence.
    + intros ->. reflexivity.
  - intros data [Hdata|Hdata].
    + now apply Portfolio_monthlyData_labels in Hdata.
    + now apply Usage_monthlyData_labels in Hdata.
Qed.

(** *** The yearly buckets of the summary *)

Lemma filter_by_image {A B : Type} (f : A -> B) (p : B -> bool) xs :
  filter (fun x => p (f x)) xs
  = map fst (filter (fun xy => p (snd xy)) (combine xs (map f xs))).
Proof.
  induction xs as [|x xs IH]; simpl; [reflexivity|].
  destruct (p (f x)); simpl; now rewrite IH.
Qed.

Lemma slices_by_label data :
  map MonthlyData.year data = map yearLabel (months 36 1) ->
  slice data 0 12 = ofYear "Year 1" data /\
  slice data 12 24 = ofYear "Year 2" data /\
  slice data 24 36 = ofYear "Year 3" data.
Proof.
  intros H. unfold ofYear.
  rewrite !(filter_by_image MonthlyData.year (fun y => (y =? _)%string)), H.
  assert (Hlen : length data = 36%nat)
    by (rewrite <- (length_map MonthlyData.year), H; reflexivity).
  clear H.
  do 36 (destruct data as [|? data]; [discriminate|]).
  destruct data; [|discriminate].
  repeat split; reflexivity.
Qed.

(** X24. The yearly figures of the five pricing models add up the months
    that carry the year's label: each of the 36 records is counted once, in
    the year it is labelled with. *)
Theorem pricingSummary_by_year stages agents config data :
  Portfolio.monthlyData stages agents config = Some data ->
  map (fun p => (PricingSummary.model p,
                 (PricingSummary.year1 p, PricingSummary.year2 p,
                  PricingSummary.year3 p)))
      (pricingSummary data)
  = [ ("PAYG Alone", byYear data MonthlyData.paygCost);
      ("P3 Pre-Purchase (15% discount)", byYear data MonthlyData.p3Cost);
      ("PAYG + M365 Licenses", byYear data MonthlyData.paygM365Cost);
      ("P3 + M365 Licenses", byYear data MonthlyData.p3M365Cost);
      ("M365 Copilot for All", byYear data MonthlyData.m365AllCost) ] /\
  Forall (fun p => PricingSummary.total p
                   = (PricingSummary.year1 p + PricingSummary.year2 p
                      + PricingSummary.year3 p)%js)
         (pricingSummary data).
Proof.
  intros Hdata. apply Portfolio_monthlyData_labels in Hdata.
  assert (Hy : map MonthlyData.year data = map yearLabel (months 36 1)).
  { apply (f_equal (map snd)) in Hdata. now rewrite !map_map in Hdata. }
  destruct (slices_by_label data Hy) as (H1 & H2 & H3).
  unfold byYear, pricingSummary. rewrite H1, H2, H3. split; [reflexivity|].
  repeat constructor.
Qed.

Lemma pricingSummary_by_year_witness :
  exists data,
    Portfolio.monthlyData defaultStages defaultAgents Portfolio.defaultConfig
    = Some data /\
    Forall (fun p => PricingSummary.total p
                     = (PricingSummary.year1 p + PricingSummary.year2 p
                        + PricingSummary.year3 p)%js)
           (pricingSummary data).
Proof.
  destruct (Portfolio.monthlyData defaultStages defaultAgents
              Portfolio.defaultConfig) as [data|] eqn:Hdata;
    [|vm_compute in Hdata; discriminate].
  exists data. split; [reflexivity|].
  exact (proj2 (pricingSummary_by_year _ _ _ _ Hdata)).
Defined.

(** *** The monthly breakdown by agent *)

Lemma Portfolio_agentCostStep_ids stages month monthData agents :
  forall costs total costs' total',
    fold_left (Portfolio.agentCostStep stages month monthData) agents
      (Some (costs, total)) = Some (costs', total') ->
    map AgentCost.agentId costs'
    = map AgentCost.agentId costs ++ map Agent.id (filter (deployed month) agents).
Proof.
  induction agents as [|a agents IH]; intros costs total costs' total'.
  - simpl. intros [= <- <-]. now rewrite app_nil_r.
  - cbn [fold_left filter]. unfold Portfolio.agentCostStep at 2, deployed at 1.
    destruct (Agent.enabled a); cbn [negb andb].
    + destruct (ltb #month (Agent.deployMonth a)); cbn [negb].
      * apply IH.
      * destruct (eligibleUsers _ _ _) as [e|].
        -- intros H. rewrite (IH _ _ _ _ H), map_app, <- app_assoc. reflexivity.
        -- intros H. exfalso. clear - H.
           induction agents as [|b agents IHb]; [discriminate | exact (IHb H)].
    + apply IH.
Qed.

Lemma Portfolio_agentMonthlyCosts_loop stages agents data n :
  forall month acc result,
    1 <= month -> month + Z.of_nat n <= 37 ->
    (forall costs, acc = Some costs -> Forall (listsDeployed agents) costs) ->
    for_loop n month
      (fun month acc =>
         costs <- acc ;;
         match at_index data (month - 1) with
         | None => Some costs
         | Some monthData =>
             '(agentCosts, totalCost) <-
               fold_left (Portfolio.agentCostStep stages month monthData)
                 agents (Some ([], #0%js)) ;;
             Some (costs ++
                     [ {| AgentMonthlyCost.month := month;
                          AgentMonthlyCost.agentCosts := agentCosts;
                          AgentMonthlyCost.totalCost := Math_round totalCost |} ])
         end) acc = Some result ->
    Forall (listsDeployed agents) result.
Proof.
  induction n as [|n IH]; intros month acc result Hlo Hhi Hacc; cbn [for_loop].
  - apply Hacc.
  - apply IH; [lia | lia |].
    intros costs'. destruct acc as [cs|]; [|discriminate].
    destruct (at_index data (month - 1)) as [monthData|]; [|exact (Hacc costs')].
    destruct (fold_left _ agents _) as [[agentCosts totalCost]|] eqn:Hf;
      [|discriminate].
    intros [= <-]. apply Forall_app. split; [now apply Hacc|].
    constructor; [|constructor]. split; [cbn; lia|].
    cbn [AgentMonthlyCost.month AgentMonthlyCost.agentCosts].
    now rewrite (Portfolio_agentCostStep_ids _ _ _ _ _ _ _ _ Hf).
Qed.

Lemma Portfolio_agentMonthlyCosts_entries stages agents data costs :
  Portfolio.agentMonthlyCosts stages agents data = Some costs ->
  Forall (listsDeployed agents) costs.
Proof.
  unfold Portfolio.agentMonthlyCosts, for_months. intros Hc.
  apply (Portfolio_agentMonthlyCosts_loop stages agents data (Z.to_nat 36) 1
           (Some []) costs); [lia | simpl; lia | | exact Hc].
  intros cs [= <-]. constructor.
Qed.

(** X25. The monthly breakdown lists, for every month, exactly the agents
    that are enabled and whose deployment month is not after the month, in
    the order of the portfolio: one line per such agent, carrying its id. *)
Theorem agentMonthlyCosts_lists_deployed stages agents data costs c :
  Portfolio.agentMonthlyCosts stages agents data = Some costs ->
  In c costs ->
  1 <= AgentMonthlyCost.month c <= 36 /\
  map AgentCost.agentId (AgentMonthlyCost.agentCosts c)
  = map Agent.id (filter (deployed (AgentMonthlyCost.month c)) agents).
Proof.
  intros Hc Hin. apply Portfolio_agentMonthlyCosts_entries in Hc.
  rewrite Forall_forall in Hc. exact (Hc c Hin).
Qed.

Lemma agentMonthlyCosts_lists_deployed_witness :
  exists data costs,
    Portfolio.monthlyData defaultStages defaultAgents Portfolio.defaultConfig
    = Some data /\
    Portfolio.agentMonthlyCosts defaultStages defaultAgents data = Some costs /\
    Forall (fun c =>
              map AgentCost.agentId (AgentMonthlyCost.agentCosts c)
              = map Agent.id
                  (filter (deployed (AgentMonthlyCost.month c)) defaultAgents))
           costs.
Proof.
  destruct (Portfolio.monthlyData defaultStages defaultAgents
              Portfolio.defaultConfig) as [data|] eqn:Hdata;
    [|vm_compute in Hdata; discriminate].
  destruct (Portfolio.agentMonthlyCosts defaultStages defaultAgents data)
    as [costs|] eqn:Hcosts.
  - exists data, costs. split; [reflexivity|]. split; [exact Hcosts|].
    apply Forall_forall. intros c Hin.
    exact (proj2 (agentMonthlyCosts_lists_deployed _ _ _ _ _ Hcosts Hin)).
  - exfalso. vm_compute in Hdata. injection Hdata as <-.
    vm_compute in Hcosts. discriminate.
Defined.

Lemma interpolated_at_anchor stages b (getValue : Stage.t -> number) :
  increasing stages = true ->
  In b stages ->
  (forall s, In s stages -> 1 <= Stage.month s <= 36) ->
  (forall s, In s stages -> is_finite (getValue s - getValue b)%js = true) ->
  exists v,
    interpolated stages (Stage.month b) getValue = Some v /\
    seq v (getValue b) = true.
Proof.
  intros Hinc Hb Hmonths Hfin.
  assert (Hbv : is_finite (getValue b) = true)
    by (apply (sub_finite_l (getValue b)); auto).
  assert (Hlast : last_item (stagesBefore stages (Stage.month b)) = Some b).
  { apply latestBefore_last_item; [exact Hinc|].
    split; [exact Hb|]. split; [lia|]. auto. }
  unfold interpolated, interpolateValue. rewrite Hlast.
  destruct (hd_error (stagesAfter stages (Stage.month b))) as [a|] eqn:Ha.
  - apply (hd_stagesAfter _ _ _ Hinc) in Ha. destruct Ha as (Hin & Hlt & _).
    destruct (month_numbers (Stage.month b) (Stage.month a)
                (Hmonths _ Hb) (Hmonths _ Hin)) as (Hmb & Hrange & _).
    destruct (Hrange Hlt) as [_ Hrange'].
    eexists. split; [reflexivity|].
    apply add_zero_r; [exact Hbv|].
    apply mul_finite_zero; [now apply Hfin|].
    apply div_zero_truthy; [now apply sub_self | exact Hrange'].
  - exists (getValue b). split; [reflexivity|].
    apply seq_refl. now destruct (getValue b).
Qed.

(** X26. The projection passes through its anchors.  For stages with
    increasing anchor months within the 36 months of the projection, whose
    user counts and daily-active fractions have finite differences, the
    record of the anchor month of a stage shows the user count of that
    stage, rounded, and its daily-active fraction, in both snapshots. *)
Theorem projection_through_anchors stages b (r : MonthlyData.t) :
  increasing stages = true ->
  In b stages ->
  (forall s, In s stages -> 1 <= Stage.month s <= 36) ->
  (forall s, In s stages ->
     is_finite (Stage.users s - Stage.users b)%js = true /\
     is_finite (Stage.dau s - Stage.dau b)%js = true) ->
  (exists agents config,
     Portfolio.monthRecord stages agents config (Stage.month b) = Some r)
  \/ (exists config, Usage.monthRecord stages config (Stage.month b) = Some r) ->
  MonthlyData.month r = Stage.month b /\
  seq (MonthlyData.users r) (Math_round (Stage.users b)) = true /\
  seq (MonthlyData.dau r) (Stage.dau b) = true.
Proof.
  intros Hinc Hb Hmonths Hfin Hr.
  destruct (interpolated_at_anchor stages b Stage.users Hinc Hb Hmonths
              (fun s Hs => proj1 (Hfin s Hs))) as (u & Hu & Hus).
  destruct (interpolated_at_anchor stages b Stage.dau Hinc Hb Hmonths
              (fun s Hs => proj2 (Hfin s Hs))) as (d & Hd & Hds).
  assert (H : MonthlyData.month r = Stage.month b /\
              MonthlyData.users r = Math_round u /\ MonthlyData.dau r = d).
  { destruct Hr as [(agents & config & Hr)|(config & Hr)].
    - destruct (Portfolio_monthRecord_interpolated _ _ _ _ _ Hr)
        as (u' & d' & Hu' & Hd' & Hm & Hur & Hdr).
      rewrite Hu in Hu'. rewrite Hd in Hd'.
      injection Hu' as <-. injection Hd' as <-. auto.
    - destruct (Usage_monthRecord_interpolated _ _ _ _ Hr) as (u' & d' & Hu' & Hd' & ->).
      rewrite Hu in Hu'. rewrite Hd in Hd'.
      injection Hu' as <-. injection Hd' as <-. auto. }
  destruct H as (Hm & -> & ->).
  split; [exact Hm|]. split; [now apply Math_round_seq | exact Hds].
Qed.

Lemma projection_through_anchors_witness :
  exists r,
    Portfolio.monthRecord defaultStages defaultAgents Portfolio.defaultConfig 10
    = Some r /\
    seq (MonthlyData.users r) (Math_round #2500) = true /\
    seq (MonthlyData.dau r) (lit 0.35) = true.
Proof.
  destruct (Portfolio.monthRecord defaultStages defaultAgents
              Portfolio.defaultConfig 10) as [r|] eqn:Hr;
    [|vm_compute in Hr; discriminate].
  exists r. split; [reflexivity|].
  apply (projection_through_anchors defaultStages hqMgmt r eq_refl).
  - simpl. auto 10.
  - intros s Hs. simpl in Hs. decompose [or] Hs; subst; simpl; try lia.
  - intros s Hs. simpl in Hs.
    decompose [or] Hs; subst; try (split; reflexivity). contradiction.
  - left. exists defaultAgents, Portfolio.defaultConfig. exact Hr.
Defined.

(** *** The three-year summary per agent *)

Lemma NoDup_id_inj agents a a' :
  NoDup (map Agent.id agents) -> In a agents -> In a' agents ->
  Agent.id a = Agent.id a' -> a = a'.
Proof.
  induction agents as [|c agents IH]; intros Hnd Ha Ha' E; [contradiction|].
  simpl in Hnd. inversion Hnd as [|? ? Hnotin Hnd']; subst.
  destruct Ha as [->|Ha], Ha' as [->|Ha']; auto.
  - exfalso. apply Hnotin. rewrite E. now apply in_map.
  - exfalso. apply Hnotin. rewrite <- E. now apply in_map.
Qed.

(** In a month before its deployment an agent has no line of its own. *)
Lemma no_line_before_deployment agents a c :
  NoDup (map Agent.id agents) -> In a agents ->
  listsDeployed agents c ->
  ltb #(AgentMonthlyCost.month c) (Agent.deployMonth a) = true ->
  find (fun ac => AgentCost.agentId ac =? Agent.id a)
       (AgentMonthlyCost.agentCosts c) = None.
Proof.
  intros Hnd Ha [_ Hids] Hlt.
  destruct (find _ (AgentMonthlyCost.agentCosts c)) as [ac|] eqn:Hf; [|reflexivity].
  exfalso. apply find_some in Hf. destruct Hf as [Hin Heq]. apply Z.eqb_eq in Heq.
  apply (in_map AgentCost.agentId) in Hin. rewrite Hids, Heq in Hin.
  apply in_map_iff in Hin. destruct Hin as (a' & Hid & Hin').
  apply filter_In in Hin'. destruct Hin' as [Hin' Hdep].
  assert (a' = a) by (apply (NoDup_id_inj agents); auto). subst a'.
  unfold deployed in Hdep. rewrite Hlt in Hdep.
  destruct (Agent.enabled a); discriminate.
Qed.

Lemma yearly_fold_untouched agents a costs (bound : Z) :
  NoDup (map Agent.id agents) -> In a agents ->
  Forall (listsDeployed agents) costs ->
  ltb #bound (Agent.deployMonth a) = true ->
  (bound = 12 \/ bound = 24) ->
  forall acc,
    let result := fold_left (yearlyStep a) costs acc in
    fst (fst result) = fst (fst acc) /\
    (bound = 24 -> snd (fst result) = snd (fst acc)).
Proof.
  intros Hnd Ha Hcosts Hlt Hbound.
  induction Hcosts as [|c costs Hc Hcosts IH]; intros acc; cbn [fold_left].
  - cbv zeta. auto.
  - cbv zeta in *. destruct (IH (yearlyStep a acc c)) as [IH1 IH2].
    rewrite IH1. 
    assert (Hstep : fst (fst (yearlyStep a acc c)) = fst (fst acc) /\
                    (bound = 24 ->
                     snd (fst (yearlyStep a acc c)) = snd (fst acc))).
    { unfold yearlyStep. destruct acc as [[y1 y2] y3].
      destruct (AgentMonthlyCost.month c <=? bound) eqn:E.
      - apply Z.leb_le in E. destruct Hc as [Hrange Hids].
        assert (Hb : 1 <= bound <= 36) by lia.
        destruct (month_numbers _ _ Hrange Hb) as (_ & _ & Hle).
        rewrite (no_line_before_deployment agents a c Hnd Ha
                   (conj Hrange Hids)
                   (leb_ltb_trans _ _ _ (Hle E) Hlt)).
        auto.
      - apply Z.leb_gt in E.
        destruct (find _ _) as [ac|]; [|auto]. cbn [fst snd].
        destruct (AgentMonthlyCost.month c <=? 12) eqn:E12;
          [apply Z.leb_le in E12; lia|].
        destruct (AgentMonthlyCost.month c <=? 24) eqn:E24; cbn [fst snd].
        + split; [reflexivity|]. intros ->. apply Z.leb_le in E24. lia.
        + auto. }
    destruct Hstep as [H1 H2]. split; [exact H1|].
    intros Hb. rewrite (IH2 Hb). auto.
Qed.

(** X27. For a portfolio with pairwise distinct ids and the per-agent
    costs computed from it, the three-year summary has one entry per
    enabled agent, in the order of the portfolio, and it charges an agent
    nothing before its deployment: deployed after month 12, its Year 1 is
    0; deployed after month 24, its Year 2 is 0 as well. *)
Theorem agent3YearSummary_before_deployment stages agents data costs :
  NoDup (map Agent.id agents) ->
  Portfolio.agentMonthlyCosts stages agents data = Some costs ->
  map AgentSummary.agent (agent3YearSummary agents costs)
  = filter Agent.enabled agents /\
  forall s, In s (agent3YearSummary agents costs) ->
    (ltb #12 (Agent.deployMonth (AgentSummary.agent s)) = true ->
     AgentSummary.year1 s = #0%js) /\
    (ltb #24 (Agent.deployMonth (AgentSummary.agent s)) = true ->
     AgentSummary.year1 s = #0%js /\ AgentSummary.year2 s = #0%js).
Proof.
  intros Hnd Hcosts. apply Portfolio_agentMonthlyCosts_entries in Hcosts. split.
  - unfold agent3YearSummary. rewrite map_map.
    rewrite <- (map_id (filter Agent.enabled agents)) at 2.
    apply map_ext. intros a.
    destruct (fold_left (yearlyStep a) costs _) as [[y1 y2] y3]. reflexivity.
  - intros s Hs. unfold agent3YearSummary in Hs. apply in_map_iff in Hs.
    destruct Hs as (a & <- & Ha). apply filter_In in Ha. destruct Ha as [Ha _].
    split.
    + intros Hlt.
      pose proof (yearly_fold_untouched agents a costs 12 Hnd Ha Hcosts) as H.
      destruct (fold_left (yearlyStep a) costs (#0, #0, #0)%js)
        as [[y1 y2] y3] eqn:Hf.
      cbn [AgentSummary.agent AgentSummary.year1] in *.
      specialize (H Hlt (or_introl eq_refl) (#0, #0, #0)%js). cbv zeta in H.
      rewrite Hf in H. exact (proj1 H).
    + intros Hlt.
      pose proof (yearly_fold_untouched agents a costs 24 Hnd Ha Hcosts) as H.
      destruct (fold_left (yearlyStep a) costs (#0, #0, #0)%js)
        as [[y1 y2] y3] eqn:Hf.
      cbn [AgentSummary.agent AgentSummary.year1 AgentSummary.year2] in *.
      specialize (H Hlt (or_intror eq_refl) (#0, #0, #0)%js). cbv zeta in H.
      rewrite Hf in H. destruct H as [H1 H2]. split; [exact H1 | exact (H2 eq_refl)].
Qed.

Lemma agent3YearSummary_before_deployment_witness :
  exists data costs,
    Portfolio.monthlyData defaultStages [hrHelper; secondYearTranslation]
      Portfolio.defaultConfig = Some data /\
    Portfolio.agentMonthlyCosts defaultStages [hrHelper; secondYearTranslation] data
    = Some costs /\
    map AgentSummary.agent
      (agent3YearSummary [hrHelper; secondYearTranslation] costs)
    = [hrHelper; secondYearTranslation].
Proof.
  destruct (Portfolio.monthlyData defaultStages [hrHelper; secondYearTranslation]
              Portfolio.defaultConfig) as [data|] eqn:Hdata;
    [|vm_compute in Hdata; discriminate].
  destruct (Portfolio.agentMonthlyCosts defaultStages
              [hrHelper; secondYearTranslation] data) as [costs|] eqn:Hcosts.
  - exists data, costs. split; [reflexivity|]. split; [exact Hcosts|].
    apply (agent3YearSummary_before_deployment defaultStages
             [hrHelper; secondYearTranslation] data costs); [|exact Hcosts].
    simpl. repeat constructor; simpl; intuition discriminate.
  - exfalso. vm_compute in Hdata. injection Hdata as <-.
    vm_compute in Hcosts. discriminate.
Defined.

(** *** The segment of the simulated agents *)

(** The first entry after sorting is the first entry, in the order of the
    map, among those with the largest count. *)
Lemma sortByCount_hd_first entries h :
  hd_error (Portfolio.sortByCount entries) = Some h ->
  exists before after,
    entries = before ++ h :: after /\
    (forall e, In e before -> snd e < snd h) /\
    (forall e, In e after -> snd e <= snd h).
Proof.
  revert h. induction entries as [|a entries IH]; intros h; simpl; [discriminate|].
  destruct (Portfolio.sortByCount entries) as [|b sorted] eqn:Hs; simpl.
  - intros [= <-]. exists [], entries. split; [reflexivity|].
    split; [intros e []|]. intros e He.
    apply sortByCount_In in He. rewrite Hs in He. contradiction.
  - destruct (snd b - snd a <=? 0) eqn:Hcmp; simpl; intros [= <-].
    + apply Z.leb_le in Hcmp. exists [], entries. split; [reflexivity|].
      split; [intros e []|]. intros e He.
      assert (Hb : hd_error (Portfolio.sortByCount entries) = Some b)
        by now rewrite Hs.
      pose proof (sortByCount_hd_max _ _ Hb e He). lia.
    + apply Z.leb_gt in Hcmp.
      destruct (IH b eq_refl) as (before & after & -> & Hbefore & Hafter).
      exists (a :: before), after. split; [reflexivity|]. split; [|exact Hafter].
      intros e [<-|He]; [lia | auto].
Qed.

(** X28. Ties between segments are broken by first appearance: the segment
    chosen for the simulated agents has the largest count, and every
    segment that entered the count before it has a strictly smaller
    count. *)
Theorem mostCommonSegment_first_among_equals enabledAgents seg :
  Portfolio.mostCommonSegment enabledAgents = Some seg ->
  exists n before after,
    Portfolio.segmentCounts enabledAgents = before ++ (seg, n) :: after /\
    n = occurrences seg enabledAgents /\
    (forall e, In e before -> snd e < n) /\
    (forall e, In e after -> snd e <= n).
Proof.
  unfold Portfolio.mostCommonSegment.
  destruct (hd_error (Portfolio.sortByCount (Portfolio.segmentCounts enabledAgents)))
    as [[k n]|] eqn:Hhd; [|discriminate].
  simpl. intros [= <-].
  destruct (sortByCount_hd_first _ _ Hhd) as (before & after & Heq & Hb & Ha).
  exists n, before, after. split; [exact Heq|]. split; [|split; assumption].
  destruct (segmentCounts_occurrences k enabledAgents) as [Hnd Hk].
  rewrite <- Hk. symmetry. apply countOf_In; [exact Hnd|].
  rewrite Heq. apply in_or_app. right. now left.
Qed.

Lemma mostCommonSegment_first_among_equals_witness :
  exists n before after,
    Portfolio.segmentCounts defaultAgents = before ++ ("HQ", n) :: after /\
    n = occurrences "HQ" defaultAgents.
Proof.
  destruct (mostCommonSegment_first_among_equals defaultAgents "HQ" eq_refl)
    as (n & before & after & H1 & H2 & _).
  exists n, before, after. auto.
Defined.

End ProjectionFacts.

(** ** The licensing impact *)

Module ImpactFacts.
Import Rollout RolloutSpec ProjectionSpec Component ComponentFacts CalculatorFacts.

(** *** The licensing impact of an empty portfolio *)

Lemma filter_none {A : Type} (p : A -> bool) xs :
  (forall x, In x xs -> p x = false) -> filter p xs = [].
Proof.
  induction xs as [|x xs IH]; simpl; intros H; [reflexivity|].
  rewrite (H x) by auto. apply IH. auto.
Qed.

Lemma Usage_agentMonthlyCosts_no_agents stages data costs :
  Usage.agentMonthlyCosts stages [] data = Some costs ->
  Forall (fun c => is_zero (AgentMonthlyCost.totalCost c) = true) costs.
Proof.
  unfold Usage.agentMonthlyCosts, for_months.
  set (I := fun acc : option (list AgentMonthlyCost.t) =>
              forall costs, acc = Some costs ->
                Forall (fun c => is_zero (AgentMonthlyCost.totalCost c) = true) costs).
  intros H. revert costs H. fold (I (for_loop (Z.to_nat 36) 1
    (fun month acc =>
       costs <- acc ;;
       match at_index data (month - 1) with
       | None => Some costs
       | Some monthData =>
           '(agentCosts, totalCost) <-
             fold_left (Usage.agentCostStep stages month monthData) []
               (Some ([], #0%js)) ;;
           Some (costs ++
                   [ {| AgentMonthlyCost.month := month;
                        AgentMonthlyCost.agentCosts := agentCosts;
                        AgentMonthlyCost.totalCost := Math_round totalCost |} ])
       end) (Some []))).
  apply for_loop_invariant.
  - intros costs [= <-]. constructor.
  - intros m acc Hacc costs. destruct acc as [cs|]; [|discriminate].
    destruct (at_index data (m - 1)); [|apply Hacc].
    cbn [fold_left]. intros [= <-]. apply Forall_app. split; [now apply Hacc|].
    repeat constructor.
Qed.

Lemma calculateMonthMetrics_idle costs data month :
  Forall (fun c => is_zero (AgentMonthlyCost.totalCost c) = true) costs ->
  let metrics := Usage.calculateMonthMetrics costs data month in
  zero_or_nan (Usage.MonthMetrics.creditsPerUser metrics) = true /\
  zero_or_nan (Usage.MonthMetrics.costPerUser metrics) = true.
Proof.
  intros Hcosts. unfold Usage.calculateMonthMetrics.
  destruct (at_index costs (month - 1)) as [c|] eqn:Hc; [|split; reflexivity].
  destruct (at_index data (month - 1)) as [r|]; [|split; reflexivity].
  destruct (seq (MonthlyData.activeUsers r) #0); [split; reflexivity|].
  assert (Hz : is_zero (AgentMonthlyCost.totalCost c) = true).
  { rewrite Forall_forall in Hcosts. apply Hcosts.
    unfold at_index in Hc. destruct (month - 1 <? 0); [discriminate|].
    eapply nth_error_In; eauto. }
  cbv zeta. cbn [Usage.MonthMetrics.creditsPerUser Usage.MonthMetrics.costPerUser].
  destruct (AgentMonthlyCost.totalCost c) as [s| | |]; try discriminate.
  destruct s, (MonthlyData.activeUsers r) as [[]|[]| |[] m e]; split; reflexivity.
Qed.

(** X29. With no agent enabled the licensing impact never recommends the
    M365 seat: the per-user credits and cost it reports are 0 (or NaN when
    the active-user count of month 24 is NaN), which is not above the
    threshold. *)
Theorem licensingImpact_without_agents stages agents config impact :
  (forall a, In a agents -> Agent.enabled a = false) ->
  Usage.projectLicensingImpact stages agents config = Some impact ->
  Usage.LicensingImpact.recommendM365 impact = false /\
  zero_or_nan (Usage.LicensingImpact.avgCreditsPerUserMonth impact) = true /\
  zero_or_nan (Usage.LicensingImpact.monthlyCostPerUser impact) = true.
Proof.
  intros Hoff. unfold Usage.projectLicensingImpact.
  destruct (Usage.monthlyData stages config) as [data|]; [|discriminate].
  rewrite <- Usage_agentMonthlyCosts_enabled, (filter_none _ _ Hoff).
  destruct (Usage.agentMonthlyCosts stages [] data) as [costs|] eqn:Hcosts;
    [|discriminate].
  intros [= <-]. apply Usage_agentMonthlyCosts_no_agents in Hcosts.
  destruct (calculateMonthMetrics_idle costs data 24 Hcosts) as [H1 H2].
  unfold Usage.licensingImpact.
  cbn [Usage.LicensingImpact.recommendM365 Usage.LicensingImpact.avgCreditsPerUserMonth
       Usage.LicensingImpact.monthlyCostPerUser].
  split; [|split; assumption].
  destruct (Usage.MonthMetrics.creditsPerUser
              (Usage.calculateMonthMetrics costs data 24)); try discriminate;
    reflexivity.
Qed.

Lemma licensingImpact_without_agents_witness :
  exists impact,
    Usage.projectLicensingImpact defaultStages [] Usage.defaultConfig = Some impact /\
    Usage.LicensingImpact.recommendM365 impact = false.
Proof.
  destruct (Usage.projectLicensingImpact defaultStages [] Usage.defaultConfig)
    as [impact|] eqn:Hi; [|vm_compute in Hi; discriminate].
  exists impact. split; [reflexivity|].
  apply (licensingImpact_without_agents defaultStages [] Usage.defaultConfig impact);
    [intros a [] | exact Hi].
Defined.

End ImpactFacts.
